(** * wikidated: triple model, prefixing, per-entity diff engine and
      partial entity-stream builder

    Shallow embedding of
    - [src/wikidated/wikidata/wikidata_rdf_converter.py]
      ([WikidataRdfTriple], [WIKIDATA_RDF_PREFIXES], [_prefix_ntriples_uri],
      [_parse_ntriples]) and
    - [src/wikidated/wikidated_dataset.py]
      ([WikidatedEntityStreams], [_WikidatedEntityStreamsPartial],
      [_WikidataEntityStreamsMerged]).

    Python values are modelled as follows: [str] is [string] (characters are
    [ascii], i.e. code points below 256), [int] is [Z], a raised exception is
    the [Raise] branch of [result], a generator run to exhaustion is the list
    of the values it yielded together with the exception that ended it, if
    any. *)

From Stdlib Require Import ZArith String Ascii List Bool Lia.
From Stdlib Require Import DecimalString DecimalPos DecimalZ.
From stdpp Require Import gmap strings list sorting.

Local Open Scope Z_scope.

(** ** Exceptions and fallible computations *)

Inductive exception : Type :=
| IndexError
| KeyError
| ValueError
| TypeError
| NotImplementedError
| FileNotFoundError
| OSError
| WikidataRdfConversionError (reason : string)
| JException (message : string).

Inductive result (A : Type) : Type :=
| Ok (a : A)
| Raise (e : exception).

Arguments Ok {A} a.
Arguments Raise {A} e.

#[global] Instance result_ret : MRet result := @Ok.

#[global] Instance result_bind : MBind result :=
  fun A B (k : A -> result B) (r : result A) =>
    match r with
    | Ok a => k a
    | Raise e => Raise e
    end.

(** A generator that has been run until it stopped: what it yielded, and
    [Some e] when it stopped because [e] was raised inside it. *)
Record generated (A : Type) : Type := Generated {
  yielded : list A;
  raised : option exception
}.

Arguments Generated {A} yielded raised.
Arguments yielded {A} g.
Arguments raised {A} g.

(** ** Python [str] operations *)

Module Str.

Fixpoint take (n : nat) (s : string) : string :=
  match n, s with
  | S n', String c s' => String c (take n' s')
  | _, _ => EmptyString
  end.

Fixpoint drop (n : nat) (s : string) : string :=
  match n, s with
  | S n', String _ s' => drop n' s'
  | _, _ => s
  end.

Definition len (s : string) : Z := Z.of_nat (String.length s).

(** How a slice bound is clipped: a negative bound counts from the end. *)
Definition clip (n i : Z) : Z :=
  if i <? 0 then Z.max (i + n) 0 else Z.min i n.

(** [s[start:stop]], [None] for an omitted bound. *)
Definition slice (s : string) (start stop : option Z) : string :=
  let lo := from_option (clip (len s)) 0 start in
  let hi := from_option (clip (len s)) (len s) stop in
  take (Z.to_nat (hi - lo)) (drop (Z.to_nat lo) s).

(** [s[i]]: a one-character string, or [IndexError]. *)
Definition getitem (s : string) (i : Z) : result string :=
  let j := if i <? 0 then i + len s else i in
  if (0 <=? j) && (j <? len s)
  then match String.get (Z.to_nat j) s with
       | Some c => Ok (String c EmptyString)
       | None => Raise IndexError
       end
  else Raise IndexError.

(** [s.split(sep)] and [s.split(sep, maxsplit)] for a separator that is not
    empty, as all the separators of the sources are: [split_go sep 0 limit ""
    s], where [limit] is the number of splits left ([None]: no limit). In
    the loop, [skip] characters of a separator just found are still to be
    passed over, and [cur] is the piece being read. *)
Fixpoint split_go (sep : string) (skip : nat) (limit : option nat)
    (cur : string) (s : string) : list string :=
  match s with
  | EmptyString => [cur]
  | String c s' =>
    match skip with
    | S k => split_go sep k limit cur s'
    | O =>
      if String.prefix sep s && negb (bool_decide (limit = Some O))
      then cur :: split_go sep (String.length sep - 1) (Nat.pred <$> limit) "" s'
      else split_go sep O limit (cur +:+ String c "") s'
    end
  end.

(** White space below code point 256, as [str.strip] and [int] skip it. *)
Definition is_space (c : ascii) : bool :=
  let n := nat_of_ascii c in
  ((9 <=? n) && (n <=? 13) || (n =? 32) || ((28 <=? n) && (n <=? 31))
   || (n =? 133) || (n =? 160))%nat.

Definition is_digit (c : ascii) : bool :=
  let n := nat_of_ascii c in ((48 <=? n) && (n <=? 57))%nat.

Fixpoint lstrip (s : string) : string :=
  match s with
  | String c s' => if is_space c then lstrip s' else s
  | EmptyString => EmptyString
  end.

Fixpoint rstrip (s : string) : string :=
  match s with
  | String c s' =>
    match rstrip s' with
    | EmptyString => if is_space c then EmptyString else String c EmptyString
    | r => String c r
    end
  | EmptyString => EmptyString
  end.

(** Every character of [s] passes the test [P]. *)
Fixpoint all (P : ascii -> bool) (s : string) : bool :=
  match s with
  | EmptyString => true
  | String c s' => P c && all P s'
  end.

(** [s.strip()] *)
Definition strip (s : string) : string := rstrip (lstrip s).

(** [str(n)] and [f"{n}"] for an [int]: decimal digits, [-] before a
    negative number. *)
Definition of_int (n : Z) : string := NilEmpty.string_of_int (Z.to_int n).

(** The digits of an integer literal: at least one digit, single
    underscores allowed between digits only. [prev] says that the previous
    character was a digit. *)
Fixpoint digits_ok (prev : bool) (s : string) : bool :=
  match s with
  | EmptyString => prev
  | String c s' =>
    if is_digit c then digits_ok true s'
    else if Ascii.eqb c "_" then prev && digits_ok false s'
    else false
  end.

Fixpoint remove_underscores (s : string) : string :=
  match s with
  | EmptyString => EmptyString
  | String c s' =>
    if Ascii.eqb c "_" then remove_underscores s' else String c (remove_underscores s')
  end.

(** [int(s)] in base 10: surrounding white space, an optional sign, then
    digits; anything else is a [ValueError]. *)
Definition to_int (s : string) : result Z :=
  let t := strip s in
  let '(negative, body) :=
    match t with
    | String "-" b => (true, b)
    | String "+" b => (false, b)
    | _ => (false, t)
    end in
  if digits_ok false body
  then match NilEmpty.uint_of_string (remove_underscores body) with
       | Some d => Ok (if negative then - Z.of_uint d else Z.of_uint d)
       | None => Raise ValueError
       end
  else Raise ValueError.

End Str.

(** ** [pathlib.Path], by its [parts] *)

Module Path.

(** A path is the list of its components, as [PurePath.parts] gives them;
    the first one is ["/"] for an absolute path. *)
Abbreviation t := (list string).

Definition is_component (c : string) : bool :=
  negb (String.eqb c "") && negb (String.eqb c ".").

(** [Path(s)]: split at the slashes, drop empty and [.] components. *)
Definition of_str (s : string) : t :=
  (if String.prefix "/" s then ["/"] else [])
  ++ List.filter is_component (Str.split_go "/" O None "" s).

Definition is_absolute (p : t) : bool :=
  match p with
  | c :: _ => String.eqb c "/"
  | [] => false
  end.

(** [p.name]: the last component, empty for the root and for [Path(".")]. *)
Definition name (p : t) : string :=
  if is_absolute p && (List.length p =? 1)%nat then "" else List.last p "".

(** [p.parent]: the root and [Path(".")] are their own parents. *)
Definition parent (p : t) : t :=
  if is_absolute p && (List.length p =? 1)%nat then p else List.removelast p.

(** The name of [p] holds no slash, as the name of every path made from a
    string does. *)
Definition plain_name (p : t) : Prop :=
  Str.all (fun c => negb (Ascii.eqb c "/")) (name p) = true.

(** [p / s] for a string [s] *)
Definition truediv (p : t) (s : string) : t :=
  let q := of_str s in
  if is_absolute q then q else p ++ q.

End Path.

(** ** [wikidata_rdf_converter.py] *)

Module RdfConverter.

(** Prefixes of the Wikibase RDF dump format. *)
Definition WIKIDATA_RDF_PREFIXES : gmap string string :=
  list_to_map [
    ("http://creativecommons.org/ns#", "cc");
    ("http://purl.org/dc/terms/", "dct");
    ("http://schema.org/", "schema");
    ("http://wikiba.se/ontology#", "wikibase");
    ("http://www.bigdata.com/queryHints#", "hint");
    ("http://www.bigdata.com/rdf#", "bd");
    ("http://www.opengis.net/ont/geosparql#", "geo");
    ("http://www.w3.org/1999/02/22-rdf-syntax-ns#", "rdf");
    ("http://www.w3.org/2000/01/rdf-schema#", "rdfs");
    ("http://www.w3.org/2001/XMLSchema#", "xsd");
    ("http://www.w3.org/2002/07/owl#", "owl");
    ("http://www.w3.org/2004/02/skos/core#", "skos");
    ("http://www.w3.org/ns/lemon/ontolex#", "ontolex");
    ("http://www.w3.org/ns/prov#", "prov");
    ("http://www.wikidata.org/entity/", "wd");
    ("http://www.wikidata.org/entity/statement/", "wds");
    ("http://www.wikidata.org/prop/", "p");
    ("http://www.wikidata.org/prop/direct-normalized/", "wdtn");
    ("http://www.wikidata.org/prop/direct/", "wdt");
    ("http://www.wikidata.org/prop/novalue/", "wdno");
    ("http://www.wikidata.org/prop/qualifier/", "pq");
    ("http://www.wikidata.org/prop/qualifier/value-normalized/", "pqn");
    ("http://www.wikidata.org/prop/qualifier/value/", "pqv");
    ("http://www.wikidata.org/prop/reference/", "pr");
    ("http://www.wikidata.org/prop/reference/value-normalized/", "prn");
    ("http://www.wikidata.org/prop/reference/value/", "prv");
    ("http://www.wikidata.org/prop/statement/", "ps");
    ("http://www.wikidata.org/prop/statement/value-normalized/", "psn");
    ("http://www.wikidata.org/prop/statement/value/", "psv");
    ("http://www.wikidata.org/reference/", "wdref");
    ("http://www.wikidata.org/value/", "wdv");
    ("http://www.wikidata.org/wiki/Special:EntityData/", "wdata")
  ].

(** [marisa_trie.Trie] (a library the converter imports): a static set of
    keys. [trie.prefixes(key)] lists the keys of the trie that are prefixes
    of [key], the shortest first. *)
Definition Trie_prefixes (trie : gset string) (key : string) : list string :=
  List.filter (fun p => bool_decide (p ∈ trie))
    ((fun n => Str.take n key) <$> seq 0 (S (String.length key))).

(** [Trie(WIKIDATA_RDF_PREFIXES.keys())] *)
Definition WIKIDATA_RDF_PREFIXES_TRIE : gset string := dom WIKIDATA_RDF_PREFIXES.

Record WikidataRdfTriple : Type := Triple {
  subject : string;
  predicate : string;
  object_ : string
}.

#[global] Instance WikidataRdfTriple_eq_dec : EqDecision WikidataRdfTriple.
Proof. solve_decision. Defined.

(** [WikidataRdfTriple.__eq__], for [other] a [WikidataRdfTriple] (the
    [isinstance] test of the source always succeeds at this type). *)
Definition __eq__ (self other : WikidataRdfTriple) : bool :=
  if String.eqb (Str.slice (object_ self) None (Some 2)) "_:"
     && String.eqb (Str.slice (object_ other) None (Some 2)) "_:"
  then String.eqb (subject self) (subject other)
       && String.eqb (predicate self) (predicate other)
  else String.eqb (subject self) (subject other)
       && String.eqb (predicate self) (predicate other)
       && String.eqb (object_ self) (object_ other).

(** [WikidataRdfTriple.__hash__]; [hash] is Python's builtin on a tuple of
    three strings, about which nothing is assumed. *)
Definition __hash__ (hash : string * string * string -> Z)
    (self : WikidataRdfTriple) : Z :=
  if String.eqb (Str.slice (object_ self) None (Some 2)) "_:"
  then hash (subject self, predicate self, "_:")
  else hash (subject self, predicate self, object_ self).

(** The tuple that [__hash__] hands to [hash]. *)
Definition hashed_tuple (self : WikidataRdfTriple) : string * string * string :=
  if String.eqb (Str.slice (object_ self) None (Some 2)) "_:"
  then (subject self, predicate self, "_:")
  else (subject self, predicate self, object_ self).

(** The order of named tuples, which [sorted] uses: [tuple.__lt__] compares
    the fields from left to right as strings ([__eq__] above plays no part
    in it). *)
Definition tuple_compare (a b : WikidataRdfTriple) : comparison :=
  match String.compare (subject a) (subject b) with
  | Eq =>
    match String.compare (predicate a) (predicate b) with
    | Eq => String.compare (object_ a) (object_ b)
    | c => c
    end
  | c => c
  end.

Definition __lt__ (self other : WikidataRdfTriple) : bool :=
  match tuple_compare self other with
  | Lt => true
  | _ => false
  end.

(** [WikidataRdfConverter._prefix_ntriples_uri] *)
Definition _prefix_ntriples_uri (uri : string) : result string :=
  first ← Str.getitem uri 0;
  if negb (String.eqb first "<") then Ok uri
  else
    let prefix_urls :=
      Trie_prefixes WIKIDATA_RDF_PREFIXES_TRIE (Str.slice uri (Some 1) (Some (-1))) in
    match prefix_urls with
    | _ :: _ =>
      let prefix_uri := List.last prefix_urls "" in
      match WIKIDATA_RDF_PREFIXES !! prefix_uri with
      | Some prefix =>
        Ok (prefix +:+ ":"
            +:+ Str.slice uri (Some (Str.len prefix_uri + 1)) (Some (-1)))
      | None => Raise KeyError
      end
    | [] => Ok uri
    end.

(** The call of the constructor [WikidataRdfTriple] on the unpacked
    [map] of [_prefix_ntriples_uri] over the parts: the parts are prefixed
    one after the other, then the constructor wants three of them. *)
Definition triple_of_parts (parts : list string) : result WikidataRdfTriple :=
  prefixed ← mapM _prefix_ntriples_uri parts;
  match prefixed with
  | [s; p; o] => Ok (Triple s p o)
  | _ => Raise TypeError
  end.

(** An opaque local identifier (a blank node label of the converter) is an
    object value that starts with the two characters [_:]. *)
Definition opaque_local_identifier (o : string) : Prop :=
  exists rest, o = "_:" +:+ rest.

(** The equivalence of triples as the specification words it. *)
Definition equivalent (t1 t2 : WikidataRdfTriple) : Prop :=
  subject t1 = subject t2 /\ predicate t1 = predicate t2 /\
  ((opaque_local_identifier (object_ t1) /\ opaque_local_identifier (object_ t2))
   \/ object_ t1 = object_ t2).

(** The test of the code, [uri[0] == "<"], on an argument that is not
    empty: the argument begins with [<]. *)
Definition begins_with_bracket (uri : string) : Prop := exists rest, uri = "<" +:+ rest.

(** [uri[1:-1]]: the argument without its first and its last character. *)
Definition inner (uri : string) : string :=
  Str.slice uri (Some 1) (Some (-1)).

(** The end of a line of N-Triples: a space, a dot and a line feed. *)
Definition triple_end : string := String " " (String "." (String (ascii_of_nat 10) "")).

(** [WikidataRdfConverter._parse_ntriples] *)
Definition _parse_ntriples (ntriples : string) : result (list WikidataRdfTriple) :=
  mapM (fun triple => triple_of_parts (Str.split_go " " O (Some 2%nat) "" triple))
    (List.filter (fun triple => negb (String.eqb triple ""))
       (Str.split_go triple_end O None "" ntriples)).

End RdfConverter.

(** ** The revision records *)

(** Modelled from the spec: [WikidataEntityMeta], [WikidataRevisionMeta]
    and [WikidataRevisionBase] are declared in wikidata_revision_base.py,
    which is not among the sources. Section 3 of the specification gives an
    entity its page id and title, and a revision its entity, revision id,
    timestamp and content-model tag; the sources read the fields
    [entity_id], [page_id], [revision_id] and [wikibase_model]. *)
Module WikidataEntityMeta.
Record t : Type := Make {
  entity_id : string;
  page_id : Z;
  title : string
}.
#[global] Instance eq_dec : EqDecision t.
Proof. solve_decision. Defined.
End WikidataEntityMeta.

Module WikidataRevisionMeta.
Record t : Type := Make {
  revision_id : Z;
  timestamp : Z;
  wikibase_model : string
}.
End WikidataRevisionMeta.

Module WikidataRawRevision.
Record t : Type := Make {
  entity : WikidataEntityMeta.t;
  revision : WikidataRevisionMeta.t;
  text : option string
}.
End WikidataRawRevision.

Module WikidataRdfRevision.
Record t : Type := Make {
  entity : WikidataEntityMeta.t;
  revision : WikidataRevisionMeta.t;
  triples : list RdfConverter.WikidataRdfTriple
}.
End WikidataRdfRevision.

Module WikidatedRevision.
Record t : Type := Make {
  entity : WikidataEntityMeta.t;
  revision : WikidataRevisionMeta.t;
  triple_deletions : list RdfConverter.WikidataRdfTriple;
  triple_additions : list RdfConverter.WikidataRdfTriple
}.
End WikidatedRevision.

(** ** Python sets of triples *)

Module TripleSet.
Import RdfConverter.

(** A [set] of triples finds a member through [__hash__] and [__eq__]; as
    triples that are [__eq__] have the same hash (see [eq_hash] below), a
    triple is in the set exactly when one member is [__eq__] to it. The set
    is modelled by the list of its members, of which no two are [__eq__].
    The order of the list stands for the order of iteration, which Python
    leaves open; every use below sorts the set first. *)
Abbreviation t := (list WikidataRdfTriple).

(** [x in s] *)
Definition contains (s : t) (x : WikidataRdfTriple) : bool :=
  existsb (fun y => __eq__ y x) s.

(** [s.add(x)]: an equal member stays, [x] is dropped. *)
Definition add (s : t) (x : WikidataRdfTriple) : t :=
  if contains s x then s else s ++ [x].

(** [set(iterable)] *)
Definition set_ (l : list WikidataRdfTriple) : t := fold_left add l [].

(** [a - b] *)
Definition difference (a b : t) : t :=
  List.filter (fun x => negb (contains b x)) a.

(** [a | b] *)
Definition union (a b : t) : t := fold_left add b a.

(** No two members of a set are [__eq__]: they have different
    [hashed_tuple]s. *)
Definition wf (s : t) : Prop := NoDup (hashed_tuple <$> s).

(** [a == b] on sets: as many members, and each one of [a] in [b]. *)
Definition eqb (a b : t) : bool :=
  (List.length a =? List.length b)%nat && forallb (contains b) a.

(** [not (y < x)], the order a stable sort by [<] leaves [x] before [y] in. *)
Definition not_after (x y : WikidataRdfTriple) : Prop := __lt__ y x = false.

#[global] Instance not_after_dec (x y : WikidataRdfTriple) : Decision (not_after x y).
Proof. unfold not_after. apply _. Defined.

(** [sorted(s)] *)
Definition sorted (s : t) : list WikidataRdfTriple := merge_sort not_after s.

End TripleSet.

(** ** The file system and the archive store *)

Module Fs.

(** The directories, and the archives by their paths. An archive maps the
    names of its member files to their contents. *)
Record t : Type := Make {
  dirs : gset (list string);
  files : gmap (list string) (gmap (list string) string)
}.

(** [p.exists()] *)
Definition exists_ (fs : t) (p : Path.t) : bool :=
  bool_decide (p ∈ dirs fs) || bool_decide (is_Some (files fs !! p)).

(** [p] and the directories above it, the topmost first. *)
Definition ancestors (p : Path.t) : list Path.t :=
  (fun n => List.firstn n p) <$> seq 1 (List.length p).

(** [p.mkdir(exist_ok=True, parents=True)]: an error when a file is in the
    way. *)
Definition mkdir (fs : t) (p : Path.t) : result t :=
  if existsb (fun q => bool_decide (is_Some (files fs !! q))) (ancestors p)
  then Raise OSError
  else Ok {| dirs := dirs fs ∪ list_to_set (ancestors p); files := files fs |}.

(** [src.rename(dst)] for a file [src]: [dst] is replaced in one step. *)
Definition rename (fs : t) (src dst : Path.t) : result t :=
  match files fs !! src with
  | None => Raise FileNotFoundError
  | Some archive =>
    if bool_decide (dst ∈ dirs fs) then Raise OSError
    else Ok {| dirs := dirs fs; files := <[dst := archive]> (delete src (files fs)) |}
  end.

(** Modelled from the spec: [SevenZipArchive] of wikidated._utils is not
    among the sources. Section 6 of the specification asks of the archive
    store a scoped write keyed by the member name within a container file.
    [write fs archive file_name content] is the file system once the scope
    of [SevenZipArchive(archive).write(file_name)] is left, [content] being
    all that was written to the member inside the scope; the container is
    created by the first write to it. *)
Definition write (fs : t) (archive file_name : Path.t) (content : string) : t :=
  {| dirs := dirs fs;
     files := <[archive := <[file_name := content]> (default ∅ (files fs !! archive))]>
                (files fs) |}.

(** Modelled from the spec: the enumeration of the member names of an
    archive ([SevenZipArchive.iter_file_names]), in the order of the
    archive. *)
Definition iter_file_names (fs : t) (archive : Path.t) : result (list Path.t) :=
  match files fs !! archive with
  | Some members => Ok (map_to_list members).*1
  | None => Raise FileNotFoundError
  end.

End Fs.

(** ** [wikidated_dataset.py] *)

Module Dataset.
Import RdfConverter.

(** [itertools.groupby(revisions, lambda revision: revision.entity)]: the
    runs of consecutive revisions of one entity, each with its entity. *)
Fixpoint groupby (revisions : list WikidataRawRevision.t)
    : list (WikidataEntityMeta.t * list WikidataRawRevision.t) :=
  match revisions with
  | [] => []
  | revision :: rest =>
    match groupby rest with
    | (key, group) :: groups =>
      if decide (WikidataRawRevision.entity revision = key)
      then (key, revision :: group) :: groups
      else (WikidataRawRevision.entity revision, [revision]) :: (key, group) :: groups
    | [] => [(WikidataRawRevision.entity revision, [revision])]
    end
  end.

(** [WikidatedEntityStreams._entity_file_name_from_page_id] *)
Definition _entity_file_name_from_page_id (entity_page_id : Z) : Path.t :=
  Path.of_str (Str.of_int entity_page_id +:+ ".jsonl").

(** [WikidatedEntityStreams._entity_page_id_from_file_name] *)
Definition _entity_page_id_from_file_name (entity_file_name : Path.t) : result Z :=
  Str.to_int (Str.slice (Path.name entity_file_name) None (Some (- Str.len ".jsonl"))).

(** A [_WikidatedStreamFile] of the partial kind: its path, its range of
    page ids ([start], [stop]) and the revisions that
    [_pages_meta_history.iter_revisions] yields. *)
Record _WikidatedEntityStreamsPartial : Type := Partial {
  _path : Path.t;
  _page_id_range : Z * Z;
  _pages_meta_history : list WikidataRawRevision.t
}.

(** [_WikidatedEntityStreamsPartial.__init__]; [page_id_range] is the range
    of the dump file [pages_meta_history], from [start] up to [stop]
    exclusive. *)
Definition Partial_init (dataset_dir : Path.t) (page_id_range : Z * Z)
    (pages_meta_history : list WikidataRawRevision.t)
    : _WikidatedEntityStreamsPartial :=
  Partial
    (Path.truediv dataset_dir
       (Path.name dataset_dir +:+ "-entity-streams"
        +:+ "-p" +:+ Str.of_int page_id_range.1
        +:+ "-p" +:+ Str.of_int (page_id_range.2 - 1) +:+ ".7z"))
    page_id_range pages_meta_history.

(** [WikidatedEntityStreams.iter_page_ids], the [assert] apart. *)
Definition iter_page_ids (path : Path.t) (fs : Fs.t) : result (list Z) :=
  entity_file_names ← Fs.iter_file_names fs path;
  mapM _entity_page_id_from_file_name entity_file_names.

Section Build.

(** The converter [rdf_converter(revision)]: the triples of the revision, or
    the exception raised. *)
Variable rdf_converter : WikidataRawRevision.t -> result WikidataRdfRevision.t.

(** [wikidated_revision.json()] *)
Variable json : WikidatedRevision.t -> string.

(** The loop of [_iter_wikidated_revisions], from the state [state] on. *)
Fixpoint iter_wikidated_revisions_from (state : TripleSet.t)
    (revisions : list WikidataRawRevision.t) : generated WikidatedRevision.t :=
  match revisions with
  | [] => Generated [] None
  | revision :: rest =>
    match rdf_converter revision with
    | Raise (WikidataRdfConversionError _) =>
      iter_wikidated_revisions_from state rest
    | Raise e => Generated [] (Some e)
    | Ok rdf_revision =>
      let triples_set := TripleSet.set_ (WikidataRdfRevision.triples rdf_revision) in
      let triple_deletions := TripleSet.sorted (TripleSet.difference state triples_set) in
      let triple_additions := TripleSet.sorted (TripleSet.difference triples_set state) in
      let later := iter_wikidated_revisions_from triples_set rest in
      Generated
        (WikidatedRevision.Make
           (WikidataRawRevision.entity revision)
           (WikidataRawRevision.revision revision)
           triple_deletions triple_additions
         :: yielded later)
        (raised later)
    end
  end.

(** [_WikidatedEntityStreamsPartial._iter_wikidated_revisions] *)
Definition _iter_wikidated_revisions (revisions : list WikidataRawRevision.t)
    : generated WikidatedRevision.t :=
  iter_wikidated_revisions_from [] revisions.

(** What is written to the member file of an entity: a line for each
    revision. *)
Definition member_content (wikidated_revisions : list WikidatedRevision.t) : string :=
  String.concat ""
    ((fun r => json r +:+ String (ascii_of_nat 10) "") <$> wikidated_revisions).

(** The body of the loop of [build] over the entities. *)
Definition build_entity (tmp_path : Path.t) (fs : Fs.t)
    (entity_meta : WikidataEntityMeta.t) (revisions : list WikidataRawRevision.t)
    : generated WikidatedRevision.t * Fs.t :=
  let wikidated_revisions := _iter_wikidated_revisions revisions in
  match yielded wikidated_revisions with
  | [] => (wikidated_revisions, fs)
  | _ :: _ =>
    (wikidated_revisions,
     Fs.write fs tmp_path
       (_entity_file_name_from_page_id (WikidataEntityMeta.page_id entity_meta))
       (member_content (yielded wikidated_revisions)))
  end.

(** The loop of [build] over the entities. *)
Fixpoint build_entities (tmp_path : Path.t) (fs : Fs.t)
    (groups : list (WikidataEntityMeta.t * list WikidataRawRevision.t))
    : generated WikidatedRevision.t * Fs.t :=
  match groups with
  | [] => (Generated [] None, fs)
  | (entity_meta, revisions) :: rest =>
    let '(here, fs1) := build_entity tmp_path fs entity_meta revisions in
    match raised here with
    | Some _ => (here, fs1)
    | None =>
      let '(later, fs2) := build_entities tmp_path fs1 rest in
      (Generated (yielded here ++ yielded later) (raised later), fs2)
    end
  end.

(** [tmp_path] of [build] *)
Definition tmp_path_of (path : Path.t) : Path.t :=
  Path.truediv (Path.parent path) ("tmp." +:+ Path.name path).

(** [_WikidatedEntityStreamsPartial.build], run until the generator stops:
    what it yielded, the exception that stopped it, and the file system
    it leaves. *)
Definition build (self : _WikidatedEntityStreamsPartial) (fs : Fs.t)
    : generated WikidatedRevision.t * Fs.t :=
  if Fs.exists_ fs (_path self) then (Generated [] None, fs)
  else
    let tmp_path := tmp_path_of (_path self) in
    match Fs.mkdir fs (Path.parent tmp_path) with
    | Raise e => (Generated [] (Some e), fs)
    | Ok fs1 =>
      let '(out, fs2) :=
        build_entities tmp_path fs1 (groupby (_pages_meta_history self)) in
      match raised out with
      | Some _ => (out, fs2)
      | None =>
        match Fs.rename fs2 tmp_path (_path self) with
        | Ok fs3 => (out, fs3)
        | Raise e => (Generated (yielded out) (Some e), fs2)
        end
      end
    end.

End Build.

(** A [_WikidataEntityStreamsMerged]: its path and the partial streams it
    is to be merged from. *)
Record _WikidataEntityStreamsMerged : Type := Merged {
  merged_path : Path.t;
  _entity_streams_partials : list _WikidatedEntityStreamsPartial
}.

(** [_WikidataEntityStreamsMerged.__init__] *)
Definition Merged_init (dataset_dir : Path.t)
    (entity_streams_partials : list _WikidatedEntityStreamsPartial)
    : _WikidataEntityStreamsMerged :=
  Merged (Path.truediv dataset_dir (Path.name dataset_dir +:+ "-entity-streams.7z"))
    entity_streams_partials.

(** [_WikidataEntityStreamsMerged.build]: the result, and the file system
    it leaves. *)
Definition merged_build (self : _WikidataEntityStreamsMerged) (fs : Fs.t)
    : result unit * Fs.t :=
  (Raise NotImplementedError, fs).

End Dataset.

(** ** The running state of the diff, as the specification words it *)

Module DiffSpec.

(** The active state before revision [i] of a sequence of converted
    revisions when the state before the first one is [state0]: after a
    revision the state is the set of its triples. *)
Definition state_before (state0 : TripleSet.t)
    (rdf_revisions : list WikidataRdfRevision.t) (i : nat) : TripleSet.t :=
  match i with
  | O => state0
  | S j =>
    from_option (fun r => TripleSet.set_ (WikidataRdfRevision.triples r)) []
      (rdf_revisions !! j)
  end.

(** The active state starts empty. *)
Definition active_state (rdf_revisions : list WikidataRdfRevision.t) (i : nat)
    : TripleSet.t :=
  state_before [] rdf_revisions i.

(** What the diff of a revision with the triples [triples] against the
    state [state] is to be. *)
Definition diff_of (state : TripleSet.t) (revision : WikidataRawRevision.t)
    (rdf_revision : WikidataRdfRevision.t) (d : WikidatedRevision.t) : Prop :=
  WikidatedRevision.entity d = WikidataRawRevision.entity revision
  /\ WikidatedRevision.revision d = WikidataRawRevision.revision revision
  /\ WikidatedRevision.triple_additions d =
     TripleSet.sorted
       (TripleSet.difference
          (TripleSet.set_ (WikidataRdfRevision.triples rdf_revision)) state)
  /\ WikidatedRevision.triple_deletions d =
     TripleSet.sorted
       (TripleSet.difference state
          (TripleSet.set_ (WikidataRdfRevision.triples rdf_revision))).


End DiffSpec.

(** ** The prefix operation, as the specification words it *)

Module PrefixSpec.
Import RdfConverter.

(** The argument is delimited as a URI: it is the URI [body] between the
    delimiters [<] and [>]. *)
Definition delimited_as_uri (uri body : string) : Prop :=
  uri = "<" +:+ body +:+ ">".

Definition is_delimited (uri : string) : Prop :=
  exists body, delimited_as_uri uri body.

(** The arguments the operation is made for: those delimited as a URI, and
    those that do not begin with the opening delimiter. The source notes
    that an argument that starts with [<] also ends with [>]. *)
Definition in_scope (uri : string) : Prop :=
  is_delimited uri \/ ~ begins_with_bracket uri.

(** [p] is the longest registered prefix of the URI [body], and [code] is
    the shortcode it is registered with. *)
Definition longest_registered_prefix (body p code : string) : Prop :=
  WIKIDATA_RDF_PREFIXES !! p = Some code
  /\ String.prefix p body = true
  /\ forall q, is_Some (WIKIDATA_RDF_PREFIXES !! q) ->
                String.prefix q body = true ->
                (String.length q <= String.length p)%nat.

(** No registered prefix is a prefix of the URI [body]. *)
Definition no_registered_prefix (body : string) : Prop :=
  forall q, is_Some (WIKIDATA_RDF_PREFIXES !! q) -> String.prefix q body = false.

End PrefixSpec.

(** ** Further definitions *)

Module RdfText.
Import RdfConverter.

(** A shortcode is well formed when it is not empty and holds neither a
    colon nor an angle bracket. *)
Definition shortcode_ok (code : string) : bool :=
  Str.all (fun c => negb (Ascii.eqb c ":") && negb (Ascii.eqb c "<")) code
  && negb (String.eqb code "").

(** [WikidataRdfTriple.__str__] *)
Definition __str__ (self : WikidataRdfTriple) : string :=
  subject self +:+ " " +:+ predicate self +:+ " " +:+ object_ self +:+ " .".

(** The N-Triples text of a list of triples: each triple as [__str__] prints
    it, and a line feed. The script wikidata_extract_rdf.py writes the same
    text, with [" ".join(triple) + " .\n"]. *)
Definition ntriples_of (triples : list WikidataRdfTriple) : string :=
  String.concat "" ((fun t => __str__ t +:+ String (ascii_of_nat 10) "") <$> triples).

(** [sep in s] *)
Fixpoint occurs (sep s : string) : bool :=
  String.prefix sep s
  || match s with
     | EmptyString => false
     | String _ s' => occurs sep s'
     end.

(** A triple that comes back from its text: prefixing changes none of its
    fields (as is the case for what prefixing has returned), subject and
    predicate hold no space, and the end of a line of N-Triples does not
    occur inside the fields, between which single spaces stand. *)
Definition printable (t : WikidataRdfTriple) : Prop :=
  _prefix_ntriples_uri (subject t) = Ok (subject t)
  /\ _prefix_ntriples_uri (predicate t) = Ok (predicate t)
  /\ _prefix_ntriples_uri (object_ t) = Ok (object_ t)
  /\ Str.all (fun c => negb (Ascii.eqb c " ")) (subject t) = true
  /\ Str.all (fun c => negb (Ascii.eqb c " ")) (predicate t) = true
  /\ occurs triple_end
       (subject t +:+ " " +:+ predicate t +:+ " " +:+ object_ t) = false.

End RdfText.

(** ** Sample data *)

Module Examples.
Import RdfConverter Dataset.

(** A literal that holds a space, a dot and a line feed, between two double
    quotes: the text of [<s> <p> "a .\n b" .\n]. *)
Definition broken_literal : string :=
  "<s> <p> " +:+ String (ascii_of_nat 34) "a" +:+ triple_end
  +:+ " b" +:+ String (ascii_of_nat 34) "" +:+ triple_end.

(** A stand-in for the converter: a revision without text is a conversion
    error, as in [_load_wdtk_document]; the text of the others is taken to be
    N-Triples already and goes through [_parse_ntriples], whose exceptions
    are not conversion errors. *)
Definition converter (revision : WikidataRawRevision.t)
    : result WikidataRdfRevision.t :=
  match WikidataRawRevision.text revision with
  | None => Raise (WikidataRdfConversionError "Entity has not text.")
  | Some text =>
    triples ← _parse_ntriples text;
    Ok (WikidataRdfRevision.Make
          (WikidataRawRevision.entity revision)
          (WikidataRawRevision.revision revision) triples)
  end.

(** A stand-in for [json()]: the revision id. *)
Definition json (d : WikidatedRevision.t) : string :=
  Str.of_int (WikidataRevisionMeta.revision_id (WikidatedRevision.revision d)).

Definition Q1 : WikidataEntityMeta.t := WikidataEntityMeta.Make "Q1" 1 "Q1".
Definition Q2 : WikidataEntityMeta.t := WikidataEntityMeta.Make "Q2" 2 "Q2".
Definition Q3 : WikidataEntityMeta.t := WikidataEntityMeta.Make "Q3" 3 "Q3".

Definition meta (revision_id : Z) : WikidataRevisionMeta.t :=
  WikidataRevisionMeta.Make revision_id (1600000000 + revision_id) "wikibase-item".

Definition A : WikidataRdfTriple := Triple "wd:Q1" "wdt:P31" "wd:Q5".
Definition B : WikidataRdfTriple := Triple "wd:Q1" "p:P569" "_:node1".
Definition B' : WikidataRdfTriple := Triple "wd:Q1" "p:P569" "_:node2".
Definition C : WikidataRdfTriple := Triple "wd:Q1" "wdt:P21" "wd:Q6581097".

(** [str(triple)] and the end of the line *)
Definition line (t : WikidataRdfTriple) : string :=
  subject t +:+ " " +:+ predicate t +:+ " " +:+ object_ t +:+ triple_end.

(** Three revisions of [Q1] with the triples [A, B], then [A, B', C], then
    [B, C], and between the last two a revision without text. [B] and [B']
    differ in the label of their blank node only. *)
Definition r10 : WikidataRawRevision.t :=
  WikidataRawRevision.Make Q1 (meta 10) (Some (line A +:+ line B)).
Definition r11 : WikidataRawRevision.t :=
  WikidataRawRevision.Make Q1 (meta 11) (Some (line A +:+ line B' +:+ line C)).
Definition r12 : WikidataRawRevision.t :=
  WikidataRawRevision.Make Q1 (meta 12) None.
Definition r13 : WikidataRawRevision.t :=
  WikidataRawRevision.Make Q1 (meta 13) (Some (line B +:+ line C)).

(** A page that is no entity, and an entity whose text breaks the parser. *)
Definition r20 : WikidataRawRevision.t :=
  WikidataRawRevision.Make Q2 (meta 20) None.
Definition r30 : WikidataRawRevision.t :=
  WikidataRawRevision.Make Q3 (meta 30) (Some broken_literal).

Definition converted : list WikidataRdfRevision.t :=
  [ WikidataRdfRevision.Make Q1 (meta 10) [A; B];
    WikidataRdfRevision.Make Q1 (meta 11) [A; B'; C];
    WikidataRdfRevision.Make Q1 (meta 13) [B; C] ].

Definition diffs : list WikidatedRevision.t :=
  [ WikidatedRevision.Make Q1 (meta 10) [] [B; A];
    WikidatedRevision.Make Q1 (meta 11) [] [C];
    WikidatedRevision.Make Q1 (meta 13) [A] [] ].

Definition dataset_dir : Path.t := ["data"; "wikidated-custom-20210601"].

(** A partition that builds, one that breaks at [Q3], and two partitions of
    disjoint ranges. *)
Definition partial_1_100 : _WikidatedEntityStreamsPartial :=
  Partial_init dataset_dir (1, 101) [r10; r11; r12; r13; r20].
Definition partial_broken : _WikidatedEntityStreamsPartial :=
  Partial_init dataset_dir (1, 101) [r10; r30].
Definition partial_0_99 : _WikidatedEntityStreamsPartial :=
  Partial_init dataset_dir (0, 100) [].
Definition partial_100_199 : _WikidatedEntityStreamsPartial :=
  Partial_init dataset_dir (100, 200) [].

Definition empty_fs : Fs.t := Fs.Make ∅ ∅.

(** A file system with the archives of the two disjoint partitions, of one
    member each. *)
Definition partitioned_fs : Fs.t :=
  Fs.write
    (Fs.write empty_fs (_path partial_0_99) (_entity_file_name_from_page_id 5) "1")
    (_path partial_100_199) (_entity_file_name_from_page_id 150) "2".

Definition merged : _WikidataEntityStreamsMerged :=
  Merged_init dataset_dir [partial_0_99; partial_100_199].

End Examples.

(** ** Replaying diffs *)

Module Replay.
Import RdfConverter Dataset.

(** What a consumer of the diffs does with one of them: the additions are
    put into the set, then the deletions are taken out. *)
Definition apply_diff (state : TripleSet.t) (d : WikidatedRevision.t) : TripleSet.t :=
  TripleSet.difference
    (TripleSet.union state (WikidatedRevision.triple_additions d))
    (WikidatedRevision.triple_deletions d).

(** The diffs applied one after the other, to the empty set first. *)
Definition apply_diffs (diffs : list WikidatedRevision.t) : TripleSet.t :=
  fold_left apply_diff diffs [].

(** The variable [state] of [_iter_wikidated_revisions] when the loop has
    gone through [revisions], or has been stopped by an exception. *)
Fixpoint state_after
    (rdf_converter : WikidataRawRevision.t -> result WikidataRdfRevision.t)
    (state : TripleSet.t) (revisions : list WikidataRawRevision.t) : TripleSet.t :=
  match revisions with
  | [] => state
  | revision :: rest =>
    match rdf_converter revision with
    | Raise (WikidataRdfConversionError _) => state_after rdf_converter state rest
    | Raise _ => state
    | Ok rdf_revision =>
      state_after rdf_converter
        (TripleSet.set_ (WikidataRdfRevision.triples rdf_revision)) rest
    end
  end.

(** The conversion of the revision fails with a conversion error. *)
Definition conversion_fails
    (rdf_converter : WikidataRawRevision.t -> result WikidataRdfRevision.t)
    (r : WikidataRawRevision.t) : Prop :=
  exists reason, rdf_converter r = Raise (WikidataRdfConversionError reason).

End Replay.

(** ** Reading the archive *)

Module Reader.
Import Dataset.

(** Modelled from the spec: [SevenZipArchive.read] of wikidated._utils is
    not among the sources. Section 6 of the specification asks of the
    archive store a scoped read of a named member, and section 4.4 says that
    reading fails when the member is absent. [read fs archive file_name] is
    the text of the member; the exception of the failure is taken to be
    [FileNotFoundError]. *)
Definition read (fs : Fs.t) (archive file_name : Path.t) : result string :=
  match Fs.files fs !! archive with
  | Some members =>
    match members !! file_name with
    | Some content => Ok content
    | None => Raise FileNotFoundError
    end
  | None => Raise FileNotFoundError
  end.

(** [for line in fd] on a text without carriage returns: the lines, each
    with its line feed; the last one has none when the text does not end in
    one. [cur] is the part of the line gone through. *)
Fixpoint lines_from (cur s : string) : list string :=
  match s with
  | EmptyString => if String.eqb cur "" then [] else [cur]
  | String c s' =>
    if Ascii.eqb c (ascii_of_nat 10)
    then (cur +:+ String c "") :: lines_from "" s'
    else lines_from (cur +:+ String c "") s'
  end.

Definition lines (s : string) : list string := lines_from "" s.

(** The generator [for x in xs: yield f(x)], run until it stops. *)
Fixpoint yield_each {A B : Type} (f : A -> result B) (xs : list A) : generated B :=
  match xs with
  | [] => Generated [] None
  | x :: rest =>
    match f x with
    | Raise e => Generated [] (Some e)
    | Ok y =>
      let later := yield_each f rest in
      Generated (y :: yielded later) (raised later)
    end
  end.

(** [WikidatedEntityStreams.iter_revisions], run until the generator stops;
    [parse_raw] is [WikidatedRevision.parse_raw]. *)
Definition iter_revisions (parse_raw : string -> result WikidatedRevision.t)
    (path : Path.t) (entity_page_id : Z) (fs : Fs.t)
    : generated WikidatedRevision.t :=
  match read fs path (_entity_file_name_from_page_id entity_page_id) with
  | Raise e => Generated [] (Some e)
  | Ok content => yield_each parse_raw (lines content)
  end.

(** The groups are groups of revisions of their entities, as those of
    [groupby] are. *)
Definition grouped
    (groups : list (WikidataEntityMeta.t * list WikidataRawRevision.t)) : Prop :=
  Forall (fun kg => Forall (fun r => WikidataRawRevision.entity r = kg.1) kg.2) groups.

(** The diffs of the page with the id [n] among [diffs]. *)
Definition of_page (n : Z) (diffs : list WikidatedRevision.t)
    : list WikidatedRevision.t :=
  List.filter
    (fun d => WikidataEntityMeta.page_id (WikidatedRevision.entity d) =? n) diffs.

(** The text holds no line feed and no carriage return. *)
Definition one_line (s : string) : bool :=
  Str.all (fun c => negb (Ascii.eqb c (ascii_of_nat 10))
                    && negb (Ascii.eqb c (ascii_of_nat 13))) s.

End Reader.

(** ** The parallel build *)

Module Orchestrator.
Import Dataset.

(** [len(range(start, stop))] *)
Definition range_len (page_id_range : Z * Z) : Z :=
  Z.max 0 (page_id_range.2 - page_id_range.1).

(** [WikidatedDataset._build_entity_streams_partial], the [assert]s apart:
    the calls of [update_progress] in their order, each with its three
    arguments, the exception that ended the call if there is one, and the
    file system it leaves. *)
Definition _build_entity_streams_partial
    (rdf_converter : WikidataRawRevision.t -> result WikidataRdfRevision.t)
    (json : WikidatedRevision.t -> string)
    (argument : _WikidatedEntityStreamsPartial) (fs : Fs.t)
    : list (string * Z * Z) * option exception * Fs.t :=
  let name := Path.name (_path argument) in
  let page_id_range := _page_id_range argument in
  let built := build rdf_converter json argument fs in
  let first := (name, 0, range_len page_id_range) in
  let during :=
    (fun revision =>
       (name,
        WikidataEntityMeta.page_id (WikidatedRevision.entity revision)
        - page_id_range.1,
        range_len page_id_range)) <$> yielded built.1 in
  match raised built.1 with
  | Some e => (first :: during, Some e, built.2)
  | None =>
    (first :: during ++ [(name, range_len page_id_range, range_len page_id_range)],
     None, built.2)
  end.

(** [WikidatedDataset.build]. [pool fs] stands for the loop over
    [parallelize(...)] with [reraise_exceptions=True], which is not among
    the sources: the exception that came out of it, if any, and the file
    system it leaves. *)
Definition dataset_build (pool : Fs.t -> option exception * Fs.t)
    (_entity_streams_merged : _WikidataEntityStreamsMerged)
    (entity_streams global_stream : bool) (fs : Fs.t) : result unit * Fs.t :=
  let after_entity_streams :=
    if entity_streams then
      match pool fs with
      | (Some e, fs1) => (Raise e, fs1)
      | (None, fs1) => merged_build _entity_streams_merged fs1
      end
    else (Ok tt, fs) in
  match after_entity_streams with
  | (Raise e, fs2) => (Raise e, fs2)
  | (Ok _, fs2) =>
    if global_stream then (Raise NotImplementedError, fs2) else (Ok tt, fs2)
  end.

End Orchestrator.

(** ** More sample data *)

Module Samples.
Import RdfConverter.

(** A triple whose object is a literal of two lines with spaces and a dot. *)
Definition two_lines : WikidataRdfTriple :=
  Triple "wd:Q34299" "wdt:P1705"
    ("first line." +:+ String (ascii_of_nat 10) "second line . @sah").

(** A revision of [Q1] with the triples of [r13] in another order and with
    another label of the blank node. *)
Definition r14 : WikidataRawRevision.t :=
  WikidataRawRevision.Make Examples.Q1 (Examples.meta 14)
    (Some (Examples.line Examples.C +:+ Examples.line Examples.B')).



(** A stand-in for [parse_raw] that knows the lines of the sample diffs. *)
Definition parse_raw (line : string) : result WikidatedRevision.t :=
  match
    List.find
      (fun d => String.eqb line (Examples.json d +:+ String (ascii_of_nat 10) ""))
      Examples.diffs
  with
  | Some d => Ok d
  | None => Raise ValueError
  end.

End Samples.

(** * Properties *)

(** ** Slices *)

Module StrFacts.
Import Str.

Lemma app_cons (c : ascii) (s t : string) :
  String c s +:+ t = String c (s +:+ t).
Proof. reflexivity. Qed.

Lemma take_app (s t : string) : take (String.length s) (s +:+ t) = s.
Proof.
  induction s as [|c s IH]; [by destruct t|].
  rewrite app_cons. simpl. by rewrite IH.
Qed.

Lemma drop_app (s t : string) : drop (String.length s) (s +:+ t) = t.
Proof. induction s as [|c s IH]; [by destruct t|]. by rewrite app_cons. Qed.

Lemma length_app (s t : string) :
  String.length (s +:+ t) = (String.length s + String.length t)%nat.
Proof.
  induction s as [|c s IH]; [done|]. rewrite app_cons. simpl. by rewrite IH.
Qed.

Lemma app_assoc (s t u : string) : (s +:+ t) +:+ u = s +:+ (t +:+ u).
Proof. induction s as [|c s IH]; [done|]. by rewrite !app_cons, IH. Qed.

Lemma app_nil_r (s : string) : s +:+ "" = s.
Proof. induction s as [|c s IH]; [done|]. by rewrite app_cons, IH. Qed.

Lemma take_drop (n : nat) (s : string) : take n s +:+ drop n s = s.
Proof.
  revert s; induction n as [|n IH]; intros [|c s]; simpl; try done.
  by rewrite app_cons, IH.
Qed.

Lemma prefix_app (p s : string) :
  String.prefix p s = true <-> exists r, s = p +:+ r.
Proof.
  revert s; induction p as [|c p IH]; intros s; simpl.
  - split; [intros _; by exists s | intros _; by destruct s].
  - destruct s as [|d s]; simpl.
    + split; [done | intros [r Hr]; discriminate].
    + destruct (Ascii.ascii_dec c d) as [->|Hne].
      * rewrite IH. split; intros [r Hr]; exists r; [by rewrite Hr |].
        rewrite app_cons in Hr. congruence.
      * split; [done | intros [r Hr]].
        rewrite app_cons in Hr. congruence.
Qed.

Lemma length_take (n : nat) (s : string) :
  String.length (take n s) = Nat.min n (String.length s).
Proof.
  revert s; induction n as [|n IH]; intros [|c s]; simpl; try done.
  by rewrite IH.
Qed.

Lemma take_min (n : nat) (s : string) :
  take (Nat.min n (String.length s)) s = take n s.
Proof.
  revert s; induction n as [|n IH]; intros [|c s]; simpl; try done.
  by rewrite IH.
Qed.

Lemma take_ge (n : nat) (s : string) :
  (String.length s <= n)%nat -> take n s = s.
Proof.
  revert s; induction n as [|n IH]; intros [|c s]; simpl; try done; try lia.
  intros H. rewrite IH; [done | lia].
Qed.

Lemma drop_ge (n : nat) (s : string) :
  (String.length s <= n)%nat -> drop n s = "".
Proof.
  revert s; induction n as [|n IH]; intros [|c s]; simpl; try done; try lia.
  intros H. apply IH. lia.
Qed.

Lemma drop_drop (n m : nat) (s : string) : drop n (drop m s) = drop (m + n) s.
Proof.
  revert s; induction m as [|m IH]; intros s; simpl; [done|].
  destruct s as [|c s]; [by destruct n | apply IH].
Qed.

Lemma drop_take (k n : nat) (s : string) :
  drop k (take n s) = take (n - k) (drop k s).
Proof.
  revert n s; induction k as [|k IH]; intros n s; simpl.
  - by rewrite Nat.sub_0_r.
  - destruct n as [|n], s as [|c s]; simpl; try done.
    by destruct (n - k)%nat.
Qed.

(** [s[:k]] *)
Lemma slice_to (s : string) (k : nat) :
  slice s None (Some (Z.of_nat k)) = take k s.
Proof.
  unfold slice, clip, len; simpl.
  destruct (Z.ltb_spec (Z.of_nat k) 0) as [?|_]; [lia|].
  rewrite Z.sub_0_r, <- Nat2Z.inj_min, Nat2Z.id. apply take_min.
Qed.

(** [s[a:-1]] *)
Lemma slice_from_to_last (s : string) (a : nat) :
  slice s (Some (Z.of_nat a)) (Some (-1)) =
  take (String.length s - 1 - a) (drop a s).
Proof.
  unfold slice, clip, len; simpl.
  destruct (Z.ltb_spec (Z.of_nat a) 0) as [?|_]; [lia|].
  destruct (Nat.le_gt_cases a (String.length s)) as [Hle|Hgt].
  - rewrite Z.min_l by lia. rewrite Nat2Z.id. f_equal. lia.
  - rewrite Z.min_r by lia. rewrite Nat2Z.id.
    rewrite !drop_ge by lia. by destruct (Z.to_nat _), (_ - _)%nat.
Qed.

(** [s[a:-1]] is [s[1:-1]] without its first [a - 1] characters. *)
Lemma slice_later_start (s : string) (k : nat) :
  slice s (Some (Z.of_nat k + 1)) (Some (-1)) =
  drop k (slice s (Some 1) (Some (-1))).
Proof.
  replace (Z.of_nat k + 1) with (Z.of_nat (1 + k)) by lia.
  change (Some 1) with (Some (Z.of_nat 1)).
  rewrite !slice_from_to_last, drop_take, drop_drop.
  f_equal. lia.
Qed.

Lemma slice_2_marker (o : string) :
  String.eqb (slice o None (Some 2)) "_:" = true <->
  RdfConverter.opaque_local_identifier o.
Proof.
  change 2 with (Z.of_nat 2). rewrite slice_to, String.eqb_eq.
  unfold RdfConverter.opaque_local_identifier. split.
  - intros H. exists (drop 2 o). by rewrite <- H, take_drop.
  - intros [rest ->]. apply (take_app "_:").
Qed.

(** [s[:-k]] for a positive [k] *)
Lemma slice_to_neg (s : string) (k : nat) :
  (0 < k)%nat ->
  slice s None (Some (- Z.of_nat k)) = take (String.length s - k) s.
Proof.
  intros Hk. unfold slice, clip, len; simpl.
  destruct (Z.ltb_spec (- Z.of_nat k) 0) as [_|?]; [|lia].
  rewrite Z.sub_0_r. f_equal. lia.
Qed.

(** [(s + suffix)[:-len(suffix)]] for a suffix that is not empty *)
Lemma slice_off_suffix (s suffix : string) :
  suffix <> "" ->
  slice (s +:+ suffix) None (Some (- len suffix)) = s.
Proof.
  intros Hne. unfold len. rewrite slice_to_neg.
  - rewrite length_app.
    replace (String.length s + String.length suffix - String.length suffix)%nat
      with (String.length s) by lia.
    apply take_app.
  - destruct suffix; [done | simpl; lia].
Qed.

End StrFacts.

(** ** The equality and the hash of triples *)

Module TripleFacts.
Import RdfConverter.

(** The test on [object_[:2]] decides [opaque_local_identifier]. *)
Lemma marker_reflect (o : string) :
  reflect (opaque_local_identifier o)
    (String.eqb (Str.slice o None (Some 2)) "_:").
Proof. apply iff_reflect. symmetry. apply StrFacts.slice_2_marker. Qed.

Lemma marker_opaque : opaque_local_identifier "_:".
Proof. by exists "". Qed.

Lemma eq_equivalent (t1 t2 : WikidataRdfTriple) :
  __eq__ t1 t2 = true <-> equivalent t1 t2.
Proof.
  unfold __eq__, equivalent.
  destruct (marker_reflect (object_ t1)) as [H1|H1],
           (marker_reflect (object_ t2)) as [H2|H2]; simpl;
    rewrite ?andb_true_iff, !String.eqb_eq; intuition congruence.
Qed.

Lemma tuple3_eq (a b c a' b' c' : string) :
  (a, b, c) = (a', b', c') <-> a = a' /\ b = b' /\ c = c'.
Proof. split; [by intros [= -> -> ->] | by intros (-> & -> & ->)]. Qed.

Lemma hashed_tuple_equivalent (t1 t2 : WikidataRdfTriple) :
  hashed_tuple t1 = hashed_tuple t2 <-> equivalent t1 t2.
Proof.
  unfold hashed_tuple, equivalent.
  pose proof marker_opaque as Hm.
  destruct (marker_reflect (object_ t1)) as [H1|H1],
           (marker_reflect (object_ t2)) as [H2|H2];
    rewrite tuple3_eq.
  - intuition.
  - split.
    + intros (_ & _ & Ho). by rewrite <- Ho in H2.
    + intros (_ & _ & [[_ ?]|Ho]); [done | by rewrite Ho in H1].
  - split.
    + intros (_ & _ & Ho). by rewrite Ho in H1.
    + intros (_ & _ & [[? _]|Ho]); [done | by rewrite <- Ho in H2].
  - intuition.
Qed.

Lemma hash_hashed_tuple (hash : string * string * string -> Z)
    (t : WikidataRdfTriple) :
  __hash__ hash t = hash (hashed_tuple t).
Proof. unfold __hash__, hashed_tuple. by destruct (String.eqb _ _). Qed.

(** Triples that are [__eq__] have the same hash, whatever [hash] is. *)
Lemma eq_hash (hash : string * string * string -> Z) (t1 t2 : WikidataRdfTriple) :
  __eq__ t1 t2 = true -> __hash__ hash t1 = __hash__ hash t2.
Proof.
  rewrite eq_equivalent, <- hashed_tuple_equivalent, !hash_hashed_tuple.
  by intros ->.
Qed.

Lemma eq_refl (t : WikidataRdfTriple) : __eq__ t t = true.
Proof. apply eq_equivalent. unfold equivalent. auto. Qed.

Lemma eq_sym (t1 t2 : WikidataRdfTriple) : __eq__ t1 t2 = __eq__ t2 t1.
Proof.
  apply eq_true_iff_eq. rewrite !eq_equivalent. unfold equivalent.
  intuition congruence.
Qed.

Lemma eq_trans (t1 t2 t3 : WikidataRdfTriple) :
  __eq__ t1 t2 = true -> __eq__ t2 t3 = true -> __eq__ t1 t3 = true.
Proof.
  rewrite !eq_equivalent, <- !hashed_tuple_equivalent. congruence.
Qed.

(** [__eq__] does not tell apart triples that are [__eq__]. *)
Lemma eq_compat (t1 t2 u : WikidataRdfTriple) :
  __eq__ t1 t2 = true -> __eq__ u t1 = __eq__ u t2.
Proof.
  intros H. apply eq_true_iff_eq. split; intros Hu.
  - by apply eq_trans with t1.
  - apply eq_trans with t2; [done|]. by rewrite eq_sym.
Qed.

(** C2. Two triples are equal for [__eq__] exactly when their subjects and
    predicates are equal and either both objects start with the marker [_:]
    or the objects are equal; [__hash__] hashes the same tuple for two triples
    exactly in that case, so equal triples have equal hashes, whatever the
    hash function. In particular two triples with the same subject and
    predicate whose objects are both opaque local identifiers are equal and
    have the same hash, and triples whose subjects or predicates differ are
    not equal. *)
Theorem triple_eq_hash_equivalence
    (hash : string * string * string -> Z) (t1 t2 : WikidataRdfTriple) :
  (__eq__ t1 t2 = true <-> equivalent t1 t2)
  /\ (hashed_tuple t1 = hashed_tuple t2 <-> equivalent t1 t2)
  /\ (equivalent t1 t2 -> __hash__ hash t1 = __hash__ hash t2)
  /\ (subject t1 = subject t2 -> predicate t1 = predicate t2 ->
      opaque_local_identifier (object_ t1) ->
      opaque_local_identifier (object_ t2) ->
      __eq__ t1 t2 = true /\ __hash__ hash t1 = __hash__ hash t2)
  /\ (subject t1 <> subject t2 \/ predicate t1 <> predicate t2 ->
      __eq__ t1 t2 = false).
Proof.
  split; [apply eq_equivalent|].
  split; [apply hashed_tuple_equivalent|].
  split; [intros H; by apply eq_hash, eq_equivalent|].
  split.
  - intros Hs Hp H1 H2.
    assert (__eq__ t1 t2 = true) as Heq
      by (apply eq_equivalent; unfold equivalent; auto).
    split; [done | by apply eq_hash].
  - intros Hne. apply not_true_iff_false. rewrite eq_equivalent.
    unfold equivalent. intuition.
Qed.

End TripleFacts.

(** ** Prefixing *)

Module PrefixFacts.
Import RdfConverter.

Lemma sorted_seq (a n : nat) : StronglySorted Nat.le (seq a n).
Proof.
  revert a; induction n as [|n IH]; intros a; simpl; constructor; [apply IH|].
  apply List.Forall_forall. intros x [Hx _]%in_seq. unfold Nat.le. lia.
Qed.

Lemma sorted_filter {A : Type} (R : relation A) (P : A -> bool) (l : list A) :
  StronglySorted R l -> StronglySorted R (List.filter P l).
Proof.
  induction 1 as [|x l Hl IH Hx]; simpl; [constructor|].
  destruct (P x); [|done]. constructor; [done|].
  apply List.Forall_forall. intros y [Hy _]%filter_In.
  by eapply List.Forall_forall in Hx.
Qed.

Lemma last_In {A : Type} (l : list A) (d : A) : l <> [] -> In (List.last l d) l.
Proof.
  induction l as [|x [|y l] IH]; intros Hne; [done | by left |].
  right. by apply IH.
Qed.

(** In a list sorted by a measure, the last element has the greatest one. *)
Lemma last_greatest {A : Type} (m : A -> nat) (l : list A) (d x : A) :
  StronglySorted (fun a b => (m a <= m b)%nat) l ->
  In x l -> (m x <= m (List.last l d))%nat.
Proof.
  induction 1 as [|y l Hl IH Hy]; intros Hx; [done|].
  destruct l as [|z l]; [by destruct Hx as [->|[]]|].
  change (List.last (y :: z :: l) d) with (List.last (z :: l) d).
  destruct Hx as [->|Hx]; [|by apply IH].
  eapply List.Forall_forall in Hy; [apply Hy|]. by apply last_In.
Qed.

Lemma sorted_prefixes (trie : gset string) (key : string) :
  StronglySorted (fun a b => (String.length a <= String.length b)%nat)
    (Trie_prefixes trie key).
Proof.
  apply sorted_filter.
  apply StronglySorted_fmap with (R1 := Nat.le); [|apply sorted_seq].
  intros x y Hxy. rewrite !StrFacts.length_take. unfold Nat.le in Hxy. lia.
Qed.

(** [trie.prefixes(key)] holds the keys of the trie that are prefixes of
    [key], and nothing else. *)
Lemma In_prefixes (trie : gset string) (key p : string) :
  In p (Trie_prefixes trie key) <-> p ∈ trie /\ String.prefix p key = true.
Proof.
  unfold Trie_prefixes. rewrite filter_In, bool_decide_eq_true.
  rewrite <- list_elem_of_In, list_elem_of_fmap, StrFacts.prefix_app.
  split.
  - intros [(n & -> & _) Hp]. split; [done|].
    exists (Str.drop n key). by rewrite StrFacts.take_drop.
  - intros [Hp [r ->]]. split; [|done].
    exists (String.length p). split; [by rewrite StrFacts.take_app|].
    rewrite list_elem_of_In, in_seq, StrFacts.length_app. lia.
Qed.

(** Prefixes of one string that are as long as each other are equal. *)
Lemma prefix_unique (p q key : string) :
  String.prefix p key = true -> String.prefix q key = true ->
  String.length p = String.length q -> p = q.
Proof.
  rewrite !StrFacts.prefix_app. intros [r ->] [r' Hq] Hlen.
  rewrite <- (StrFacts.take_app p r), Hq, Hlen. apply StrFacts.take_app.
Qed.

Lemma registered_trie (p : string) :
  p ∈ WIKIDATA_RDF_PREFIXES_TRIE <-> is_Some (WIKIDATA_RDF_PREFIXES !! p).
Proof. unfold WIKIDATA_RDF_PREFIXES_TRIE. apply elem_of_dom. Qed.

Lemma getitem_0 (c : ascii) (s : string) :
  Str.getitem (String c s) 0 = Ok (String c "").
Proof.
  unfold Str.getitem, Str.len. simpl String.length.
  rewrite Nat2Z.inj_succ. simpl.
  destruct (Z.ltb_spec 0 (Z.succ (Z.of_nat (String.length s)))); [done | lia].
Qed.

Lemma delimited_first (c : ascii) (s : string) :
  begins_with_bracket (String c s) <-> String.eqb (String c "") "<" = true.
Proof.
  rewrite String.eqb_eq. unfold begins_with_bracket. split.
  - intros [body H]. rewrite StrFacts.app_cons in H. congruence.
  - intros [= ->]. by exists s.
Qed.

Lemma undelimited_brackets (body : string) :
  inner ("<" +:+ body +:+ ">") = body.
Proof.
  unfold inner. change (Some 1) with (Some (Z.of_nat 1)).
  change ("<" +:+ body +:+ ">") with (String "<" (body +:+ ">")).
  rewrite StrFacts.slice_from_to_last. simpl.
  rewrite StrFacts.length_app. simpl.
  replace (String.length body + 1 - 0 - 1)%nat with (String.length body) by lia.
  apply StrFacts.take_app.
Qed.

(** The last of the prefixes found is the key [p] of the trie whenever [p]
    is the longest key of the trie that is a prefix of [key]. *)
Lemma last_prefix_longest (trie : gset string) (key p : string) :
  p ∈ trie ->
  String.prefix p key = true ->
  (forall q, q ∈ trie -> String.prefix q key = true ->
             (String.length q <= String.length p)%nat) ->
  Trie_prefixes trie key <> [] /\ List.last (Trie_prefixes trie key) "" = p.
Proof.
  intros Hp Hpre Hmax.
  assert (In p (Trie_prefixes trie key)) as Hin by (by apply In_prefixes).
  assert (Trie_prefixes trie key <> []) as Hne
    by (intros E; by rewrite E in Hin).
  split; [done|].
  pose proof (last_In _ "" Hne) as [Hl Hlpre]%In_prefixes.
  apply prefix_unique with key; [done..|].
  apply Nat.le_antisymm; [by apply Hmax|].
  by apply (last_greatest String.length), Hin; [apply sorted_prefixes].
Qed.

(** No prefix is found exactly when no key of the trie is a prefix. *)
Lemma prefixes_nil (trie : gset string) (key : string) :
  Trie_prefixes trie key = [] <->
  forall q, q ∈ trie -> String.prefix q key = false.
Proof.
  split.
  - intros E q Hq. apply not_true_is_false. intros Hpre.
    assert (In q (Trie_prefixes trie key)) as Hin by (by apply In_prefixes).
    by rewrite E in Hin.
  - intros Hnone. destruct (Trie_prefixes trie key) as [|q l] eqn:E; [done|].
    assert (In q (Trie_prefixes trie key)) as [Hq Hpre]%In_prefixes
      by (rewrite E; by left).
    by rewrite (Hnone q Hq) in Hpre.
Qed.

#[local] Opaque WIKIDATA_RDF_PREFIXES WIKIDATA_RDF_PREFIXES_TRIE Trie_prefixes.

(** What [_prefix_ntriples_uri] does with an argument that starts with [<]. *)
Lemma prefix_delimited (uri : string) :
  begins_with_bracket uri ->
  _prefix_ntriples_uri uri =
  match Trie_prefixes WIKIDATA_RDF_PREFIXES_TRIE (inner uri) with
  | (_ :: _) as prefix_urls =>
    match WIKIDATA_RDF_PREFIXES !! List.last prefix_urls "" with
    | Some prefix =>
      Ok (prefix +:+ ":"
          +:+ Str.drop (String.length (List.last prefix_urls "")) (inner uri))
    | None => Raise KeyError
    end
  | [] => Ok uri
  end.
Proof.
  intros Hd. destruct uri as [|c s]; [by destruct Hd|].
  unfold _prefix_ntriples_uri. rewrite getitem_0.
  apply delimited_first in Hd. unfold mbind, result_bind. rewrite Hd.
  simpl negb. cbv iota. fold (inner (String c s)).
  destruct (Trie_prefixes WIKIDATA_RDF_PREFIXES_TRIE (inner (String c s)))
    as [|q l]; [reflexivity|].
  destruct (WIKIDATA_RDF_PREFIXES !! List.last (q :: l) "") as [prefix|];
    [|reflexivity].
  do 3 f_equal. unfold Str.len. apply StrFacts.slice_later_start.
Qed.

(** A delimited argument begins with [<], and the URI between its
    delimiters is what the code takes with [uri[1:-1]]. *)
Lemma delimited_parts (uri body : string) :
  PrefixSpec.delimited_as_uri uri body ->
  begins_with_bracket uri /\ inner uri = body.
Proof.
  unfold PrefixSpec.delimited_as_uri. intros ->. split.
  - exists (body +:+ ">"). reflexivity.
  - apply undelimited_brackets.
Qed.

(** Every URI has a longest registered prefix, or no registered prefix at
    all. *)
Lemma longest_or_none (body : string) :
  (exists p code, PrefixSpec.longest_registered_prefix body p code)
  \/ PrefixSpec.no_registered_prefix body.
Proof.
  pose proof (In_prefixes WIKIDATA_RDF_PREFIXES_TRIE body) as Hin.
  pose proof (sorted_prefixes WIKIDATA_RDF_PREFIXES_TRIE body) as Hsorted.
  pose proof (prefixes_nil WIKIDATA_RDF_PREFIXES_TRIE body) as Hnil.
  revert Hin Hsorted Hnil.
  generalize (Trie_prefixes WIKIDATA_RDF_PREFIXES_TRIE body).
  intros [|q l] Hin Hsorted Hnil.
  - right. intros q Hq. apply (proj1 Hnil eq_refl).
    exact (proj2 (registered_trie q) Hq).
  - left. set (p := List.last (q :: l) "").
    assert (In p (q :: l)) as Hp by (apply last_In; intros [=]).
    destruct (proj1 (Hin p) Hp) as [Hreg Hpre].
    destruct (proj1 (registered_trie p) Hreg) as [code Hcode].
    exists p, code. split; [exact Hcode|]. split; [exact Hpre|].
    intros q' Hq' Hpre'.
    apply (last_greatest String.length (q :: l) "" q' Hsorted).
    apply (proj2 (Hin q')). split; [|exact Hpre'].
    exact (proj2 (registered_trie q') Hq').
Qed.

(** C7, with the case of no match as the code has it. Let the argument not
    be empty, and let it be delimited as a URI or not begin with the opening
    delimiter. When it is not delimited as a URI, it is returned unchanged.
    When it is, with the URI [body] between the delimiters: if [p] is the
    longest registered prefix of [body], registered with the shortcode
    [code], the result is [code], a colon and what follows [p] in [body];
    and if no registered prefix is a prefix of [body], the argument is
    returned as it came, delimiters included. One of the two is the case for
    every [body]. *)
Theorem prefix_ntriples_uri_cases (uri : string) :
  (uri <> "" -> PrefixSpec.in_scope uri -> ~ PrefixSpec.is_delimited uri ->
   _prefix_ntriples_uri uri = Ok uri)
  /\ (forall body p code rest,
        PrefixSpec.delimited_as_uri uri body ->
        PrefixSpec.longest_registered_prefix body p code ->
        body = p +:+ rest ->
        _prefix_ntriples_uri uri = Ok (code +:+ ":" +:+ rest))
  /\ (forall body,
        PrefixSpec.delimited_as_uri uri body ->
        PrefixSpec.no_registered_prefix body ->
        _prefix_ntriples_uri uri = Ok uri)
  /\ (forall body,
        (exists p code, PrefixSpec.longest_registered_prefix body p code)
        \/ PrefixSpec.no_registered_prefix body).
Proof.
  split; [|split; [|split]].
  - intros Hne [Hd|Hnb] Hnd; [contradiction|].
    destruct uri as [|c s]; [congruence|].
    unfold _prefix_ntriples_uri. rewrite getitem_0.
    unfold mbind, result_bind.
    destruct (String.eqb (String c "") "<") eqn:E; [|reflexivity].
    apply (proj2 (delimited_first c s)) in E. contradiction.
  - intros body p code rest Hd (Hcode & Hpre & Hmax) Hrest.
    destruct (delimited_parts uri body Hd) as [Hb Hinner].
    rewrite (prefix_delimited _ Hb), Hinner.
    destruct (last_prefix_longest WIKIDATA_RDF_PREFIXES_TRIE body p)
      as [Hne Hlast].
    + apply registered_trie. rewrite Hcode. eexists; reflexivity.
    + exact Hpre.
    + intros q Hq. apply Hmax. apply registered_trie, Hq.
    + revert Hne Hlast.
      generalize (Trie_prefixes WIKIDATA_RDF_PREFIXES_TRIE body).
      intros [|q l] Hne Hlast; [congruence|]. cbv beta iota zeta.
      rewrite Hlast, Hcode, Hrest, StrFacts.drop_app. reflexivity.
  - intros body Hd Hnone.
    destruct (delimited_parts uri body Hd) as [Hb Hinner].
    rewrite (prefix_delimited _ Hb), Hinner.
    assert (Trie_prefixes WIKIDATA_RDF_PREFIXES_TRIE body = []) as ->.
    { apply prefixes_nil. intros q Hq. apply Hnone, registered_trie, Hq. }
    reflexivity.
  - exact longest_or_none.
Qed.

(** The lookup in [WIKIDATA_RDF_PREFIXES] never fails, and neither does
    anything else once the argument has a first character. *)
Lemma prefix_nonempty_returns (uri : string) :
  uri <> "" -> exists prefixed, _prefix_ntriples_uri uri = Ok prefixed.
Proof.
  intros Hne. destruct uri as [|c s]; [congruence|].
  destruct (String.eqb (String c "") "<") eqn:E.
  - apply (proj2 (delimited_first c s)) in E. rewrite (prefix_delimited _ E).
    destruct (Trie_prefixes WIKIDATA_RDF_PREFIXES_TRIE (inner (String c s)))
      as [|q l] eqn:Hq; [eexists; reflexivity|]. cbv beta iota zeta.
    assert (In (List.last (q :: l) "")
              (Trie_prefixes WIKIDATA_RDF_PREFIXES_TRIE (inner (String c s))))
      as Hl.
    { rewrite Hq. apply last_In. intros [=]. }
    apply (proj1 (In_prefixes _ _ _)) in Hl. destruct Hl as [Hl _].
    apply (proj1 (registered_trie _)) in Hl. destruct Hl as [prefix ->].
    eexists; reflexivity.
  - unfold _prefix_ntriples_uri. rewrite getitem_0.
    unfold mbind, result_bind. rewrite E. eexists; reflexivity.
Qed.

Example prefix_entity :
  _prefix_ntriples_uri "<http://www.wikidata.org/entity/Q42>" = Ok "wd:Q42".
Proof. vm_compute. reflexivity. Qed.

(** Both [wd] and [wds] match the URI of a statement; the longer prefix
    wins. *)
Lemma prefix_statement :
  _prefix_ntriples_uri "<http://www.wikidata.org/entity/statement/Q42-1f8>"
  = Ok "wds:Q42-1f8".
Proof.
  apply (proj1 (proj2 (prefix_ntriples_uri_cases
                         "<http://www.wikidata.org/entity/statement/Q42-1f8>"))
           "http://www.wikidata.org/entity/statement/Q42-1f8"
           "http://www.wikidata.org/entity/statement/" "wds" "Q42-1f8").
  - reflexivity.
  - split; [vm_compute; reflexivity|]. split; [vm_compute; reflexivity|].
    intros q Hq Hpre.
    assert (In q (Trie_prefixes WIKIDATA_RDF_PREFIXES_TRIE
                    "http://www.wikidata.org/entity/statement/Q42-1f8"))
      as Hin.
    { apply (proj2 (In_prefixes _ _ _)). split; [|exact Hpre].
      apply (proj2 (registered_trie _)), Hq. }
    assert (Trie_prefixes WIKIDATA_RDF_PREFIXES_TRIE
              "http://www.wikidata.org/entity/statement/Q42-1f8"
            = ["http://www.wikidata.org/entity/";
               "http://www.wikidata.org/entity/statement/"]) as E
      by (vm_compute; reflexivity).
    rewrite E in Hin. clear E Hq Hpre.
    destruct Hin as [<-|[<-|[]]]; vm_compute; lia.
  - reflexivity.
Defined.

Example prefix_literal : _prefix_ntriples_uri "abc" = Ok "abc".
Proof. vm_compute. reflexivity. Qed.

(** C7, against the wording of the specification. The URI
    [http://example.org/x] has no registered prefix, and the result for it
    between its delimiters is the argument with the delimiters, not the URI
    without them. And an argument that opens the delimiter without closing
    it, which is not delimited as a URI, is not returned unchanged. *)
Lemma prefix_unregistered_keeps_brackets :
  PrefixSpec.delimited_as_uri "<http://example.org/x>" "http://example.org/x"
  /\ PrefixSpec.no_registered_prefix "http://example.org/x"
  /\ _prefix_ntriples_uri "<http://example.org/x>" = Ok "<http://example.org/x>"
  /\ _prefix_ntriples_uri "<http://example.org/x>" <> Ok "http://example.org/x"
  /\ ~ PrefixSpec.is_delimited "<http://www.wikidata.org/entity/Q42"
  /\ _prefix_ntriples_uri "<http://www.wikidata.org/entity/Q42" = Ok "wd:Q4".
Proof.
  split; [reflexivity|].
  split.
  { intros q Hq. apply registered_trie in Hq. revert q Hq.
    apply prefixes_nil. vm_compute. reflexivity. }
  split; [vm_compute; reflexivity|].
  split; [vm_compute; intros [=]|].
  split; [|vm_compute; reflexivity].
  intros [body E]. unfold PrefixSpec.delimited_as_uri in E.
  pose proof (f_equal inner E) as E'.
  rewrite undelimited_brackets in E'. vm_compute in E'. subst body.
  vm_compute in E. discriminate E.
Qed.

(** C8, at the failing input: for the empty string [uri[0]] raises
    [IndexError], where the specification has the function return a string. The
    parser hands it the empty string when a piece of its input starts with a
    space, as the second piece of [Examples.broken_literal] does. *)
Theorem prefix_ntriples_uri_empty_raises :
  _prefix_ntriples_uri "" = Raise IndexError
  /\ Str.split_go " " O (Some 2%nat) "" (" b" +:+ String (ascii_of_nat 34) "")
     = [""; "b" +:+ String (ascii_of_nat 34) ""]
  /\ _parse_ntriples Examples.broken_literal = Raise IndexError.
Proof. repeat split; vm_compute; reflexivity. Qed.

End PrefixFacts.

(** ** Sets of triples *)

Module TripleSetFacts.
Import RdfConverter TripleSet.

Lemma contains_compat (s : TripleSet.t) (x y : WikidataRdfTriple) :
  __eq__ x y = true -> contains s x = contains s y.
Proof.
  intros Hxy. unfold contains. induction s as [|z s IH]; simpl; [done|].
  by rewrite IH, (TripleFacts.eq_compat x y z Hxy).
Qed.

Lemma contains_app (s1 s2 : TripleSet.t) (y : WikidataRdfTriple) :
  contains (s1 ++ s2) y = contains s1 y || contains s2 y.
Proof. unfold contains. apply existsb_app. Qed.

Lemma contains_add (s : TripleSet.t) (x y : WikidataRdfTriple) :
  contains (add s x) y = contains s y || __eq__ x y.
Proof.
  unfold add. destruct (contains s x) eqn:Hx.
  - destruct (__eq__ x y) eqn:Hxy; [|by rewrite orb_false_r].
    by rewrite <- (contains_compat s x y Hxy), Hx.
  - rewrite contains_app. simpl. by rewrite orb_false_r.
Qed.

Lemma contains_fold_add (l : list WikidataRdfTriple) (s : TripleSet.t)
    (y : WikidataRdfTriple) :
  contains (fold_left add l s) y = contains s y || contains l y.
Proof.
  revert s; induction l as [|x l IH]; intros s; simpl.
  - by rewrite orb_false_r.
  - rewrite IH, contains_add. by rewrite orb_assoc.
Qed.

(** [y in set(l)] exactly when a triple of [l] is [__eq__] to [y]. *)
Lemma contains_set (l : list WikidataRdfTriple) (y : WikidataRdfTriple) :
  contains (set_ l) y = contains l y.
Proof. unfold set_. by rewrite contains_fold_add. Qed.

Lemma contains_union (a b : TripleSet.t) (y : WikidataRdfTriple) :
  contains (union a b) y = contains a y || contains b y.
Proof. apply contains_fold_add. Qed.

Lemma contains_difference (a b : TripleSet.t) (y : WikidataRdfTriple) :
  contains (difference a b) y = contains a y && negb (contains b y).
Proof.
  unfold difference. induction a as [|x a IH]; simpl; [done|].
  change (existsb (fun z => __eq__ z y) a) with (contains a y).
  destruct (__eq__ x y) eqn:Hxy; simpl.
  - rewrite (contains_compat b x y Hxy).
    destruct (contains b y); simpl; [by rewrite IH, andb_false_r|].
    by rewrite Hxy.
  - destruct (negb (contains b x)); simpl; [by rewrite Hxy|]; apply IH.
Qed.

Lemma contains_Permutation (s1 s2 : TripleSet.t) (y : WikidataRdfTriple) :
  s1 ≡ₚ s2 -> contains s1 y = contains s2 y.
Proof.
  unfold contains. induction 1 as [|x l l' _ IH|x x' l|l l' l'' _ IH1 _ IH2]; simpl.
  - done.
  - by rewrite IH.
  - by rewrite !orb_assoc, (orb_comm (__eq__ x' y)).
  - by rewrite IH1.
Qed.

Lemma contains_sorted (s : TripleSet.t) (y : WikidataRdfTriple) :
  contains (sorted s) y = contains s y.
Proof. apply contains_Permutation, merge_sort_Permutation. Qed.

Lemma difference_empty_r (a : TripleSet.t) : difference a [] = a.
Proof.
  unfold difference. induction a as [|x a IH]; simpl; [done | by f_equal].
Qed.

Lemma compare_antisym (a b : WikidataRdfTriple) :
  tuple_compare a b = CompOpp (tuple_compare b a).
Proof.
  unfold tuple_compare.
  rewrite (String.compare_antisym (subject b)), (String.compare_antisym (predicate b)),
    (String.compare_antisym (object_ b)).
  destruct (String.compare (subject a) (subject b)); simpl; try done.
  destruct (String.compare (predicate a) (predicate b)); simpl; try done.
  by rewrite CompOpp_involutive.
Qed.

(** Of two triples one is not after the other. *)
#[global] Instance not_after_total : Total not_after.
Proof.
  intros a b. unfold not_after, __lt__. rewrite (compare_antisym b a).
  destruct (tuple_compare a b); simpl; auto.
Qed.

(** [sorted] sorts: no triple of the result is [<] an earlier one. *)
Lemma sorted_Sorted (s : TripleSet.t) : Sorted not_after (sorted s).
Proof. apply Sorted_merge_sort, _. Qed.

(** The set of the next revision is the old set with the additions put in
    and the deletions taken out, as sets of triples. *)
Lemma replay (state triples_set : TripleSet.t) (y : WikidataRdfTriple) :
  contains triples_set y =
  contains
    (difference (union state (sorted (difference triples_set state)))
       (sorted (difference state triples_set))) y.
Proof.
  rewrite contains_difference, contains_union, !contains_sorted,
    !contains_difference.
  by destruct (contains triples_set y), (contains state y).
Qed.

(** *** The order of [sorted] does not depend on the order of iteration *)

Lemma string_compare_le (a b : string) :
  String.compare a b <> Gt <-> String.le a b.
Proof.
  unfold String.le, String.leb.
  destruct (String.compare a b); simpl; intuition congruence.
Qed.

Lemma string_compare_trans (a b c : string) :
  String.compare a b <> Gt -> String.compare b c <> Gt -> String.compare a c <> Gt.
Proof. rewrite !string_compare_le. apply transitivity. Qed.

Lemma string_compare_refl (a : string) : String.compare a a = Eq.
Proof.
  pose proof (String.compare_antisym a a) as H.
  by destruct (String.compare a a).
Qed.

(** Comparing first by strings and then by something else that is
    transitive is transitive. *)
Lemma lex_trans (a1 a2 a3 : string) (b12 b23 b13 : comparison) :
  (b12 <> Gt -> b23 <> Gt -> b13 <> Gt) ->
  match String.compare a1 a2 with Eq => b12 | c => c end <> Gt ->
  match String.compare a2 a3 with Eq => b23 | c => c end <> Gt ->
  match String.compare a1 a3 with Eq => b13 | c => c end <> Gt.
Proof.
  intros Hb.
  destruct (String.compare a1 a2) eqn:H12; [| |done].
  - apply String.compare_eq_iff in H12 as ->.
    destruct (String.compare a2 a3); [by apply Hb | done | done].
  - destruct (String.compare a2 a3) eqn:H23; [| |done].
    + apply String.compare_eq_iff in H23 as <-. by rewrite H12.
    + intros _ _.
      pose proof (string_compare_trans a1 a2 a3) as H13.
      rewrite H12, H23 in H13.
      destruct (String.compare a1 a3) eqn:E; [|done|by destruct H13].
      apply String.compare_eq_iff in E as ->.
      rewrite String.compare_antisym, H12 in H23. discriminate H23.
Qed.

Lemma compare_trans (x y z : WikidataRdfTriple) :
  tuple_compare x y <> Gt -> tuple_compare y z <> Gt -> tuple_compare x z <> Gt.
Proof.
  unfold tuple_compare. apply lex_trans, lex_trans, string_compare_trans.
Qed.

Lemma compare_eq (x y : WikidataRdfTriple) : tuple_compare x y = Eq -> x = y.
Proof.
  unfold tuple_compare. destruct x as [sx px ox], y as [sy py oy]; simpl.
  destruct (String.compare sx sy) eqn:Hs; try done.
  destruct (String.compare px py) eqn:Hp; try done.
  intros Ho. apply String.compare_eq_iff in Hs, Hp, Ho. congruence.
Qed.

Lemma not_after_compare (x y : WikidataRdfTriple) :
  not_after x y <-> tuple_compare x y <> Gt.
Proof.
  unfold not_after, __lt__. rewrite (compare_antisym y x).
  destruct (tuple_compare x y); simpl; intuition congruence.
Qed.

#[global] Instance not_after_trans : Transitive not_after.
Proof. intros x y z. rewrite !not_after_compare. apply compare_trans. Qed.

#[global] Instance not_after_antisym : AntiSymm (=) not_after.
Proof.
  intros x y. rewrite !not_after_compare, (compare_antisym y x).
  intros Hxy Hyx. apply compare_eq.
  destruct (tuple_compare x y); [done | by destruct Hyx | done].
Qed.

(** No triple of the sorted list is [<] any triple before it. *)
Lemma sorted_StronglySorted (s : TripleSet.t) :
  StronglySorted not_after (sorted s).
Proof. apply StronglySorted_merge_sort; apply _. Qed.

(** [sorted] gives the same list in whatever order the set hands out its
    members. *)
Lemma sorted_order_independent (s1 s2 : TripleSet.t) :
  s1 ≡ₚ s2 -> sorted s1 = sorted s2.
Proof.
  intros Hperm. apply (StronglySorted_unique not_after);
    [apply sorted_StronglySorted..|].
  unfold sorted. by rewrite !merge_sort_Permutation.
Qed.

(** *** Equality of sets *)

Lemma contains_hashed (s : TripleSet.t) (x : WikidataRdfTriple) :
  contains s x = true <-> hashed_tuple x ∈ hashed_tuple <$> s.
Proof.
  unfold contains. rewrite existsb_exists, list_elem_of_fmap.
  split; intros (y & H1 & H2).
  - exists y. apply TripleFacts.eq_equivalent, TripleFacts.hashed_tuple_equivalent in H2.
    split; [done | by apply list_elem_of_In].
  - exists y. split; [by apply list_elem_of_In|].
    by apply TripleFacts.eq_equivalent, TripleFacts.hashed_tuple_equivalent.
Qed.

Lemma wf_add (s : TripleSet.t) (x : WikidataRdfTriple) : wf s -> wf (add s x).
Proof.
  intros Hs. unfold add. destruct (contains s x) eqn:Hx; [done|].
  unfold wf. rewrite fmap_app. simpl. apply NoDup_app. split; [done|]. split.
  - intros k Hk ->%list_elem_of_singleton.
    apply contains_hashed in Hk. congruence.
  - apply NoDup_singleton.
Qed.

Lemma wf_fold_add (l : list WikidataRdfTriple) (s : TripleSet.t) :
  wf s -> wf (fold_left add l s).
Proof.
  revert s; induction l as [|x l IH]; intros s Hs; simpl; [done|].
  by apply IH, wf_add.
Qed.

Lemma wf_set (l : list WikidataRdfTriple) : wf (set_ l).
Proof. apply wf_fold_add. constructor. Qed.

Lemma wf_union (a b : TripleSet.t) : wf a -> wf (union a b).
Proof. apply wf_fold_add. Qed.

Lemma wf_difference (a b : TripleSet.t) : wf a -> wf (difference a b).
Proof.
  unfold wf, difference. induction a as [|x a IH]; simpl; [done|].
  rewrite NoDup_cons. intros [Hx Ha].
  destruct (negb (contains b x)); [|by apply IH].
  simpl. apply NoDup_cons. split; [|by apply IH].
  intros Hin. apply Hx. apply list_elem_of_fmap in Hin as (y & Hy & Hin).
  apply list_elem_of_fmap. exists y. split; [done|].
  apply list_elem_of_In. apply list_elem_of_In, filter_In in Hin. tauto.
Qed.

Lemma wf_sorted (s : TripleSet.t) : wf s -> wf (sorted s).
Proof.
  unfold wf, sorted. intros Hs.
  by rewrite (merge_sort_Permutation not_after s).
Qed.

(** Sets with the same members are equal for [==]. *)
Lemma eqb_members (a b : TripleSet.t) :
  wf a -> wf b -> (forall x, contains a x = contains b x) -> eqb a b = true.
Proof.
  intros Ha Hb Hab. unfold eqb. apply andb_true_iff. split.
  - apply Nat.eqb_eq.
    rewrite <- (length_fmap hashed_tuple a), <- (length_fmap hashed_tuple b).
    apply Permutation_length, NoDup_Permutation; [done..|].
    intros k. split; intros (x & -> & Hx)%list_elem_of_fmap.
    + apply contains_hashed. rewrite <- Hab. apply contains_hashed.
      apply list_elem_of_fmap. by exists x.
    + apply contains_hashed. rewrite Hab. apply contains_hashed.
      apply list_elem_of_fmap. by exists x.
  - apply forallb_forall. intros x Hx. rewrite <- Hab.
    apply contains_hashed, list_elem_of_fmap. exists x.
    split; [done | by apply list_elem_of_In].
Qed.

(** The set of the next revision is equal, for [==], to the old set with the
    additions put in and the deletions taken out. *)
Lemma replay_eqb (state : TripleSet.t) (triples : list WikidataRdfTriple) :
  wf state ->
  eqb (set_ triples)
    (difference (union state (sorted (difference (set_ triples) state)))
       (sorted (difference state (set_ triples)))) = true.
Proof.
  intros Hs. apply eqb_members; [apply wf_set | |apply replay].
  by apply wf_difference, wf_union.
Qed.

End TripleSetFacts.

(** ** The diff engine *)

Module DiffFacts.
Import RdfConverter Dataset DiffSpec.

Section Engine.

Variable rdf_converter : WikidataRawRevision.t -> result WikidataRdfRevision.t.

Abbreviation iter_from := (iter_wikidated_revisions_from rdf_converter).

Lemma state_before_cons (state0 : TripleSet.t) (rdf_revision : WikidataRdfRevision.t)
    (rdf_revisions : list WikidataRdfRevision.t) (i : nat) :
  state_before (TripleSet.set_ (WikidataRdfRevision.triples rdf_revision))
    rdf_revisions i
  = state_before state0 (rdf_revision :: rdf_revisions) (S i).
Proof.
  by destruct i as [|j].
Qed.

Lemma wf_active_state (rdf_revisions : list WikidataRdfRevision.t) (i : nat) :
  TripleSet.wf (active_state rdf_revisions i).
Proof.
  unfold active_state. destruct i as [|j]; simpl; [constructor|].
  destruct (rdf_revisions !! j); simpl;
    [apply TripleSetFacts.wf_set | constructor].
Qed.

(** The loop on revisions that all convert: nothing is raised, and revision
    [i] yields, in place [i], its diff against the state before it. *)
Lemma iter_from_converted (revisions : list WikidataRawRevision.t)
    (rdf_revisions : list WikidataRdfRevision.t) (state0 : TripleSet.t) :
  Forall2 (fun r rdf => rdf_converter r = Ok rdf) revisions rdf_revisions ->
  raised (iter_from state0 revisions) = None
  /\ List.length (yielded (iter_from state0 revisions)) = List.length revisions
  /\ forall i r rdf,
       revisions !! i = Some r -> rdf_revisions !! i = Some rdf ->
       exists d, yielded (iter_from state0 revisions) !! i = Some d
                 /\ diff_of (state_before state0 rdf_revisions i) r rdf d.
Proof.
  intros Hall. revert state0.
  induction Hall as [|r0 rdf0 revisions rdf_revisions H0 Hall IH]; intros state0.
  - repeat split; intros i r rdf Hr; by rewrite lookup_nil in Hr.
  - simpl. rewrite H0. simpl.
    destruct (IH (TripleSet.set_ (WikidataRdfRevision.triples rdf0)))
      as (Hraised & Hlen & Hdiff).
    split; [done|]. split; [by rewrite Hlen|].
    intros [|i] r rdf Hr Hrdf; simpl in Hr, Hrdf.
    + injection Hr as <-. injection Hrdf as <-.
      eexists. split; [reflexivity|]. by repeat split.
    + destruct (Hdiff i r rdf Hr Hrdf) as (d & Hd & Hdiff_d).
      exists d. split; [done|]. by rewrite <- state_before_cons.
Qed.

(** C1. When every revision of the sequence converts, the generator stops
    without an exception after one diff for each revision, in the order of
    the revisions. The diff of revision [i] carries its entity and revision;
    its additions are the sorted difference of the set of its triples and
    the active state, its deletions the sorted difference the other way
    round, for the active state that is empty before the first revision and
    the set of the triples of the last revision afterwards. Both lists are
    in order, the first diff adds all triples and deletes none, and the next
    active state is equal, as Python compares sets, to the union of the
    active state and the additions less the deletions: they have the same
    members. *)
Theorem iter_wikidated_revisions_diffs (revisions : list WikidataRawRevision.t)
    (rdf_revisions : list WikidataRdfRevision.t) :
  Forall2 (fun r rdf => rdf_converter r = Ok rdf) revisions rdf_revisions ->
  let out := _iter_wikidated_revisions rdf_converter revisions in
  raised out = None
  /\ List.length (yielded out) = List.length revisions
  /\ (forall i r rdf,
        revisions !! i = Some r -> rdf_revisions !! i = Some rdf ->
        exists d,
          yielded out !! i = Some d
          /\ diff_of (active_state rdf_revisions i) r rdf d
          /\ StronglySorted TripleSet.not_after (WikidatedRevision.triple_additions d)
          /\ StronglySorted TripleSet.not_after (WikidatedRevision.triple_deletions d)
          /\ active_state rdf_revisions (S i)
             = TripleSet.set_ (WikidataRdfRevision.triples rdf)
          /\ TripleSet.eqb (active_state rdf_revisions (S i))
               (TripleSet.difference
                  (TripleSet.union (active_state rdf_revisions i)
                     (WikidatedRevision.triple_additions d))
                  (WikidatedRevision.triple_deletions d)) = true
          /\ (forall t,
                TripleSet.contains (active_state rdf_revisions (S i)) t
                = TripleSet.contains
                    (TripleSet.difference
                       (TripleSet.union (active_state rdf_revisions i)
                          (WikidatedRevision.triple_additions d))
                       (WikidatedRevision.triple_deletions d)) t)
          /\ (i = O ->
              WikidatedRevision.triple_additions d
              = TripleSet.sorted (TripleSet.set_ (WikidataRdfRevision.triples rdf))
              /\ WikidatedRevision.triple_deletions d = [])).
Proof.
  intros Hall out.
  destruct (iter_from_converted revisions rdf_revisions [] Hall)
    as (Hraised & Hlen & Hdiff).
  split; [done|]. split; [done|].
  intros i r rdf Hr Hrdf.
  destruct (Hdiff i r rdf Hr Hrdf) as (d & Hd & Hent & Hrev & Hadd & Hdel).
  assert (active_state rdf_revisions (S i)
          = TripleSet.set_ (WikidataRdfRevision.triples rdf)) as Hnext
    by (unfold active_state; simpl; by rewrite Hrdf).
  exists d. split; [done|]. split; [done|].
  split; [rewrite Hadd; apply TripleSetFacts.sorted_StronglySorted|].
  split; [rewrite Hdel; apply TripleSetFacts.sorted_StronglySorted|].
  split; [done|]. split; [|split].
  - rewrite Hnext, Hadd, Hdel. apply TripleSetFacts.replay_eqb, wf_active_state.
  - intros t. rewrite Hnext, Hadd, Hdel. apply TripleSetFacts.replay.
  - intros ->. rewrite Hadd, Hdel. unfold active_state. simpl.
    by rewrite TripleSetFacts.difference_empty_r.
Qed.

(** A revision whose conversion fails with a conversion error leaves the
    loop in the state it was in. *)
Lemma iter_from_conversion_error (state : TripleSet.t)
    (revision : WikidataRawRevision.t) (rest : list WikidataRawRevision.t)
    (reason : string) :
  rdf_converter revision = Raise (WikidataRdfConversionError reason) ->
  iter_from state (revision :: rest) = iter_from state rest.
Proof. intros H. simpl. by rewrite H. Qed.

Lemma iter_from_skip (state : TripleSet.t)
    (before after : list WikidataRawRevision.t) (revision : WikidataRawRevision.t)
    (reason : string) :
  rdf_converter revision = Raise (WikidataRdfConversionError reason) ->
  iter_from state (before ++ revision :: after) = iter_from state (before ++ after).
Proof.
  intros H. revert state. induction before as [|r before IH]; intros state.
  - by apply iter_from_conversion_error with reason.
  - simpl. destruct (rdf_converter r) as [rdf|[]]; try done.
    by rewrite IH.
Qed.

(** C3. When the conversion of a revision fails with a conversion error,
    the loop goes on with the next revision in the state it had, whatever
    that state is, and the generator as a whole yields and raises what it
    does on the revisions without the failing one: the failure itself raises
    nothing. *)
Theorem iter_wikidated_revisions_skips_failure
    (before after : list WikidataRawRevision.t) (revision : WikidataRawRevision.t)
    (reason : string) :
  rdf_converter revision = Raise (WikidataRdfConversionError reason) ->
  (forall state,
     iter_wikidated_revisions_from rdf_converter state (revision :: after)
     = iter_wikidated_revisions_from rdf_converter state after)
  /\ _iter_wikidated_revisions rdf_converter (before ++ revision :: after)
     = _iter_wikidated_revisions rdf_converter (before ++ after).
Proof.
  intros H. split.
  - intros state. by apply iter_from_conversion_error with reason.
  - by apply iter_from_skip with reason.
Qed.

End Engine.

End DiffFacts.

(** ** Member file names *)

Module FileNameFacts.
Import Dataset.

Lemma all_app (P : ascii -> bool) (s t : string) :
  Str.all P (s +:+ t) = Str.all P s && Str.all P t.
Proof.
  induction s as [|c s IH]; [done|].
  rewrite StrFacts.app_cons. simpl. by rewrite IH, andb_assoc.
Qed.

Lemma all_impl (P Q : ascii -> bool) (s : string) :
  (forall c, P c = true -> Q c = true) -> Str.all P s = true -> Str.all Q s = true.
Proof.
  intros HPQ. induction s as [|c s IH]; simpl; [done|].
  rewrite !andb_true_iff. intros [Hc Hs]. split; [by apply HPQ | by apply IH].
Qed.

(** The characters of a decimal number are digits. *)
Lemma digits_of_uint (d : Decimal.uint) :
  Str.all Str.is_digit (NilEmpty.string_of_uint d) = true.
Proof. induction d; simpl; done. Qed.

Lemma lstrip_id (s : string) :
  Str.all (fun c => negb (Str.is_space c)) s = true -> Str.lstrip s = s.
Proof.
  destruct s as [|c s]; simpl; [done|].
  rewrite andb_true_iff, negb_true_iff. by intros [-> _].
Qed.

Lemma rstrip_id (s : string) :
  Str.all (fun c => negb (Str.is_space c)) s = true -> Str.rstrip s = s.
Proof.
  induction s as [|c s IH]; simpl; [done|].
  rewrite andb_true_iff, negb_true_iff. intros [Hc Hs].
  rewrite (IH Hs), Hc. by destruct s.
Qed.

(** Stripping leaves a string without white space as it is. *)
Lemma strip_id (s : string) :
  Str.all (fun c => negb (Str.is_space c)) s = true -> Str.strip s = s.
Proof. intros H. unfold Str.strip. by rewrite (lstrip_id s H), (rstrip_id s H). Qed.

Lemma digits_ok_digits (prev : bool) (s : string) :
  Str.all Str.is_digit s = true ->
  Str.digits_ok prev s = match s with EmptyString => prev | _ => true end.
Proof.
  revert prev; induction s as [|c s IH]; intros prev; simpl; [done|].
  rewrite andb_true_iff. intros [-> Hs]. rewrite (IH _ Hs). by destruct s.
Qed.

Lemma digit_not_underscore (c : ascii) :
  Str.is_digit c = true -> Ascii.eqb c "_" = false.
Proof.
  intros Hc. apply Ascii.eqb_neq. intros ->. discriminate Hc.
Qed.

Lemma remove_underscores_digits (s : string) :
  Str.all Str.is_digit s = true -> Str.remove_underscores s = s.
Proof.
  induction s as [|c s IH]; simpl; [done|].
  rewrite andb_true_iff. intros [Hc Hs].
  by rewrite (digit_not_underscore c Hc), (IH Hs).
Qed.

Lemma digit_not_space (c : ascii) :
  Str.is_digit c = true -> negb (Str.is_space c) = true.
Proof.
  unfold Str.is_digit, Str.is_space.
  rewrite andb_true_iff, !Nat.leb_le. intros [H1 H2].
  apply negb_true_iff.
  repeat (apply orb_false_iff; split);
    rewrite ?andb_false_iff, ?Nat.leb_gt, ?Nat.eqb_neq; lia.
Qed.

(** [int] reads back a decimal number, with or without a minus sign. *)
Lemma to_int_decimal (negative : bool) (d : Decimal.uint) :
  d <> Decimal.Nil ->
  Str.to_int ((if negative then "-" else "") +:+ NilEmpty.string_of_uint d)
  = Ok (if negative then - Z.of_uint d else Z.of_uint d).
Proof.
  intros Hd. pose proof (digits_of_uint d) as Hdigits.
  assert (Str.all (fun c => negb (Str.is_space c)) (NilEmpty.string_of_uint d) = true)
    as Hns by (revert Hdigits; apply all_impl, digit_not_space).
  assert (Str.digits_ok false (NilEmpty.string_of_uint d) = true) as Hok
    by (rewrite digits_ok_digits by done; by destruct d).
  pose proof (remove_underscores_digits _ Hdigits) as Hru.
  pose proof (NilEmpty.usu d) as Husu.
  unfold Str.to_int. rewrite strip_id by (destruct negative; [simpl|]; done).
  destruct negative.
  - change ("-" +:+ NilEmpty.string_of_uint d)
      with (String "-" (NilEmpty.string_of_uint d)).
    cbv beta iota. by rewrite Hok, Hru, Husu.
  - change ("" +:+ NilEmpty.string_of_uint d) with (NilEmpty.string_of_uint d).
    destruct d; [done|..]; simpl NilEmpty.string_of_uint in *; cbv beta iota;
      by rewrite Hok, Hru, Husu.
Qed.

(** [int(str(n))] is [n]. *)
Lemma to_int_of_int (n : Z) : Str.to_int (Str.of_int n) = Ok n.
Proof.
  unfold Str.of_int. destruct n as [|p|p]; simpl Z.to_int.
  - reflexivity.
  - etrans; [exact (to_int_decimal false (Pos.to_uint p)
                      (DecimalPos.Unsigned.to_uint_nonnil p))|].
    unfold Z.of_uint. by rewrite DecimalPos.Unsigned.of_to.
  - etrans; [exact (to_int_decimal true (Pos.to_uint p)
                      (DecimalPos.Unsigned.to_uint_nonnil p))|].
    unfold Z.of_uint. by rewrite DecimalPos.Unsigned.of_to.
Qed.

Abbreviation not_slash := (fun c : ascii => negb (Ascii.eqb c "/")).

Lemma prefix_slash (c : ascii) (s : string) :
  String.prefix "/" (String c s) = Ascii.eqb c "/".
Proof.
  change (String.prefix "/" (String c s))
    with (if Ascii.ascii_dec "/" c then String.prefix "" s else false).
  destruct (Ascii.ascii_dec "/" c) as [<-|Hne].
  - by destruct s.
  - symmetry. apply Ascii.eqb_neq. congruence.
Qed.

(** Splitting a string at a separator it does not hold gives the string. *)
Lemma split_no_slash (cur s : string) :
  Str.all not_slash s = true -> Str.split_go "/" O None cur s = [cur +:+ s].
Proof.
  revert cur; induction s as [|c s IH]; intros cur; simpl Str.all.
  - intros _. simpl. by rewrite StrFacts.app_nil_r.
  - rewrite andb_true_iff, negb_true_iff. intros [Hc Hs].
    cbn [Str.split_go]. rewrite prefix_slash, Hc. simpl andb. cbv iota.
    rewrite (IH _ Hs). by rewrite StrFacts.app_assoc.
Qed.

(** A string without slashes that is not empty and not a dot is a path of
    one component. *)
Lemma of_str_single (s : string) :
  Str.all not_slash s = true -> s <> "" -> s <> "." -> Path.of_str s = [s].
Proof.
  intros Hs Hne Hdot. unfold Path.of_str.
  rewrite (split_no_slash "" s Hs).
  destruct s as [|c s]; [done|]. rewrite prefix_slash.
  simpl in Hs. apply andb_true_iff in Hs as [Hc _].
  apply negb_true_iff in Hc. rewrite Hc. simpl.
  unfold Path.is_component. change ("" +:+ String c s) with (String c s).
  destruct (String.eqb_spec (String c s) "") as [|_]; [done|].
  by destruct (String.eqb_spec (String c s) ".") as [|_].
Qed.

Lemma name_single (s : string) : s <> "/" -> Path.name [s] = s.
Proof.
  intros Hne. unfold Path.name. simpl.
  by destruct (String.eqb_spec s "/") as [|_].
Qed.

Lemma of_int_no_slash (n : Z) : Str.all not_slash (Str.of_int n) = true.
Proof.
  assert (forall d, Str.all not_slash (NilEmpty.string_of_uint d) = true) as Hd.
  { intros d. generalize (digits_of_uint d). apply all_impl.
    intros c Hc. apply negb_true_iff, Ascii.eqb_neq. intros ->. discriminate Hc. }
  unfold Str.of_int. destruct n as [|p|p]; simpl; [done | apply Hd |].
  simpl. apply Hd.
Qed.

(** The file name of a page id is one component: the number and [.jsonl]. *)
Lemma file_name_single (n : Z) :
  _entity_file_name_from_page_id n = [Str.of_int n +:+ ".jsonl"].
Proof.
  unfold _entity_file_name_from_page_id. apply of_str_single.
  - by rewrite all_app, of_int_no_slash.
  - intros E. apply (f_equal String.length) in E.
    rewrite StrFacts.length_app in E. simpl in E. lia.
  - intros E. apply (f_equal String.length) in E.
    rewrite StrFacts.length_app in E. simpl in E. lia.
Qed.

(** Whatever the integer, the page id read off its file name is the
    integer. *)
Lemma page_id_of_file_name (n : Z) :
  _entity_page_id_from_file_name (_entity_file_name_from_page_id n) = Ok n.
Proof.
  unfold _entity_page_id_from_file_name. rewrite file_name_single, name_single.
  - rewrite StrFacts.slice_off_suffix by done. apply to_int_of_int.
  - intros E. apply (f_equal String.length) in E.
    rewrite StrFacts.length_app in E. simpl in E. lia.
Qed.

(** Different page ids have different file names. *)
Lemma file_name_inj (n m : Z) :
  _entity_file_name_from_page_id n = _entity_file_name_from_page_id m -> n = m.
Proof.
  intros E. pose proof (page_id_of_file_name n) as Hn.
  rewrite E, page_id_of_file_name in Hn. congruence.
Qed.

(** C10. For a page id that is not negative, the page id read off the file
    name made for it is the page id. *)
Theorem entity_file_name_roundtrip (n : Z) :
  0 <= n ->
  _entity_page_id_from_file_name (_entity_file_name_from_page_id n) = Ok n.
Proof. intros _. apply page_id_of_file_name. Qed.

(** The page id 42 goes to the member [42.jsonl] and back. *)
Lemma entity_file_name_roundtrip_42 :
  0 <= 42
  /\ _entity_file_name_from_page_id 42 = ["42.jsonl"]
  /\ _entity_page_id_from_file_name (_entity_file_name_from_page_id 42) = Ok 42.
Proof.
  split; [lia|]. split; [reflexivity|].
  apply (entity_file_name_roundtrip 42). lia.
Defined.

End FileNameFacts.

(** ** The partial entity-stream builder *)

Module BuildFacts.
Import RdfConverter Dataset.

Lemma tmp_path_parts (path : Path.t) :
  Path.plain_name path ->
  tmp_path_of path = Path.parent path ++ ["tmp." +:+ Path.name path].
Proof.
  intros Hplain. unfold tmp_path_of, Path.truediv.
  rewrite FileNameFacts.of_str_single.
  - simpl. done.
  - rewrite FileNameFacts.all_app. by rewrite Hplain.
  - done.
  - intros E. apply (f_equal String.length) in E. simpl in E. lia.
Qed.

(** The temporary path is not the path of the archive. *)
Lemma tmp_path_ne (path : Path.t) :
  Path.plain_name path -> tmp_path_of path <> path.
Proof.
  intros Hplain. rewrite (tmp_path_parts path Hplain).
  unfold Path.parent, Path.name.
  destruct (Path.is_absolute path && (List.length path =? 1)%nat).
  - intros E. apply (f_equal List.length) in E.
    rewrite List.length_app in E. simpl in E. lia.
  - destruct (list_eq_nil_dec path) as [->|Hne]; [done|].
    rewrite (app_removelast_last "" Hne) at 3.
    intros E%app_inv_head. injection E as E.
    apply (f_equal String.length) in E.
    rewrite StrFacts.length_app in E. simpl in E. lia.
Qed.

Lemma mkdir_files (fs fs' : Fs.t) (p : Path.t) :
  Fs.mkdir fs p = Ok fs' -> Fs.files fs' = Fs.files fs.
Proof.
  unfold Fs.mkdir. destruct (existsb _ _); [done|]. by intros [= <-].
Qed.

Lemma write_files_ne (fs : Fs.t) (archive file_name q : Path.t) (content : string) :
  q <> archive ->
  Fs.files (Fs.write fs archive file_name content) !! q = Fs.files fs !! q.
Proof. intros Hne. unfold Fs.write. simpl. by rewrite lookup_insert_ne. Qed.

Section Builder.

Variable rdf_converter : WikidataRawRevision.t -> result WikidataRdfRevision.t.
Variable json : WikidatedRevision.t -> string.

Abbreviation entities := (build_entities rdf_converter json).

(** The loop over the entities writes to the temporary archive only. *)
Lemma build_entities_files_ne (tmp_path q : Path.t)
    (groups : list (WikidataEntityMeta.t * list WikidataRawRevision.t)) (fs : Fs.t) :
  q <> tmp_path ->
  Fs.files (entities tmp_path fs groups).2 !! q = Fs.files fs !! q.
Proof.
  intros Hne. revert fs.
  induction groups as [|[entity_meta revisions] groups IH]; intros fs; [done|].
  simpl. unfold build_entity.
  destruct (yielded (_iter_wikidated_revisions rdf_converter revisions));
    destruct (raised (_iter_wikidated_revisions rdf_converter revisions));
    simpl; try done.
  - specialize (IH fs). by destruct (entities tmp_path fs groups).
  - by apply write_files_ne.
  - match goal with |- context [entities tmp_path ?fs1 groups] =>
      specialize (IH fs1); destruct (entities tmp_path fs1 groups) end.
    simpl in *. rewrite IH. by apply write_files_ne.
Qed.

Lemma not_exists_files (fs : Fs.t) (p : Path.t) :
  Fs.exists_ fs p = false -> Fs.files fs !! p = None.
Proof.
  unfold Fs.exists_. rewrite orb_false_iff, !bool_decide_eq_false.
  intros [_ H]. by apply eq_None_not_Some.
Qed.

Lemma files_exists (fs : Fs.t) (p : Path.t) :
  is_Some (Fs.files fs !! p) -> Fs.exists_ fs p = true.
Proof.
  intros H. unfold Fs.exists_. apply orb_true_iff. right.
  by apply bool_decide_eq_true.
Qed.

(** C5. When the archive of the partition exists, [build] yields nothing,
    raises nothing and leaves the file system as it is; and after a [build]
    that ended without an exception, a second [build] is of that kind, so
    that it leaves the archive as the first one made it. *)
Theorem build_existing_is_noop (self : _WikidatedEntityStreamsPartial) (fs : Fs.t) :
  (Fs.exists_ fs (_path self) = true ->
   build rdf_converter json self fs = (Generated [] None, fs))
  /\ (forall out fs',
        build rdf_converter json self fs = (out, fs') ->
        raised out = None ->
        Fs.exists_ fs' (_path self) = true
        /\ build rdf_converter json self fs' = (Generated [] None, fs')).
Proof.
  assert (forall fs0, Fs.exists_ fs0 (_path self) = true ->
                      build rdf_converter json self fs0 = (Generated [] None, fs0))
    as Hnoop by (intros fs0 H; unfold build; by rewrite H).
  split; [apply Hnoop|].
  intros out fs' Hbuild Hraised.
  cut (Fs.exists_ fs' (_path self) = true); [by auto|].
  revert Hbuild. unfold build.
  destruct (Fs.exists_ fs (_path self)) eqn:Hex; [by intros [= <- <-]|].
  destruct (Fs.mkdir fs _) as [fs1|e]; [|intros [= <- <-]; by simpl in Hraised].
  destruct (entities _ fs1 _) as [out2 fs2].
  destruct (raised out2) eqn:Hr2; [intros [= <- <-]; congruence|].
  unfold Fs.rename.
  destruct (Fs.files fs2 !! _) as [archive|];
    [|intros [= <- <-]; by simpl in Hraised].
  destruct (bool_decide _); [intros [= <- <-]; by simpl in Hraised|].
  intros [= <- <-]. apply files_exists. simpl. rewrite lookup_insert_eq. by eexists.
Qed.

(** C6. Let the archive of the partition not exist, and let the name of its
    path hold no slash. Then [build] changes no file but the temporary
    archive and, by the last renaming, the archive; whatever part of the
    entities the loop has gone through, there is no archive under the final
    name; when [build] ends with an exception there is none either; and when
    it ends without one, the archive is what the loop left under the
    temporary path, which is free again. *)
Theorem build_commits_by_rename (self : _WikidatedEntityStreamsPartial) (fs : Fs.t) :
  Fs.exists_ fs (_path self) = false ->
  Path.plain_name (_path self) ->
  let tmp_path := tmp_path_of (_path self) in
  let done := build rdf_converter json self fs in
  (forall q, q <> tmp_path -> q <> _path self ->
             Fs.files done.2 !! q = Fs.files fs !! q)
  /\ (forall fs1 groups_done groups_left,
        Fs.mkdir fs (Path.parent tmp_path) = Ok fs1 ->
        groupby (_pages_meta_history self) = groups_done ++ groups_left ->
        Fs.files (build_entities rdf_converter json tmp_path fs1 groups_done).2
          !! _path self = None)
  /\ (raised done.1 <> None -> Fs.files done.2 !! _path self = None)
  /\ (raised done.1 = None ->
      exists fs1 archive,
        Fs.mkdir fs (Path.parent tmp_path) = Ok fs1
        /\ Fs.files
             (build_entities rdf_converter json tmp_path fs1
                (groupby (_pages_meta_history self))).2 !! tmp_path = Some archive
        /\ Fs.files done.2 !! _path self = Some archive
        /\ Fs.files done.2 !! tmp_path = None).
Proof.
  intros Hex Hplain tmp_path done.
  pose proof (not_exists_files _ _ Hex) as Hnone.
  pose proof (tmp_path_ne _ Hplain) as Htmp. fold tmp_path in Htmp.
  assert (forall fs1 groups,
            Fs.mkdir fs (Path.parent tmp_path) = Ok fs1 ->
            Fs.files (entities tmp_path fs1 groups).2 !! _path self = None)
    as Hloop.
  { intros fs1 groups Hmk.
    rewrite build_entities_files_ne by done. by rewrite (mkdir_files _ _ _ Hmk). }
  subst done. unfold build. rewrite Hex. fold tmp_path.
  destruct (Fs.mkdir fs (Path.parent tmp_path)) as [fs1|e] eqn:Hmk; simpl.
  2: { repeat split; try done; intros [=]. }
  specialize (Hloop fs1).
  pose proof (build_entities_files_ne tmp_path) as Hother.
  specialize (Hloop (groupby (_pages_meta_history self))) as Hall.
  destruct (entities tmp_path fs1 (groupby (_pages_meta_history self)))
    as [out2 fs2] eqn:Hent.
  assert (forall q, q <> tmp_path -> Fs.files fs2 !! q = Fs.files fs !! q) as Hfs2.
  { intros q Hq. specialize (Hother q (groupby (_pages_meta_history self)) fs1 Hq).
    rewrite Hent in Hother. simpl in Hother.
    by rewrite Hother, (mkdir_files _ _ _ Hmk). }
  simpl in Hall. specialize (Hall eq_refl).
  destruct (raised out2) as [e|] eqn:Hr2; simpl.
  { rewrite Hr2. repeat split; try done.
    - intros q Hq _. by apply Hfs2.
    - intros fs1' gd gl [= <-] _. by apply Hloop. }
  unfold Fs.rename.
  destruct (Fs.files fs2 !! tmp_path) as [archive|] eqn:Htmpfile; simpl.
  2: { repeat split; try done.
       - intros q Hq _. by apply Hfs2.
       - intros fs1' gd gl [= <-] _. by apply Hloop. }
  destruct (bool_decide (_path self ∈ Fs.dirs fs2)); simpl.
  { repeat split; try done.
    - intros q Hq _. by apply Hfs2.
    - intros fs1' gd gl [= <-] _. by apply Hloop. }
  rewrite Hr2. split; [|split; [|split]].
  - intros q Hq Hq'. rewrite lookup_insert_ne, lookup_delete_ne by done.
    by apply Hfs2.
  - intros fs1' gd gl [= <-] _. by apply Hloop.
  - done.
  - intros _. exists fs1, archive. split; [done|]. split; [by rewrite Hent|]. split.
    + by rewrite lookup_insert_eq.
    + rewrite lookup_insert_ne by done. by rewrite lookup_delete_eq.
Qed.

(** Every diff the loop of the diff engine yields is the diff of a revision
    that was converted. *)
Lemma yielded_converted (state : TripleSet.t)
    (revisions : list WikidataRawRevision.t) (d : WikidatedRevision.t) :
  d ∈ yielded (iter_wikidated_revisions_from rdf_converter state revisions) ->
  exists r rdf,
    r ∈ revisions /\ rdf_converter r = Ok rdf
    /\ WikidatedRevision.entity d = WikidataRawRevision.entity r.
Proof.
  revert state. induction revisions as [|r0 revisions IH]; intros state; simpl.
  - by intros ?%elem_of_nil.
  - destruct (rdf_converter r0) as [rdf|e] eqn:H0.
    + simpl. intros [->|Hd]%elem_of_cons.
      * exists r0, rdf. split; [left|]. by split.
      * destruct (IH _ Hd) as (r & rdf' & Hr & Hc & He).
        exists r, rdf'. split; [by right|]. by split.
    + assert (d ∈ yielded (iter_wikidated_revisions_from rdf_converter state revisions)
              -> exists r rdf, r ∈ r0 :: revisions /\ rdf_converter r = Ok rdf
                   /\ WikidatedRevision.entity d = WikidataRawRevision.entity r)
        as Hrest.
      { intros Hd. destruct (IH _ Hd) as (r & rdf' & Hr & Hc & He).
        exists r, rdf'. split; [by right|]. by split. }
      destruct e; simpl; try (by intros ?%elem_of_nil). exact Hrest.
Qed.


(** The revisions of a group of [groupby] are revisions of the input, and
    revisions of the entity of the group. *)
Lemma groupby_group (revisions : list WikidataRawRevision.t)
    (entity_meta : WikidataEntityMeta.t) (group : list WikidataRawRevision.t) :
  (entity_meta, group) ∈ groupby revisions ->
  forall r, r ∈ group ->
            r ∈ revisions /\ WikidataRawRevision.entity r = entity_meta.
Proof.
  revert entity_meta group.
  induction revisions as [|r0 revisions IH]; intros entity_meta group; simpl.
  - by intros ?%elem_of_nil.
  - destruct (groupby revisions) as [|[key g] groups] eqn:Hg.
    + intros [= -> ->]%list_elem_of_singleton r ->%list_elem_of_singleton.
      split; [left | done].
    + destruct (decide (WikidataRawRevision.entity r0 = key)) as [Hkey|Hkey].
      * intros [[= -> ->]|Hin]%elem_of_cons r Hr.
        -- apply elem_of_cons in Hr as [->|Hr]; [split; [left | done]|].
           destruct (IH key g ltac:(left) r Hr) as [? ?]. split; [by right | done].
        -- destruct (IH entity_meta group ltac:(by right) r Hr) as [? ?].
           split; [by right | done].
      * intros [[= -> ->]|Hin]%elem_of_cons r Hr.
        -- apply list_elem_of_singleton in Hr as ->. split; [left | done].
        -- destruct (IH entity_meta group Hin r Hr) as [? ?].
           split; [by right | done].
Qed.

(** What the loop over the entities yields, an entity of the groups
    yielded. *)
Lemma build_entities_yielded (tmp_path : Path.t) (fs : Fs.t)
    (groups : list (WikidataEntityMeta.t * list WikidataRawRevision.t))
    (d : WikidatedRevision.t) :
  d ∈ yielded (entities tmp_path fs groups).1 ->
  exists entity_meta revisions,
    (entity_meta, revisions) ∈ groups
    /\ d ∈ yielded (_iter_wikidated_revisions rdf_converter revisions).
Proof.
  revert fs. induction groups as [|[entity_meta revisions] groups IH]; intros fs.
  - by intros ?%elem_of_nil.
  - simpl. destruct (build_entity _ _ _ _ _ _) as [here fs1] eqn:Hhere.
    assert (here = _iter_wikidated_revisions rdf_converter revisions) as ->.
    { revert Hhere. unfold build_entity.
      by destruct (yielded _); intros [= <- _]. }
    destruct (raised _).
    + simpl. intros Hd. exists entity_meta, revisions. split; [left | done].
    + specialize (IH fs1). destruct (entities tmp_path fs1 groups) as [later fs2].
      simpl in *. intros [Hd|Hd]%elem_of_app.
      * exists entity_meta, revisions. split; [left | done].
      * destruct (IH Hd) as (em & revs & Hin & Hd').
        exists em, revs. split; [by right | done].
Qed.




End Builder.

End BuildFacts.

(** ** The merge of the partial entity streams *)

Module MergeFacts.
Import Dataset.

(** C9, as the code has it. The merge of the entity streams is not
    implemented: whatever the partial archives are, with ranges that are
    disjoint or that overlap, [build] raises [NotImplementedError] and leaves
    the file system as it is, so that it makes no archive and overwrites no
    member. *)
Theorem merged_build_not_implemented (self : _WikidataEntityStreamsMerged)
    (fs : Fs.t) :
  merged_build self fs = (Raise NotImplementedError, fs)
  /\ Fs.files (merged_build self fs).2 !! merged_path self
     = Fs.files fs !! merged_path self.
Proof. by split. Qed.

(** C9, against the wording of the specification: for the archives of the ranges
    from 0 to 99 and from 100 to 199, which hold the members of the page ids
    5 and 150, the merge does not return and leaves no merged archive. *)
Lemma merged_build_of_disjoint_partitions :
  _page_id_range Examples.partial_0_99 = (0, 100)
  /\ _page_id_range Examples.partial_100_199 = (100, 200)
  /\ iter_page_ids (_path Examples.partial_0_99) Examples.partitioned_fs = Ok [5]
  /\ iter_page_ids (_path Examples.partial_100_199) Examples.partitioned_fs
     = Ok [150]
  /\ (merged_build Examples.merged Examples.partitioned_fs).1
     = Raise NotImplementedError
  /\ (merged_build Examples.merged Examples.partitioned_fs).1 <> Ok tt
  /\ Fs.files (merged_build Examples.merged Examples.partitioned_fs).2
       !! merged_path Examples.merged = None.
Proof.
  split; [reflexivity|]. split; [reflexivity|].
  split; [vm_compute; reflexivity|]. split; [vm_compute; reflexivity|].
  split; [reflexivity|]. split; [intros [=]|]. vm_compute. reflexivity.
Qed.

End MergeFacts.

(** ** The sample data, worked *)

Module Scenarios.
Import RdfConverter Dataset Examples.

(** The diffs of the three revisions of section 8 of the specification, with
    a revision that fails in between: [B'] is no addition and [B] no
    deletion, since they are equal to each other. *)
Example sample_diffs :
  _iter_wikidated_revisions converter [r10; r11; r12; r13] = Generated diffs None.
Proof. vm_compute. reflexivity. Qed.

Lemma sample_converted :
  Forall2 (fun r rdf => converter r = Ok rdf) [r10; r11; r13] converted.
Proof. repeat constructor. Defined.

(** The three revisions that convert yield three diffs and no exception. *)
Lemma sample_three_diffs :
  Forall2 (fun r rdf => converter r = Ok rdf) [r10; r11; r13] converted
  /\ raised (_iter_wikidated_revisions converter [r10; r11; r13]) = None
  /\ List.length (yielded (_iter_wikidated_revisions converter [r10; r11; r13]))
     = 3%nat.
Proof.
  split; [exact sample_converted|].
  pose proof (DiffFacts.iter_wikidated_revisions_diffs converter
                [r10; r11; r13] converted sample_converted) as H.
  cbv zeta in H. destruct H as (H1 & H2 & _). split; [exact H1 | exact H2].
Defined.

(** The revision without text is passed over. *)
Lemma sample_skip :
  converter r12 = Raise (WikidataRdfConversionError "Entity has not text.")
  /\ _iter_wikidated_revisions converter ([r10; r11] ++ r12 :: [r13])
     = _iter_wikidated_revisions converter ([r10; r11] ++ [r13]).
Proof.
  split; [reflexivity|].
  apply (DiffFacts.iter_wikidated_revisions_skips_failure converter
           [r10; r11] [r13] r12 "Entity has not text."). reflexivity.
Defined.

Lemma sample_not_built : Fs.exists_ empty_fs (_path partial_1_100) = false.
Proof. vm_compute. reflexivity. Defined.






(** The partition whose second entity breaks the parser: [build] ends with
    the [IndexError], and there is no archive under the final name. *)
Lemma sample_broken_build :
  Fs.exists_ empty_fs (_path partial_broken) = false
  /\ Path.plain_name (_path partial_broken)
  /\ raised (build converter json partial_broken empty_fs).1 = Some IndexError
  /\ Fs.files (build converter json partial_broken empty_fs).2
       !! _path partial_broken = None.
Proof.
  split; [vm_compute; reflexivity|]. split; [vm_compute; reflexivity|].
  assert (raised (build converter json partial_broken empty_fs).1 = Some IndexError)
    as Hraised by (vm_compute; reflexivity).
  split; [exact Hraised|].
  pose proof (BuildFacts.build_commits_by_rename converter json
                partial_broken empty_fs
                ltac:(vm_compute; reflexivity) ltac:(vm_compute; reflexivity)) as H.
  cbv zeta in H. destruct H as (_ & _ & H3 & _). apply H3.
  rewrite Hraised. discriminate.
Defined.

(** The partition that builds: no exception, the archive is there and holds
    the member of [Q1] only, and the temporary archive is gone. *)
Example sample_build :
  raised (build converter json partial_1_100 empty_fs).1 = None
  /\ Fs.exists_ (build converter json partial_1_100 empty_fs).2
       (_path partial_1_100) = true
  /\ iter_page_ids (_path partial_1_100)
       (build converter json partial_1_100 empty_fs).2 = Ok [1]
  /\ Fs.exists_ (build converter json partial_1_100 empty_fs).2
       (tmp_path_of (_path partial_1_100)) = false.
Proof. repeat split; vm_compute; reflexivity. Qed.

End Scenarios.

(** ** More on prefixing *)

Module PrefixMore.
Import RdfConverter RdfText.

(** A test on the entries of a dictionary, run over all of them. *)
Lemma dict_forall {A : Type} (m : gmap string A) (P : string -> A -> bool) :
  forallb (fun entry => P entry.1 entry.2) (map_to_list m) = true ->
  forall k v, m !! k = Some v -> P k v = true.
Proof.
  intros Hall k v Hk.
  apply (proj1 (forallb_forall _ _) Hall (k, v)).
  apply (proj1 (list_elem_of_In _ _)), (proj2 (elem_of_map_to_list _ _ _)), Hk.
Qed.

#[local] Opaque WIKIDATA_RDF_PREFIXES WIKIDATA_RDF_PREFIXES_TRIE Trie_prefixes.

(** The shortcodes are not empty and hold neither a colon nor an angle
    bracket. *)
Lemma shortcode_shape (p code : string) :
  WIKIDATA_RDF_PREFIXES !! p = Some code -> shortcode_ok code = true.
Proof.
  apply (dict_forall WIKIDATA_RDF_PREFIXES (fun _ code => shortcode_ok code)).
  vm_compute. reflexivity.
Qed.

(** No two prefixes have the same shortcode. *)
Lemma shortcode_inj (p q code : string) :
  WIKIDATA_RDF_PREFIXES !! p = Some code ->
  WIKIDATA_RDF_PREFIXES !! q = Some code -> p = q.
Proof.
  intros Hp Hq.
  assert (forallb (fun entry => negb (String.eqb entry.2 code) || String.eqb entry.1 p)
            (map_to_list WIKIDATA_RDF_PREFIXES) = true) as H.
  { clear Hq. revert p code Hp.
    apply (dict_forall WIKIDATA_RDF_PREFIXES
             (fun p code =>
                forallb (fun entry => negb (String.eqb entry.2 code)
                                      || String.eqb entry.1 p)
                  (map_to_list WIKIDATA_RDF_PREFIXES))).
    vm_compute. reflexivity. }
  pose proof (dict_forall WIKIDATA_RDF_PREFIXES
                (fun q' code' => negb (String.eqb code' code) || String.eqb q' p)
                H q code Hq) as Hpq.
  cbv beta in Hpq. rewrite String.eqb_refl in Hpq.
  apply String.eqb_eq in Hpq. congruence.
Qed.

Lemma prefix_not_delimited (c : ascii) (s : string) :
  String.eqb (String c "") "<" = false ->
  _prefix_ntriples_uri (String c s) = Ok (String c s).
Proof.
  intros Hc. unfold _prefix_ntriples_uri. rewrite PrefixFacts.getitem_0.
  unfold mbind, result_bind. rewrite Hc. reflexivity.
Qed.

(** What the function returns: its argument, or a shortcode, a colon and
    what follows the prefix of the shortcode in the URI. *)
Lemma prefix_result (uri r : string) :
  _prefix_ntriples_uri uri = Ok r ->
  r = uri
  \/ exists p code rest,
       begins_with_bracket uri
       /\ WIKIDATA_RDF_PREFIXES !! p = Some code
       /\ inner uri = p +:+ rest
       /\ r = code +:+ ":" +:+ rest.
Proof.
  destruct uri as [|c s].
  { assert (_prefix_ntriples_uri "" = Raise IndexError) as ->
      by (vm_compute; reflexivity). intros [=]. }
  destruct (String.eqb (String c "") "<") eqn:E.
  2: { rewrite (prefix_not_delimited c s E). intros [= <-]. by left. }
  apply (proj2 (PrefixFacts.delimited_first c s)) in E.
  rewrite (PrefixFacts.prefix_delimited _ E).
  destruct (Trie_prefixes WIKIDATA_RDF_PREFIXES_TRIE (inner (String c s)))
    as [|q l] eqn:Hq; [intros [= <-]; by left|]. cbv beta iota zeta.
  assert (In (List.last (q :: l) "")
            (Trie_prefixes WIKIDATA_RDF_PREFIXES_TRIE (inner (String c s))))
    as Hl by (rewrite Hq; apply PrefixFacts.last_In; intros [=]).
  apply (proj1 (PrefixFacts.In_prefixes _ _ _)) in Hl. destruct Hl as [_ Hpre].
  apply (proj1 (StrFacts.prefix_app _ _)) in Hpre. destruct Hpre as [rest Hrest].
  destruct (WIKIDATA_RDF_PREFIXES !! List.last (q :: l) "") as [code|] eqn:Hcode;
    [|intros [=]].
  intros [= <-]. right. exists (List.last (q :: l) ""), code, rest.
  split; [exact E|]. split; [exact Hcode|]. split; [exact Hrest|].
  rewrite Hrest, StrFacts.drop_app. reflexivity.
Qed.

(** A shortcode starts with a character that is no angle bracket. *)
Lemma shortcode_first (p code : string) :
  WIKIDATA_RDF_PREFIXES !! p = Some code ->
  exists c code', code = String c code' /\ String.eqb (String c "") "<" = false.
Proof.
  intros Hp. pose proof (shortcode_shape p code Hp) as Hok.
  unfold shortcode_ok in Hok. apply andb_true_iff in Hok as [Hall Hne].
  destruct code as [|c code']; [discriminate Hne|].
  exists c, code'. split; [reflexivity|].
  simpl in Hall. apply andb_true_iff in Hall as [Hc _].
  apply andb_true_iff in Hc as [_ Hc]. apply negb_true_iff in Hc.
  apply String.eqb_neq. intros [= ->]. discriminate Hc.
Qed.

(** X1. The only exception of [_prefix_ntriples_uri] is the [IndexError]
    for the empty string: the lookup of the prefix found by the trie in the
    dictionary never raises a [KeyError], and the last element of a list
    is only taken of a list that has one. *)
Theorem prefix_raises_only_for_empty (uri : string) :
  match _prefix_ntriples_uri uri with
  | Ok _ => uri <> ""
  | Raise e => uri = "" /\ e = IndexError
  end.
Proof.
  destruct uri as [|c s].
  - assert (_prefix_ntriples_uri "" = Raise IndexError) as ->
      by (vm_compute; reflexivity). by split.
  - destruct (PrefixFacts.prefix_nonempty_returns (String c s)) as [r ->];
      [intros [=] | intros [=]].
Qed.

(** X2. Prefixing is idempotent: what [_prefix_ntriples_uri] returns, it
    returns unchanged when it is given it again. *)
Theorem prefix_idempotent (uri r : string) :
  _prefix_ntriples_uri uri = Ok r -> _prefix_ntriples_uri r = Ok r.
Proof.
  intros Hr.
  destruct (prefix_result uri r Hr) as [->|(p & code & rest & _ & Hcode & _ & ->)];
    [exact Hr|].
  destruct (shortcode_first p code Hcode) as (c & code' & -> & Hc).
  rewrite StrFacts.app_cons. apply prefix_not_delimited, Hc.
Qed.

Lemma prefix_idempotent_sample :
  _prefix_ntriples_uri "<http://www.w3.org/2002/07/owl#sameAs>" = Ok "owl:sameAs"
  /\ _prefix_ntriples_uri "owl:sameAs" = Ok "owl:sameAs".
Proof.
  assert (_prefix_ntriples_uri "<http://www.w3.org/2002/07/owl#sameAs>"
          = Ok "owl:sameAs") as H by (vm_compute; reflexivity).
  split; [exact H|]. exact (prefix_idempotent _ _ H).
Defined.

(** Strings that are equal and have a colon after parts without colon have
    the same parts. *)
Lemma colon_split (x y u v : string) :
  Str.all (fun c => negb (Ascii.eqb c ":")) x = true ->
  Str.all (fun c => negb (Ascii.eqb c ":")) y = true ->
  x +:+ ":" +:+ u = y +:+ ":" +:+ v -> x = y /\ u = v.
Proof.
  revert y. induction x as [|c x IH]; intros [|d y] Hx Hy E.
  - injection E as E. by split.
  - rewrite StrFacts.app_cons in E. injection E as <- _.
    simpl in Hy. discriminate Hy.
  - rewrite StrFacts.app_cons in E. injection E as -> _.
    simpl in Hx. discriminate Hx.
  - rewrite !StrFacts.app_cons in E. injection E as -> E.
    simpl in Hx, Hy. apply andb_true_iff in Hx as [_ Hx], Hy as [_ Hy].
    destruct (IH y Hx Hy E) as [-> ->]. by split.
Qed.

Lemma shortcode_no_colon (p code : string) :
  WIKIDATA_RDF_PREFIXES !! p = Some code ->
  Str.all (fun c => negb (Ascii.eqb c ":")) code = true.
Proof.
  intros Hp. pose proof (shortcode_shape p code Hp) as Hok.
  unfold shortcode_ok in Hok. apply andb_true_iff in Hok as [Hall _].
  revert Hall. apply FileNameFacts.all_impl.
  intros c Hc. by apply andb_true_iff in Hc as [Hc _].
Qed.

(** X3. Prefixing loses nothing of a URI in angle brackets: two URIs with
    the same result are the same URI. *)
Theorem prefix_injective (a b r : string) :
  _prefix_ntriples_uri ("<" +:+ a +:+ ">") = Ok r ->
  _prefix_ntriples_uri ("<" +:+ b +:+ ">") = Ok r ->
  a = b.
Proof.
  intros Ha Hb.
  destruct (prefix_result _ _ Ha)
    as [Ea|(pa & ca & ra & _ & Hca & Hra & Ea)];
    destruct (prefix_result _ _ Hb)
      as [Eb|(pb & cb & rb & _ & Hcb & Hrb & Eb)].
  - rewrite <- (PrefixFacts.undelimited_brackets a),
      <- (PrefixFacts.undelimited_brackets b). congruence.
  - destruct (shortcode_first pb cb Hcb) as (c & cb' & -> & Hc).
    rewrite Ea in Eb. rewrite !StrFacts.app_cons in Eb. injection Eb as <- _.
    discriminate Hc.
  - destruct (shortcode_first pa ca Hca) as (c & ca' & -> & Hc).
    rewrite Eb in Ea. rewrite !StrFacts.app_cons in Ea. injection Ea as <- _.
    discriminate Hc.
  - rewrite Ea in Eb.
    apply colon_split in Eb as [<- <-];
      [|by apply shortcode_no_colon with pa | by apply shortcode_no_colon with pb].
    rewrite (shortcode_inj pb pa ca Hcb Hca) in Hrb.
    rewrite PrefixFacts.undelimited_brackets in Hra, Hrb. congruence.
Qed.

Lemma prefix_injective_sample :
  _prefix_ntriples_uri ("<" +:+ "http://schema.org/name" +:+ ">") = Ok "schema:name"
  /\ "http://schema.org/name" = "http://schema.org/name".
Proof.
  assert (_prefix_ntriples_uri ("<" +:+ "http://schema.org/name" +:+ ">")
          = Ok "schema:name") as H by (vm_compute; reflexivity).
  split; [exact H|]. exact (prefix_injective _ _ _ H H).
Defined.

End PrefixMore.

(** ** Parsing back the text of triples *)

Module ParseFacts.
Import RdfConverter RdfText.

Lemma prefix_cons (c d : ascii) (p s : string) :
  String.prefix (String c p) (String d s)
  = Ascii.eqb d c && String.prefix p s.
Proof.
  change (String.prefix (String c p) (String d s))
    with (if Ascii.ascii_dec c d then String.prefix p s else false).
  destruct (Ascii.ascii_dec c d) as [<-|Hne].
  - by rewrite Ascii.eqb_refl.
  - destruct (Ascii.eqb_spec d c) as [->|_]; [done|reflexivity].
Qed.

Lemma prefix_empty (s : string) : String.prefix "" s = true.
Proof. by destruct s. Qed.

(** With no split left, the rest is one piece. *)
Lemma split_no_limit_left (sep cur s : string) :
  Str.split_go sep O (Some O) cur s = [cur +:+ s].
Proof.
  revert cur; induction s as [|c s IH]; intros cur; cbn [Str.split_go].
  - by rewrite StrFacts.app_nil_r.
  - rewrite bool_decide_true by done. rewrite andb_false_r.
    rewrite IH. by rewrite StrFacts.app_assoc.
Qed.

(** Splitting at spaces cuts after a part without space. *)
Lemma split_space (n : nat) (cur s rest : string) :
  Str.all (fun c => negb (Ascii.eqb c " ")) s = true ->
  Str.split_go " " O (Some (S n)) cur (s +:+ " " +:+ rest)
  = (cur +:+ s) :: Str.split_go " " O (Some n) "" rest.
Proof.
  revert cur; induction s as [|c s IH]; intros cur Hs.
  - change ("" +:+ " " +:+ rest) with (String " " rest). cbn [Str.split_go].
    rewrite prefix_cons, prefix_empty. simpl. by rewrite StrFacts.app_nil_r.
  - simpl in Hs. apply andb_true_iff in Hs as [Hc Hs].
    apply negb_true_iff in Hc.
    rewrite StrFacts.app_cons. cbn [Str.split_go].
    rewrite prefix_cons, Hc. simpl andb. cbv iota.
    rewrite (IH _ Hs). by rewrite StrFacts.app_assoc.
Qed.

(** The three parts of the text of a triple. *)
Lemma split_fields (s p o : string) :
  Str.all (fun c => negb (Ascii.eqb c " ")) s = true ->
  Str.all (fun c => negb (Ascii.eqb c " ")) p = true ->
  Str.split_go " " O (Some 2%nat) "" (s +:+ " " +:+ p +:+ " " +:+ o) = [s; p; o].
Proof.
  intros Hs Hp. rewrite (split_space 1 "" s _ Hs), (split_space 0 "" p _ Hp).
  by rewrite split_no_limit_left.
Qed.

(** The end of a line is not found earlier at the end of a text than in the
    text itself. *)
Lemma line_end_boundary (c : ascii) (v rest : string) :
  String.prefix triple_end (String c v +:+ triple_end +:+ rest)
  = String.prefix triple_end (String c v).
Proof.
  unfold triple_end.
  change (String " " (String "." (String (ascii_of_nat 10) "")) +:+ rest)
    with (String " " (String "." (String (ascii_of_nat 10) rest))).
  rewrite StrFacts.app_cons, !prefix_cons. f_equal.
  destruct v as [|d v]; [reflexivity|].
  rewrite StrFacts.app_cons, !prefix_cons. f_equal.
  destruct v as [|e v]; [reflexivity|].
  by rewrite StrFacts.app_cons, !prefix_cons, !prefix_empty.
Qed.

(** Splitting at the ends of lines cuts after a text that holds none. *)
Lemma split_line (cur u rest : string) :
  occurs triple_end u = false ->
  Str.split_go triple_end O None cur (u +:+ triple_end +:+ rest)
  = (cur +:+ u) :: Str.split_go triple_end O None "" rest.
Proof.
  revert cur; induction u as [|c u IH]; intros cur Hu.
  - rewrite StrFacts.app_nil_r.
    change ("" +:+ triple_end +:+ rest)
      with (String " " (String "." (String (ascii_of_nat 10) rest))).
    cbn [Str.split_go].
    assert (String.prefix triple_end
              (String " " (String "." (String (ascii_of_nat 10) rest))) = true)
      as -> by (unfold triple_end; by rewrite !prefix_cons, prefix_empty).
    reflexivity.
  - cbn [occurs] in Hu. apply orb_false_iff in Hu as [Hc Hu].
    rewrite StrFacts.app_cons. cbn [Str.split_go].
    rewrite <- StrFacts.app_cons, line_end_boundary, Hc. simpl andb. cbv iota.
    rewrite (IH _ Hu). by rewrite StrFacts.app_assoc.
Qed.

Lemma concat_cons (x : string) (l : list string) :
  String.concat "" (x :: l) = x +:+ String.concat "" l.
Proof. destruct l; simpl; [by rewrite StrFacts.app_nil_r | done]. Qed.

(** The text of a triple and its line feed: the fields, and the end of a
    line. *)
Lemma str_line (t : WikidataRdfTriple) :
  __str__ t +:+ String (ascii_of_nat 10) ""
  = (subject t +:+ " " +:+ predicate t +:+ " " +:+ object_ t) +:+ triple_end.
Proof. unfold __str__, triple_end. by rewrite !StrFacts.app_assoc. Qed.

(** The pieces of the text of printable triples: their fields, and an empty
    piece after the last line. *)
Lemma split_ntriples (triples : list WikidataRdfTriple) :
  Forall printable triples ->
  Str.split_go triple_end O None "" (ntriples_of triples)
  = ((fun t => subject t +:+ " " +:+ predicate t +:+ " " +:+ object_ t) <$> triples)
    ++ [""].
Proof.
  unfold ntriples_of. induction 1 as [|t triples Ht _ IH]; [reflexivity|].
  rewrite fmap_cons, concat_cons, str_line, StrFacts.app_assoc.
  destruct Ht as (_ & _ & _ & _ & _ & Hocc).
  rewrite (split_line "" _ _ Hocc), IH. reflexivity.
Qed.

(** The fields of a printable triple make the triple. *)
Lemma triple_of_fields (t : WikidataRdfTriple) :
  printable t ->
  triple_of_parts
    (Str.split_go " " O (Some 2%nat) ""
       (subject t +:+ " " +:+ predicate t +:+ " " +:+ object_ t)) = Ok t.
Proof.
  intros (Hs & Hp & Ho & Hss & Hps & _).
  rewrite (split_fields _ _ _ Hss Hps). unfold triple_of_parts.
  cbn [mapM]. unfold mbind, mret, result_bind, result_ret.
  rewrite Hs, Hp, Ho. by destruct t.
Qed.

(** X4. The text of triples parses back to the triples: for triples on whose
    fields prefixing changes nothing, whose subjects and predicates hold no
    space and whose fields do not hold the end of a line of N-Triples,
    [_parse_ntriples] returns the triples of the text that [__str__] and a
    line feed make of them. The object may hold spaces and line feeds. *)
Theorem parse_ntriples_of_str (triples : list WikidataRdfTriple) :
  Forall printable triples ->
  _parse_ntriples (ntriples_of triples) = Ok triples.
Proof.
  intros Hall. unfold _parse_ntriples. rewrite (split_ntriples _ Hall).
  rewrite List.filter_app. simpl List.filter at 2. rewrite app_nil_r.
  induction Hall as [|t triples Ht Hall IH]; [reflexivity|].
  rewrite fmap_cons. cbn [List.filter].
  assert (String.eqb (subject t +:+ " " +:+ predicate t +:+ " " +:+ object_ t) ""
          = false) as ->.
  { apply String.eqb_neq. intros E. apply (f_equal String.length) in E.
    rewrite StrFacts.length_app in E. simpl in E. lia. }
  cbn [negb mapM]. unfold mbind, mret, result_bind, result_ret in *.
  by rewrite (triple_of_fields t Ht), IH.
Qed.

Lemma sample_printable : Forall printable [Examples.A; Samples.two_lines; Examples.B].
Proof. repeat constructor; vm_compute; reflexivity. Defined.

(** Three triples, one of them with a literal of two lines, come back from
    their text. *)
Lemma parse_ntriples_of_str_sample :
  Forall printable [Examples.A; Samples.two_lines; Examples.B]
  /\ _parse_ntriples (ntriples_of [Examples.A; Samples.two_lines; Examples.B])
     = Ok [Examples.A; Samples.two_lines; Examples.B].
Proof.
  split; [exact sample_printable|].
  exact (parse_ntriples_of_str _ sample_printable).
Defined.

End ParseFacts.

(** ** More on the diff engine *)

Module DiffMore.
Import RdfConverter Dataset DiffSpec Replay.

Section Engine.

Variable rdf_converter : WikidataRawRevision.t -> result WikidataRdfRevision.t.

Abbreviation iter_from := (iter_wikidated_revisions_from rdf_converter).

(** Every diff that is yielded is the diff of two sets that have no two
    equal members. *)
Lemma yielded_diff_of_sets (state : TripleSet.t)
    (revisions : list WikidataRawRevision.t) (d : WikidatedRevision.t) :
  TripleSet.wf state ->
  d ∈ yielded (iter_from state revisions) ->
  exists old new,
    TripleSet.wf old /\ TripleSet.wf new
    /\ WikidatedRevision.triple_additions d
       = TripleSet.sorted (TripleSet.difference new old)
    /\ WikidatedRevision.triple_deletions d
       = TripleSet.sorted (TripleSet.difference old new).
Proof.
  revert state. induction revisions as [|r revisions IH]; intros state Hwf; simpl.
  - by intros ?%elem_of_nil.
  - destruct (rdf_converter r) as [rdf|e].
    + simpl. intros [->|Hd]%elem_of_cons.
      * exists state, (TripleSet.set_ (WikidataRdfRevision.triples rdf)).
        split; [done|]. split; [apply TripleSetFacts.wf_set | by split].
      * apply (IH _ (TripleSetFacts.wf_set _) Hd).
    + destruct e; simpl; try (by intros ?%elem_of_nil). by apply IH.
Qed.

(** X5. No diff both adds and deletes a triple: no triple of the additions
    of a yielded diff is equal, for [__eq__], to a triple of its deletions,
    and neither list holds two triples that are equal for [__eq__]. *)
Theorem diff_additions_deletions_disjoint
    (revisions : list WikidataRawRevision.t) (d : WikidatedRevision.t) :
  d ∈ yielded (_iter_wikidated_revisions rdf_converter revisions) ->
  (forall t,
     TripleSet.contains (WikidatedRevision.triple_additions d) t
     && TripleSet.contains (WikidatedRevision.triple_deletions d) t = false)
  /\ TripleSet.wf (WikidatedRevision.triple_additions d)
  /\ TripleSet.wf (WikidatedRevision.triple_deletions d).
Proof.
  intros Hd.
  destruct (yielded_diff_of_sets [] revisions d ltac:(constructor) Hd)
    as (old & new & Hold & Hnew & -> & ->).
  split; [|split].
  - intros t. rewrite !TripleSetFacts.contains_sorted,
      !TripleSetFacts.contains_difference.
    by destruct (TripleSet.contains new t), (TripleSet.contains old t).
  - by apply TripleSetFacts.wf_sorted, TripleSetFacts.wf_difference.
  - by apply TripleSetFacts.wf_sorted, TripleSetFacts.wf_difference.
Qed.

Abbreviation conversion_fails := (Replay.conversion_fails rdf_converter).

(** The loop on a sequence in two parts: when the first part raises nothing,
    the loop goes on with the second part in the state the first part left. *)
Lemma iter_from_app (state : TripleSet.t) (l1 l2 : list WikidataRawRevision.t) :
  raised (iter_from state l1) = None ->
  iter_from state (l1 ++ l2)
  = Generated
      (yielded (iter_from state l1)
       ++ yielded (iter_from (state_after rdf_converter state l1) l2))
      (raised (iter_from (state_after rdf_converter state l1) l2)).
Proof.
  revert state. induction l1 as [|r l1 IH]; intros state; simpl.
  - intros _. by destruct (iter_from state l2).
  - destruct (rdf_converter r) as [rdf|e]; simpl.
    + intros Hr. by rewrite (IH _ Hr).
    + destruct e; try done. apply IH.
Qed.

(** Revisions that fail with a conversion error before the others add
    nothing to what the loop does. *)
Lemma iter_from_skipped (state : TripleSet.t)
    (skipped rest : list WikidataRawRevision.t) :
  Forall conversion_fails skipped ->
  iter_from state (skipped ++ rest) = iter_from state rest.
Proof.
  induction 1 as [|r skipped [reason Hr] _ IH]; [done|].
  simpl. by rewrite Hr.
Qed.

Lemma difference_covered (a b : TripleSet.t) :
  (forall t, TripleSet.contains a t = true -> TripleSet.contains b t = true) ->
  TripleSet.difference a b = [].
Proof.
  intros Hab. unfold TripleSet.difference.
  induction a as [|x a IH]; [done|]. simpl.
  assert (TripleSet.contains b x = true) as ->.
  { apply Hab. unfold TripleSet.contains. simpl.
    by rewrite TripleFacts.eq_refl. }
  simpl. apply IH. intros t Ht. apply Hab.
  unfold TripleSet.contains in *. simpl. by rewrite Ht, orb_true_r.
Qed.

(** X6. A revision with the triples of the revision before it gives an
    empty diff. Let a revision [r1] convert and be followed, after revisions
    that fail with a conversion error, by a revision [r2] whose triples are
    those of [r1] up to their order, their repetitions and the labels of
    opaque local identifiers in object position. Then the diff of [r2], which
    comes right after the one of [r1], has no additions and no deletions. *)
Theorem unchanged_revision_empty_diff
    (before skipped after : list WikidataRawRevision.t)
    (r1 r2 : WikidataRawRevision.t) (rdf1 rdf2 : WikidataRdfRevision.t) :
  raised (_iter_wikidated_revisions rdf_converter before) = None ->
  rdf_converter r1 = Ok rdf1 ->
  Forall conversion_fails skipped ->
  rdf_converter r2 = Ok rdf2 ->
  (forall t, TripleSet.contains (WikidataRdfRevision.triples rdf1) t
             = TripleSet.contains (WikidataRdfRevision.triples rdf2) t) ->
  exists d1 d2 later,
    yielded (_iter_wikidated_revisions rdf_converter
               (before ++ r1 :: skipped ++ r2 :: after))
    = yielded (_iter_wikidated_revisions rdf_converter before) ++ d1 :: d2 :: later
    /\ WikidatedRevision.revision d1 = WikidataRawRevision.revision r1
    /\ WikidatedRevision.revision d2 = WikidataRawRevision.revision r2
    /\ WikidatedRevision.triple_additions d2 = []
    /\ WikidatedRevision.triple_deletions d2 = [].
Proof.
  intros Hbefore H1 Hskipped H2 Hsame.
  unfold _iter_wikidated_revisions in *. rewrite (iter_from_app _ _ _ Hbefore).
  cbn [yielded iter_wikidated_revisions_from]. rewrite H1.
  rewrite (iter_from_skipped _ _ _ Hskipped).
  cbn [yielded iter_wikidated_revisions_from]. rewrite H2. cbn [yielded].
  eexists _, _, _. split; [reflexivity|]. split; [done|]. split; [done|].
  cbn [WikidatedRevision.triple_additions WikidatedRevision.triple_deletions].
  rewrite !difference_covered; [done|..];
    intros t; by rewrite !TripleSetFacts.contains_set, Hsame.
Qed.

(** Applying the diffs the loop yields to a set with the members of the
    state of the loop gives a set with the members of the state the loop
    ends in. *)
Lemma apply_diffs_state (revisions : list WikidataRawRevision.t)
    (state s : TripleSet.t) :
  TripleSet.wf s ->
  (forall t, TripleSet.contains s t = TripleSet.contains state t) ->
  TripleSet.wf (fold_left apply_diff (yielded (iter_from state revisions)) s)
  /\ forall t,
       TripleSet.contains
         (fold_left apply_diff (yielded (iter_from state revisions)) s) t
       = TripleSet.contains (state_after rdf_converter state revisions) t.
Proof.
  revert state s. induction revisions as [|r revisions IH]; intros state s Hwf Hs.
  - by split.
  - simpl. destruct (rdf_converter r) as [rdf|e]; simpl.
    + apply IH.
      * by apply TripleSetFacts.wf_difference, TripleSetFacts.wf_union.
      * intros t. unfold apply_diff. simpl.
        rewrite TripleSetFacts.contains_difference, TripleSetFacts.contains_union,
          !TripleSetFacts.contains_sorted, !TripleSetFacts.contains_difference, Hs.
        by destruct (TripleSet.contains (TripleSet.set_ _) t),
          (TripleSet.contains state t).
    + destruct e; simpl; try by split. by apply IH.
Qed.

Lemma wf_state_after (revisions : list WikidataRawRevision.t) (state : TripleSet.t) :
  TripleSet.wf state -> TripleSet.wf (state_after rdf_converter state revisions).
Proof.
  revert state. induction revisions as [|r revisions IH]; intros state Hwf; [done|].
  simpl. destruct (rdf_converter r) as [rdf|e].
  - apply IH, TripleSetFacts.wf_set.
  - destruct e; try done. by apply IH.
Qed.

(** X7. The diffs reconstruct the revisions. When the loop reaches a
    revision [r] that converts, the diffs yielded so far, the one of [r]
    included, applied one after the other to the empty set (additions put
    in, deletions taken out) give a set that is equal, as Python compares
    sets, to the set of the triples of [r], whatever revisions were skipped
    on the way. *)
Theorem diffs_reconstruct_revision (before after : list WikidataRawRevision.t)
    (r : WikidataRawRevision.t) (rdf : WikidataRdfRevision.t) :
  raised (_iter_wikidated_revisions rdf_converter before) = None ->
  rdf_converter r = Ok rdf ->
  exists d later,
    yielded (_iter_wikidated_revisions rdf_converter (before ++ r :: after))
    = yielded (_iter_wikidated_revisions rdf_converter before) ++ d :: later
    /\ WikidatedRevision.revision d = WikidataRawRevision.revision r
    /\ TripleSet.eqb (TripleSet.set_ (WikidataRdfRevision.triples rdf))
         (apply_diffs (yielded (_iter_wikidated_revisions rdf_converter before) ++ [d]))
       = true
    /\ forall t,
         TripleSet.contains
           (apply_diffs (yielded (_iter_wikidated_revisions rdf_converter before) ++ [d])) t
         = TripleSet.contains (WikidataRdfRevision.triples rdf) t.
Proof.
  intros Hbefore Hr.
  unfold _iter_wikidated_revisions in *. rewrite (iter_from_app _ _ _ Hbefore).
  cbn [yielded iter_wikidated_revisions_from]. rewrite Hr. cbn [yielded].
  eexists _, _. split; [reflexivity|]. split; [done|].
  destruct (apply_diffs_state before [] [] ltac:(constructor) ltac:(done))
    as [Hwf Hmem].
  pose proof (wf_state_after before [] ltac:(constructor)) as Hwf'.
  set (state := state_after rdf_converter [] before) in *.
  set (s := fold_left apply_diff (yielded (iter_from [] before)) []) in *.
  assert (forall t,
            TripleSet.contains
              (apply_diffs (yielded (iter_from [] before)
                 ++ [WikidatedRevision.Make (WikidataRawRevision.entity r)
                       (WikidataRawRevision.revision r)
                       (TripleSet.sorted
                          (TripleSet.difference state
                             (TripleSet.set_ (WikidataRdfRevision.triples rdf))))
                       (TripleSet.sorted
                          (TripleSet.difference
                             (TripleSet.set_ (WikidataRdfRevision.triples rdf)) state))])) t
            = TripleSet.contains (TripleSet.set_ (WikidataRdfRevision.triples rdf)) t)
    as Hall.
  { intros t. unfold apply_diffs. rewrite fold_left_app. fold s.
    cbn [fold_left]. unfold apply_diff. simpl.
    rewrite TripleSetFacts.contains_difference, TripleSetFacts.contains_union,
      !TripleSetFacts.contains_sorted, !TripleSetFacts.contains_difference, Hmem.
    by destruct (TripleSet.contains (TripleSet.set_ _) t),
      (TripleSet.contains state t). }
  split.
  - apply TripleSetFacts.eqb_members; [apply TripleSetFacts.wf_set | |].
    + unfold apply_diffs. rewrite fold_left_app. fold s. cbn [fold_left].
      by apply TripleSetFacts.wf_difference, TripleSetFacts.wf_union.
    + intros t. by rewrite Hall.
  - intros t. by rewrite Hall, TripleSetFacts.contains_set.
Qed.

End Engine.

Lemma sample_yielded :
  WikidatedRevision.Make Examples.Q1 (Examples.meta 13) [Examples.A] []
  ∈ yielded (_iter_wikidated_revisions Examples.converter
               [Examples.r10; Examples.r11; Examples.r12; Examples.r13]).
Proof.
  assert (yielded (_iter_wikidated_revisions Examples.converter
                     [Examples.r10; Examples.r11; Examples.r12; Examples.r13])
          = Examples.diffs) as -> by (vm_compute; reflexivity).
  apply list_elem_of_further, list_elem_of_further, list_elem_of_here.
Defined.

(** The third diff of the sample deletes [A] and adds nothing. *)
Lemma sample_disjoint :
  WikidatedRevision.Make Examples.Q1 (Examples.meta 13) [Examples.A] []
  ∈ yielded (_iter_wikidated_revisions Examples.converter
               [Examples.r10; Examples.r11; Examples.r12; Examples.r13])
  /\ (forall t,
        TripleSet.contains [] t && TripleSet.contains [Examples.A] t = false)
  /\ TripleSet.wf [Examples.A].
Proof.
  split; [exact sample_yielded|].
  destruct (diff_additions_deletions_disjoint Examples.converter _ _ sample_yielded)
    as (H1 & _ & H3).
  split; [exact H1 | exact H3].
Defined.

Lemma sample_same_triples (t : WikidataRdfTriple) :
  TripleSet.contains [Examples.B; Examples.C] t
  = TripleSet.contains [Examples.C; Examples.B'] t.
Proof.
  unfold TripleSet.contains. cbn [existsb].
  rewrite (TripleFacts.eq_sym Examples.B t), (TripleFacts.eq_sym Examples.B' t).
  rewrite (TripleFacts.eq_compat Examples.B Examples.B' t eq_refl).
  by destruct (__eq__ t Examples.B'), (__eq__ Examples.C t).
Defined.

(** The revision [r14] says what [r13] says: its diff is empty. *)
Lemma sample_unchanged :
  exists d1 d2 later,
    yielded (_iter_wikidated_revisions Examples.converter
               ([Examples.r10; Examples.r11]
                ++ Examples.r13 :: [Examples.r12] ++ Samples.r14 :: []))
    = yielded (_iter_wikidated_revisions Examples.converter
                 [Examples.r10; Examples.r11]) ++ d1 :: d2 :: later
    /\ WikidatedRevision.revision d1 = Examples.meta 13
    /\ WikidatedRevision.revision d2 = Examples.meta 14
    /\ WikidatedRevision.triple_additions d2 = []
    /\ WikidatedRevision.triple_deletions d2 = [].
Proof.
  apply (unchanged_revision_empty_diff Examples.converter
           [Examples.r10; Examples.r11] [Examples.r12] [] Examples.r13 Samples.r14
           (WikidataRdfRevision.Make Examples.Q1 (Examples.meta 13)
              [Examples.B; Examples.C])
           (WikidataRdfRevision.Make Examples.Q1 (Examples.meta 14)
              [Examples.C; Examples.B'])).
  - vm_compute. reflexivity.
  - vm_compute. reflexivity.
  - constructor; [|constructor]. eexists. vm_compute. reflexivity.
  - vm_compute. reflexivity.
  - exact sample_same_triples.
Defined.

(** The three diffs of the sample give back the triples of [r13]. *)
Lemma sample_reconstruct :
  exists d later,
    yielded (_iter_wikidated_revisions Examples.converter
               ([Examples.r10; Examples.r11; Examples.r12] ++ Examples.r13 :: []))
    = yielded (_iter_wikidated_revisions Examples.converter
                 [Examples.r10; Examples.r11; Examples.r12]) ++ d :: later
    /\ WikidatedRevision.revision d = Examples.meta 13
    /\ TripleSet.eqb (TripleSet.set_ [Examples.B; Examples.C])
         (apply_diffs
            (yielded (_iter_wikidated_revisions Examples.converter
                        [Examples.r10; Examples.r11; Examples.r12]) ++ [d]))
       = true
    /\ forall t,
         TripleSet.contains
           (apply_diffs
              (yielded (_iter_wikidated_revisions Examples.converter
                          [Examples.r10; Examples.r11; Examples.r12]) ++ [d])) t
         = TripleSet.contains [Examples.B; Examples.C] t.
Proof.
  apply (diffs_reconstruct_revision Examples.converter
           [Examples.r10; Examples.r11; Examples.r12] [] Examples.r13
           (WikidataRdfRevision.Make Examples.Q1 (Examples.meta 13)
              [Examples.B; Examples.C])).
  - vm_compute. reflexivity.
  - vm_compute. reflexivity.
Defined.

End DiffMore.

(** ** Grouping the revisions by entity *)

Module GroupFacts.
Import Dataset.

(** The groups of [groupby], one after the other, are the input. *)
Lemma groupby_concat (revisions : list WikidataRawRevision.t) :
  concat (groupby revisions).*2 = revisions.
Proof.
  induction revisions as [|r revisions IH]; [done|]. simpl.
  destruct (groupby revisions) as [|[key g] groups]; simpl in *.
  - by rewrite <- IH.
  - destruct (decide _); simpl; by rewrite <- IH.
Qed.

(** X8. [groupby] cuts the revisions into runs: the groups put one after the
    other are the input, no group is empty, the revisions of a group are
    those of its entity, and two groups that follow each other are of
    different entities. *)
Theorem groupby_partition (revisions : list WikidataRawRevision.t) :
  concat (groupby revisions).*2 = revisions
  /\ Forall (fun kg => kg.2 <> []
                       /\ Forall (fun r => WikidataRawRevision.entity r = kg.1) kg.2)
       (groupby revisions)
  /\ (forall i kg1 kg2,
        groupby revisions !! i = Some kg1 ->
        groupby revisions !! S i = Some kg2 ->
        kg1.1 <> kg2.1).
Proof.
  split; [apply groupby_concat|].
  induction revisions as [|r revisions [IH1 IH2]]; [by split|]. simpl.
  destruct (groupby revisions) as [|[key g] groups].
  - split; [by repeat constructor|]. by intros [|i] ? ?.
  - destruct (decide _) as [Hkey|Hkey].
    + apply Forall_cons in IH1 as [[_ Hg] Hgroups]. simpl in Hg. split.
      * constructor; [|done]. split; [done|]. by constructor.
      * intros [|i] kg1 kg2 H1 H2.
        -- injection H1 as <-. apply (IH2 O (key, g) kg2); [done|exact H2].
        -- apply (IH2 (S i) kg1 kg2 H1 H2).
    + split.
      * constructor; [|done]. split; [done|]. by constructor.
      * intros [|i] kg1 kg2 H1 H2.
        -- injection H1 as <-. injection H2 as <-. exact Hkey.
        -- apply (IH2 i kg1 kg2 H1 H2).
Qed.

End GroupFacts.

(** ** More on [build] *)

Module BuildMore.
Import RdfConverter Dataset.

Section Builder.

Variable rdf_converter : WikidataRawRevision.t -> result WikidataRdfRevision.t.
Variable json : WikidatedRevision.t -> string.

Abbreviation entities := (build_entities rdf_converter json).
Abbreviation iter := (_iter_wikidated_revisions rdf_converter).
Abbreviation converts :=
  (fun r => match rdf_converter r with Ok _ => true | Raise _ => false end).
Abbreviation meta_in :=
  (fun r : WikidataRawRevision.t =>
     (WikidataRawRevision.entity r, WikidataRawRevision.revision r)).
Abbreviation meta_out :=
  (fun d : WikidatedRevision.t =>
     (WikidatedRevision.entity d, WikidatedRevision.revision d)).
Abbreviation members fs p := (default ∅ (Fs.files fs !! p)).
Abbreviation file := _entity_file_name_from_page_id.

(** The diffs of the loop are those of the revisions that convert, in their
    order, up to the exception that stops the loop. *)
Lemma iter_from_metas (state : TripleSet.t) (revisions : list WikidataRawRevision.t) :
  meta_out <$> yielded (iter_wikidated_revisions_from rdf_converter state revisions)
    `prefix_of` meta_in <$> List.filter converts revisions
  /\ (raised (iter_wikidated_revisions_from rdf_converter state revisions) = None ->
      meta_out <$> yielded (iter_wikidated_revisions_from rdf_converter state revisions)
      = meta_in <$> List.filter converts revisions).
Proof.
  revert state. induction revisions as [|r revisions IH]; intros state.
  - split; [apply prefix_nil | done].
  - cbn [iter_wikidated_revisions_from List.filter].
    destruct (rdf_converter r) as [rdf|e].
    + destruct (IH (TripleSet.set_ (WikidataRdfRevision.triples rdf))) as [IH1 IH2].
      cbn [yielded raised]. rewrite !fmap_cons. split.
      * by apply prefix_cons.
      * intros Hr. by rewrite (IH2 Hr).
    + destruct e; try (split; [apply prefix_nil | done]). apply IH.
Qed.

(** The loop over the entities, unfolded once. *)
Lemma entities_cons (tmp_path : Path.t) (fs : Fs.t)
    (entity_meta : WikidataEntityMeta.t) (revisions : list WikidataRawRevision.t)
    (groups : list (WikidataEntityMeta.t * list WikidataRawRevision.t)) :
  entities tmp_path fs ((entity_meta, revisions) :: groups)
  = match raised (iter revisions) with
    | Some _ =>
      (iter revisions,
       (build_entity rdf_converter json tmp_path fs entity_meta revisions).2)
    | None =>
      let rest :=
        entities tmp_path
          (build_entity rdf_converter json tmp_path fs entity_meta revisions).2
          groups in
      (Generated (yielded (iter revisions) ++ yielded rest.1) (raised rest.1), rest.2)
    end.
Proof.
  cbn [build_entities]. unfold build_entity.
  destruct (yielded (iter revisions)) eqn:Hy; cbn [fst snd];
    destruct (raised (iter revisions)); try done;
    destruct (build_entities _ _ _ _ _); cbn [fst snd]; by rewrite ?Hy.
Qed.

Lemma entities_metas (tmp_path : Path.t)
    (groups : list (WikidataEntityMeta.t * list WikidataRawRevision.t)) (fs : Fs.t) :
  meta_out <$> yielded (entities tmp_path fs groups).1
    `prefix_of` meta_in <$> List.filter converts (concat groups.*2)
  /\ (raised (entities tmp_path fs groups).1 = None ->
      meta_out <$> yielded (entities tmp_path fs groups).1
      = meta_in <$> List.filter converts (concat groups.*2)).
Proof.
  revert fs. induction groups as [|[entity_meta revisions] groups IH]; intros fs.
  - split; [apply prefix_nil | done].
  - rewrite entities_cons. cbn [fmap list_fmap concat fst snd].
    rewrite List.filter_app, fmap_app.
    destruct (iter_from_metas [] revisions) as [H1 H2].
    fold (iter revisions) in H1, H2.
    destruct (raised (iter revisions)) as [e|] eqn:Hr; cbn [fst snd yielded raised].
    + split; [by apply prefix_app_r | congruence].
    + rewrite fmap_app, (H2 eq_refl).
      match goal with |- context [entities tmp_path ?fs1 groups] =>
        destruct (IH fs1) as [IH1 IH2] end.
      split; [by apply prefix_app|].
      intros Hr2. by rewrite (IH2 Hr2).
Qed.

Lemma build_metas (self : _WikidatedEntityStreamsPartial) (fs : Fs.t) :
  meta_out <$> yielded (build rdf_converter json self fs).1
    `prefix_of` meta_in <$> List.filter converts (_pages_meta_history self)
  /\ (Fs.exists_ fs (_path self) = false ->
      raised (build rdf_converter json self fs).1 = None ->
      meta_out <$> yielded (build rdf_converter json self fs).1
      = meta_in <$> List.filter converts (_pages_meta_history self)).
Proof.
  unfold build. destruct (Fs.exists_ fs (_path self)).
  { split; [apply prefix_nil | done]. }
  destruct (Fs.mkdir fs _) as [fs1|e]; [|split; [apply prefix_nil | done]].
  destruct (entities_metas (tmp_path_of (_path self))
              (groupby (_pages_meta_history self)) fs1) as [H1 H2].
  rewrite GroupFacts.groupby_concat in H1, H2.
  destruct (entities _ fs1 _) as [out fs2]. cbn [fst snd] in *.
  destruct (raised out) eqn:Hr; cbn [fst].
  - split; [done | intros _ Hn; congruence].
  - destruct (Fs.rename fs2 _ _); cbn [fst yielded raised].
    + split; [done | intros _ _; by apply H2].
    + split; [done | by intros _ [=]].
Qed.

(** X9. [build] yields the diffs in the order of the input. The entities
    and revisions of the diffs are, in this order, those of the revisions of
    the partition that convert, from the first one up to where [build]
    stopped; and all of them when the archive was not there and [build]
    ended without an exception. *)
Theorem build_yields_in_input_order
    (self : _WikidatedEntityStreamsPartial) (fs : Fs.t) :
  meta_out <$> yielded (build rdf_converter json self fs).1
    `prefix_of` meta_in <$> List.filter converts (_pages_meta_history self)
  /\ (Fs.exists_ fs (_path self) = false ->
      raised (build rdf_converter json self fs).1 = None ->
      meta_out <$> yielded (build rdf_converter json self fs).1
      = meta_in <$> List.filter converts (_pages_meta_history self)).
Proof. apply build_metas. Qed.

(** *** The members of the archive *)

Lemma members_write (fs : Fs.t) (tmp_path f f' : Path.t) (content : string) :
  members (Fs.write fs tmp_path f content) tmp_path !! f'
  = if decide (f' = f) then Some content else members fs tmp_path !! f'.
Proof.
  unfold Fs.write. cbn [Fs.files]. rewrite lookup_insert_eq. simpl default.
  destruct (decide (f' = f)) as [->|Hne].
  - by rewrite lookup_insert_eq.
  - by rewrite lookup_insert_ne.
Qed.

(** The diffs of a group of revisions of one entity are diffs of that
    entity. *)
Lemma yielded_entity (entity_meta : WikidataEntityMeta.t)
    (revisions : list WikidataRawRevision.t) (d : WikidatedRevision.t) :
  Forall (fun r => WikidataRawRevision.entity r = entity_meta) revisions ->
  d ∈ yielded (iter revisions) ->
  WikidatedRevision.entity d = entity_meta.
Proof.
  intros Hall Hd.
  destruct (BuildFacts.yielded_converted rdf_converter [] revisions d Hd)
    as (r & rdf & Hr & _ & ->).
  by apply (proj1 (Forall_forall _ _) Hall).
Qed.

Abbreviation grouped := Reader.grouped.

Lemma grouped_groupby (revisions : list WikidataRawRevision.t) :
  grouped (groupby revisions).
Proof.
  apply Forall_forall. intros [entity_meta group] Hin. apply Forall_forall.
  intros r Hr. by apply (BuildFacts.groupby_group revisions entity_meta group Hin).
Qed.

(** After the step of one entity, the members of the temporary archive are
    the ones it had and the member of the entity, if the entity has a diff. *)
Lemma entity_members (tmp_path : Path.t) (fs : Fs.t)
    (entity_meta : WikidataEntityMeta.t) (revisions : list WikidataRawRevision.t)
    (f : Path.t) :
  Forall (fun r => WikidataRawRevision.entity r = entity_meta) revisions ->
  is_Some (members (build_entity rdf_converter json tmp_path fs entity_meta revisions).2
             tmp_path !! f)
  <-> is_Some (members fs tmp_path !! f)
      \/ exists d, d ∈ yielded (iter revisions)
                   /\ f = file (WikidataEntityMeta.page_id (WikidatedRevision.entity d)).
Proof.
  intros Hall. pose proof (yielded_entity entity_meta revisions) as Hent.
  unfold build_entity. destruct (yielded (iter revisions)) as [|d0 ds]; cbn [snd].
  - split; [by left|]. intros [H|(d & Hd & _)]; [done|]. by apply elem_of_nil in Hd.
  - rewrite members_write.
    destruct (decide (f = file (WikidataEntityMeta.page_id entity_meta))) as [->|Hne].
    + split; [|by eexists]. intros _. right. exists d0.
      split; [left|]. rewrite (Hent d0 Hall); [done | left].
    + split; [by left|]. intros [H|(d & Hd & ->)]; [done|].
      by rewrite (Hent d Hall Hd) in Hne.
Qed.

(** After the loop over the entities, the members of the temporary archive
    are the ones it had and a member for each entity of which a diff was
    yielded. *)
Lemma entities_members (tmp_path : Path.t)
    (groups : list (WikidataEntityMeta.t * list WikidataRawRevision.t))
    (fs : Fs.t) (f : Path.t) :
  grouped groups ->
  is_Some (members (entities tmp_path fs groups).2 tmp_path !! f)
  <-> is_Some (members fs tmp_path !! f)
      \/ exists d, d ∈ yielded (entities tmp_path fs groups).1
                   /\ f = file (WikidataEntityMeta.page_id (WikidatedRevision.entity d)).
Proof.
  intros Hgrouped. revert fs.
  induction Hgrouped as [|[entity_meta revisions] groups Hgroup _ IH]; intros fs.
  - cbn [build_entities fst snd yielded]. split; [by left|].
    intros [H|(d & Hd & _)]; [done|]. by apply elem_of_nil in Hd.
  - rewrite entities_cons. cbn [fst snd] in Hgroup.
    pose proof (entity_members tmp_path fs entity_meta revisions f Hgroup) as Hstep.
    destruct (raised (iter revisions)); cbn [fst snd yielded]; [done|].
    rewrite IH, Hstep. setoid_rewrite elem_of_app. split.
    + intros [[H|(d & Hd & E)]|(d & Hd & E)];
        [by left | right; exists d; auto | right; exists d; auto].
    + intros [H|(d & [Hd|Hd] & E)];
        [left; by left | left; right; by exists d | right; by exists d].
Qed.

Lemma names_keys (archive : gmap Path.t string) (f : Path.t) :
  f ∈ (map_to_list archive).*1 <-> is_Some (archive !! f).
Proof.
  rewrite list_elem_of_fmap. split.
  - intros ([k v] & -> & Hin). apply elem_of_map_to_list in Hin. by eexists.
  - intros [v Hv]. exists (f, v). split; [done|]. by apply elem_of_map_to_list.
Qed.

(** The names of the members are read back as page ids. *)
Lemma mapM_page_ids (names : list Path.t) :
  (forall f, f ∈ names -> exists n, f = file n) ->
  exists ids, mapM _entity_page_id_from_file_name names = Ok ids
              /\ names = file <$> ids.
Proof.
  induction names as [|f names IH]; intros Hnames.
  - by exists [].
  - destruct (Hnames f) as [n ->]; [left|].
    destruct IH as (ids & Hids & ->); [intros f Hf; apply Hnames; by right|].
    exists (n :: ids). split; [|done].
    cbn [mapM]. unfold mbind, mret, result_bind, result_ret in *.
    by rewrite FileNameFacts.page_id_of_file_name, Hids.
Qed.

(** What a [build] that ends without exception has done. *)
Lemma build_success (self : _WikidatedEntityStreamsPartial) (fs : Fs.t) :
  Fs.exists_ fs (_path self) = false ->
  raised (build rdf_converter json self fs).1 = None ->
  exists fs1 archive,
    Fs.mkdir fs (Path.parent (tmp_path_of (_path self))) = Ok fs1
    /\ raised (entities (tmp_path_of (_path self)) fs1
                 (groupby (_pages_meta_history self))).1 = None
    /\ yielded (build rdf_converter json self fs).1
       = yielded (entities (tmp_path_of (_path self)) fs1
                    (groupby (_pages_meta_history self))).1
    /\ Fs.files (entities (tmp_path_of (_path self)) fs1
                   (groupby (_pages_meta_history self))).2
         !! tmp_path_of (_path self) = Some archive
    /\ Fs.files (build rdf_converter json self fs).2 !! _path self = Some archive.
Proof.
  intros Hex. unfold build. rewrite Hex.
  destruct (Fs.mkdir fs _) as [fs1|e]; [|done].
  destruct (entities _ fs1 _) as [out fs2] eqn:Hent. cbn [fst snd].
  destruct (raised out) eqn:Hr; cbn [fst]; [congruence|].
  unfold Fs.rename.
  destruct (Fs.files fs2 !! tmp_path_of (_path self)) as [archive|] eqn:Harchive;
    [|done].
  destruct (bool_decide _); [done|]. cbn [fst snd Fs.files]. intros _.
  exists fs1, archive. rewrite Hent. cbn [fst snd]. by rewrite lookup_insert_eq.
Qed.

(** X10. The archive lists the entities of the diffs. When the archive of
    the partition is not there, no temporary archive is left over from an
    earlier run and [build] ends without an exception, then [iter_page_ids]
    on the archive gives, each one once, the page ids of the entities of the
    diffs that [build] has yielded, and no other. *)
Theorem built_archive_page_ids (self : _WikidatedEntityStreamsPartial) (fs : Fs.t) :
  Fs.exists_ fs (_path self) = false ->
  Fs.files fs !! tmp_path_of (_path self) = None ->
  raised (build rdf_converter json self fs).1 = None ->
  exists ids,
    iter_page_ids (_path self) (build rdf_converter json self fs).2 = Ok ids
    /\ NoDup ids
    /\ forall n,
         n ∈ ids
         <-> exists d, d ∈ yielded (build rdf_converter json self fs).1
                       /\ WikidataEntityMeta.page_id (WikidatedRevision.entity d) = n.
Proof.
  intros Hex Htmp Hraised.
  destruct (build_success self fs Hex Hraised)
    as (fs1 & archive & Hmk & _ & -> & Harchive & Hfinal).
  pose proof (fun f => entities_members (tmp_path_of (_path self)) _ fs1 f
                         (grouped_groupby (_pages_meta_history self))) as Hmem.
  rewrite Harchive, (BuildFacts.mkdir_files _ _ _ Hmk), Htmp in Hmem.
  simpl default in Hmem.
  assert (forall f, is_Some (archive !! f)
                    <-> exists d, d ∈ yielded
                                    (entities (tmp_path_of (_path self)) fs1
                                       (groupby (_pages_meta_history self))).1
                                  /\ f = file (WikidataEntityMeta.page_id
                                                 (WikidatedRevision.entity d)))
    as Hkeys.
  { intros f. rewrite Hmem, lookup_empty. split; [|by right].
    intros [[? [=]]|H]; done. }
  clear Hmem.
  destruct (mapM_page_ids (map_to_list archive).*1) as (ids & Hids & Hnames).
  { intros f Hf%names_keys. apply Hkeys in Hf as (d & _ & ->). by eexists. }
  exists ids. unfold iter_page_ids, Fs.iter_file_names. rewrite Hfinal.
  unfold mbind, result_bind. split; [done|]. split.
  - apply (NoDup_fmap_1 file). rewrite <- Hnames. apply NoDup_fst_map_to_list.
  - intros n. etrans; [|etrans; [apply (Hkeys (file n))|]].
    + rewrite <- names_keys, Hnames. split; [apply list_elem_of_fmap_2|].
      intros (m & E & Hm)%list_elem_of_fmap_1.
      by rewrite (FileNameFacts.file_name_inj _ _ E).
    + split; intros (d & Hd & E); exists d; (split; [done|]).
      * symmetry. by apply FileNameFacts.file_name_inj.
      * by rewrite E.
Qed.

(** *** Reading back what was written *)

Variable parse_raw : string -> result WikidatedRevision.t.

Abbreviation page_id_of kg := (WikidataEntityMeta.page_id (fst kg)).
Abbreviation line_of d := (json d +:+ String (ascii_of_nat 10) "").

Lemma lines_from_line (s cur rest : string) :
  Reader.one_line s = true ->
  Reader.lines_from cur (s +:+ String (ascii_of_nat 10) rest)
  = (cur +:+ s +:+ String (ascii_of_nat 10) "") :: Reader.lines_from "" rest.
Proof.
  revert cur. induction s as [|c s IH]; intros cur Hs.
  - reflexivity.
  - cbn [Reader.one_line Str.all] in Hs.
    apply andb_true_iff in Hs as [Hc Hs].
    apply andb_true_iff in Hc as [Hc%negb_true_iff _].
    rewrite StrFacts.app_cons. cbn [Reader.lines_from]. rewrite Hc.
    rewrite (IH _ Hs), StrFacts.app_assoc. by rewrite StrFacts.app_cons.
Qed.

(** The lines of the text of a member are the lines of its diffs. *)
Lemma lines_content (ds : list WikidatedRevision.t) :
  Forall (fun d => Reader.one_line (json d) = true) ds ->
  Reader.lines (member_content json ds) = (fun d => line_of d) <$> ds.
Proof.
  unfold Reader.lines, member_content.
  induction 1 as [|d ds Hd _ IH]; [done|].
  rewrite !fmap_cons, ParseFacts.concat_cons, StrFacts.app_assoc.
  rewrite StrFacts.app_cons.
  change ("" +:+ ?x) with x.
  by rewrite (lines_from_line _ _ _ Hd), IH.
Qed.

Lemma yield_each_parse (ds : list WikidatedRevision.t) :
  Forall (fun d => parse_raw (line_of d) = Ok d) ds ->
  Reader.yield_each parse_raw ((fun d => line_of d) <$> ds) = Generated ds None.
Proof.
  induction 1 as [|d ds Hd _ IH]; [done|].
  rewrite fmap_cons. cbn [Reader.yield_each]. by rewrite Hd, IH.
Qed.

(** The diffs of the loop over the entities are diffs of the entities of
    the groups. *)
Lemma yielded_page_id (tmp_path : Path.t) (fs : Fs.t)
    (groups : list (WikidataEntityMeta.t * list WikidataRawRevision.t))
    (d : WikidatedRevision.t) :
  grouped groups ->
  d ∈ yielded (entities tmp_path fs groups).1 ->
  WikidataEntityMeta.page_id (WikidatedRevision.entity d)
  ∈ (fun kg => page_id_of kg) <$> groups.
Proof.
  intros Hgrouped Hd.
  destruct (BuildFacts.build_entities_yielded rdf_converter json tmp_path fs groups d Hd)
    as (entity_meta & revisions & Hin & Hd').
  apply list_elem_of_fmap. exists (entity_meta, revisions). split; [|done].
  cbn [fst]. f_equal. apply (yielded_entity entity_meta revisions d); [|done].
  apply (proj1 (Forall_forall _ _) Hgrouped (entity_meta, revisions) Hin).
Qed.

Lemma of_page_all (n : Z) (ds : list WikidatedRevision.t) :
  (forall d, d ∈ ds -> WikidataEntityMeta.page_id (WikidatedRevision.entity d) = n) ->
  Reader.of_page n ds = ds.
Proof.
  unfold Reader.of_page. induction ds as [|d ds IH]; intros Hds; [done|].
  cbn [List.filter]. rewrite (proj2 (Z.eqb_eq _ _) (Hds d ltac:(left))).
  f_equal. apply IH. intros d' Hd'. apply Hds. by right.
Qed.

Lemma of_page_none (n : Z) (ds : list WikidatedRevision.t) :
  (forall d, d ∈ ds -> WikidataEntityMeta.page_id (WikidatedRevision.entity d) <> n) ->
  Reader.of_page n ds = [].
Proof.
  unfold Reader.of_page. induction ds as [|d ds IH]; intros Hds; [done|].
  cbn [List.filter]. rewrite (proj2 (Z.eqb_neq _ _) (Hds d ltac:(left))).
  apply IH. intros d' Hd'. apply Hds. by right.
Qed.

(** When no page comes back after the revisions of another page, the loop
    over the entities leaves, for each page, a member with the lines of the
    diffs of the page, and no member when the page has no diff. *)
Lemma entities_content (tmp_path : Path.t)
    (groups : list (WikidataEntityMeta.t * list WikidataRawRevision.t)) :
  grouped groups ->
  NoDup ((fun kg => page_id_of kg) <$> groups) ->
  forall fs n,
    raised (entities tmp_path fs groups).1 = None ->
    members (entities tmp_path fs groups).2 tmp_path !! file n
    = match Reader.of_page n (yielded (entities tmp_path fs groups).1) with
      | [] => members fs tmp_path !! file n
      | (_ :: _) as ds => Some (member_content json ds)
      end.
Proof.
  intros Hgrouped.
  induction Hgrouped as [|[entity_meta revisions] groups Hgroup Hgroups IH];
    intros Hnodup fs n; [done|].
  rewrite fmap_cons in Hnodup. apply NoDup_cons in Hnodup as [Hnotin Hnodup].
  cbn [fst snd] in Hgroup, Hnotin.
  rewrite entities_cons.
  destruct (raised (iter revisions)) eqn:Hr; cbn [fst snd yielded raised];
    [intros; congruence|].
  intros Hrest. unfold Reader.of_page. rewrite List.filter_app.
  fold (Reader.of_page n (yielded (iter revisions))).
  match goal with |- context [List.filter _ (yielded ?out)] =>
    fold (Reader.of_page n (yielded out)) end.
  rewrite (IH Hnodup _ n Hrest).
  pose proof (yielded_entity entity_meta revisions) as Hent.
  destruct (decide (WikidataEntityMeta.page_id entity_meta = n)) as [<-|Hne].
  - rewrite (of_page_all _ (yielded (iter revisions)))
      by (intros d Hd; by rewrite (Hent d Hgroup Hd)).
    match goal with |- context [Reader.of_page _ (yielded ?out)] =>
      rewrite (of_page_none _ (yielded out)) end.
    2: { intros d Hd E. apply Hnotin. rewrite <- E.
         exact (yielded_page_id tmp_path _ groups d Hgroups Hd). }
    rewrite app_nil_r. unfold build_entity.
    destruct (yielded (iter revisions)); cbn [snd]; [done|].
    by rewrite members_write, decide_True.
  - rewrite (of_page_none _ (yielded (iter revisions)))
      by (intros d Hd; by rewrite (Hent d Hgroup Hd)).
    cbn [app].
    assert (members (build_entity rdf_converter json tmp_path fs entity_meta revisions).2
              tmp_path !! file n
            = members fs tmp_path !! file n) as ->; [|done].
    unfold build_entity. destruct (yielded (iter revisions)); cbn [snd]; [done|].
    rewrite members_write, decide_False; [done|].
    intros E. apply Hne. symmetry. by apply FileNameFacts.file_name_inj.
Qed.

(** X11. What [build] has written is read back. Let the archive of the
    partition not be there, no temporary archive be left over, [build] end
    without an exception, no page come back after the revisions of another
    page, and let the line of every diff be a single line that [parse_raw]
    reads back. Then [iter_revisions] on the archive gives, for a page id,
    the diffs of this page that [build] has yielded, in their order, and
    fails when there is none. *)
Theorem built_archive_read_back
    (self : _WikidatedEntityStreamsPartial) (fs : Fs.t) (n : Z) :
  Fs.exists_ fs (_path self) = false ->
  Fs.files fs !! tmp_path_of (_path self) = None ->
  raised (build rdf_converter json self fs).1 = None ->
  NoDup ((fun kg => page_id_of kg) <$> groupby (_pages_meta_history self)) ->
  Forall (fun d => Reader.one_line (json d) = true
                   /\ parse_raw (line_of d) = Ok d)
    (yielded (build rdf_converter json self fs).1) ->
  Reader.iter_revisions parse_raw (_path self) n (build rdf_converter json self fs).2
  = match Reader.of_page n (yielded (build rdf_converter json self fs).1) with
    | [] => Generated [] (Some FileNotFoundError)
    | (_ :: _) as ds => Generated ds None
    end.
Proof.
  intros Hex Htmp Hraised Hnodup Hjson.
  destruct (build_success self fs Hex Hraised)
    as (fs1 & archive & Hmk & Hloop & Hyielded & Harchive & Hfinal).
  rewrite Hyielded in *.
  pose proof (entities_content (tmp_path_of (_path self)) _
                (grouped_groupby (_pages_meta_history self)) Hnodup fs1 n Hloop)
    as Hcontent.
  rewrite Harchive, (BuildFacts.mkdir_files _ _ _ Hmk), Htmp in Hcontent.
  simpl default in Hcontent. rewrite lookup_empty in Hcontent.
  unfold Reader.iter_revisions, Reader.read. rewrite Hfinal, Hcontent.
  assert (Forall (fun d => Reader.one_line (json d) = true
                           /\ parse_raw (line_of d) = Ok d)
            (Reader.of_page n
               (yielded (entities (tmp_path_of (_path self)) fs1
                           (groupby (_pages_meta_history self))).1))) as Hpage.
  { apply Forall_forall. intros d Hd. apply (proj1 (Forall_forall _ _) Hjson).
    apply list_elem_of_In. apply list_elem_of_In in Hd.
    unfold Reader.of_page in Hd. apply filter_In in Hd. tauto. }
  destruct (Reader.of_page n _) as [|d ds]; [done|].
  rewrite lines_content, yield_each_parse; [done|..].
  - eapply Forall_impl; [exact Hpage|]. by intros ? [_ ?].
  - eapply Forall_impl; [exact Hpage|]. by intros ? [? _].
Qed.

End Builder.

Lemma sample_no_archive :
  Fs.exists_ Examples.empty_fs (_path Examples.partial_1_100) = false.
Proof. vm_compute. reflexivity. Defined.

Lemma sample_no_temporary :
  Fs.files Examples.empty_fs !! tmp_path_of (_path Examples.partial_1_100) = None.
Proof. vm_compute. reflexivity. Defined.

Lemma sample_no_exception :
  raised (build Examples.converter Examples.json Examples.partial_1_100
            Examples.empty_fs).1 = None.
Proof. vm_compute. reflexivity. Defined.

(** The archive of the sample partition lists the page of [Q1] only. *)
Lemma sample_page_ids :
  exists ids,
    iter_page_ids (_path Examples.partial_1_100)
      (build Examples.converter Examples.json Examples.partial_1_100
         Examples.empty_fs).2 = Ok ids
    /\ NoDup ids
    /\ forall n,
         n ∈ ids
         <-> exists d,
               d ∈ yielded (build Examples.converter Examples.json
                              Examples.partial_1_100 Examples.empty_fs).1
               /\ WikidataEntityMeta.page_id (WikidatedRevision.entity d) = n.
Proof.
  exact (built_archive_page_ids Examples.converter Examples.json
           Examples.partial_1_100 Examples.empty_fs
           sample_no_archive sample_no_temporary sample_no_exception).
Defined.

Lemma sample_pages_apart :
  NoDup ((fun kg => WikidataEntityMeta.page_id kg.1)
           <$> groupby (_pages_meta_history Examples.partial_1_100)).
Proof. apply (bool_decide_unpack _). vm_compute. exact I. Defined.

Lemma sample_lines :
  Forall (fun d => Reader.one_line (Examples.json d) = true
                   /\ Samples.parse_raw
                        (Examples.json d +:+ String (ascii_of_nat 10) "") = Ok d)
    (yielded (build Examples.converter Examples.json Examples.partial_1_100
                Examples.empty_fs).1).
Proof.
  assert (yielded (build Examples.converter Examples.json Examples.partial_1_100
                     Examples.empty_fs).1 = Examples.diffs) as ->
    by (vm_compute; reflexivity).
  repeat constructor; vm_compute; reflexivity.
Defined.

(** The three diffs of [Q1] are read back from the archive of the sample
    partition. *)
Lemma sample_read_back :
  Reader.iter_revisions Samples.parse_raw (_path Examples.partial_1_100) 1
    (build Examples.converter Examples.json Examples.partial_1_100
       Examples.empty_fs).2
  = Generated Examples.diffs None.
Proof.
  etrans.
  - exact (built_archive_read_back Examples.converter Examples.json
             Samples.parse_raw Examples.partial_1_100 Examples.empty_fs 1
             sample_no_archive sample_no_temporary sample_no_exception
             sample_pages_apart sample_lines).
  - vm_compute. reflexivity.
Defined.

End BuildMore.

(** ** The parallel build *)

Module OrchestratorFacts.
Import Dataset Orchestrator.

Section Worker.

Variable rdf_converter : WikidataRawRevision.t -> result WikidataRdfRevision.t.
Variable json : WikidatedRevision.t -> string.

Abbreviation page_in r := (WikidataEntityMeta.page_id (WikidataRawRevision.entity r)).
Abbreviation page_out d := (WikidataEntityMeta.page_id (WikidatedRevision.entity d)).

Lemma elem_of_filter_fmap (b : WikidataRawRevision.t -> bool)
    (l : list WikidataRawRevision.t) (x : Z) :
  x ∈ (fun r => page_in r) <$> List.filter b l -> x ∈ (fun r => page_in r) <$> l.
Proof.
  intros (r & -> & Hr)%list_elem_of_fmap. apply list_elem_of_fmap.
  exists r. split; [done|]. apply list_elem_of_In.
  apply list_elem_of_In, filter_In in Hr. tauto.
Qed.

Lemma filter_sorted (b : WikidataRawRevision.t -> bool)
    (l : list WikidataRawRevision.t) :
  StronglySorted Z.le ((fun r => page_in r) <$> l) ->
  StronglySorted Z.le ((fun r => page_in r) <$> List.filter b l).
Proof.
  induction l as [|r l IH]; [done|]. rewrite fmap_cons.
  intros [Hall Hs]%StronglySorted_cons. cbn [List.filter].
  destruct (b r); [|by apply IH].
  rewrite fmap_cons. apply StronglySorted_cons. split; [|by apply IH].
  apply Forall_forall. intros x Hx%elem_of_filter_fmap.
  by apply (proj1 (Forall_forall _ _) Hall).
Qed.

(** The page ids of the diffs of [build] are, in this order, page ids of
    the revisions of the partition in their order. *)
Lemma build_page_ids (self : _WikidatedEntityStreamsPartial) (fs : Fs.t) :
  exists b k,
    (fun r => page_in r) <$> List.filter b (_pages_meta_history self)
    = ((fun d => page_out d) <$> yielded (build rdf_converter json self fs).1) ++ k.
Proof.
  destruct (BuildMore.build_metas rdf_converter json self fs) as [[k Hk] _].
  eexists _, ((fun m => WikidataEntityMeta.page_id m.1) <$> k).
  apply (f_equal (fmap (fun m : WikidataEntityMeta.t * WikidataRevisionMeta.t =>
                          WikidataEntityMeta.page_id m.1))) in Hk.
  rewrite fmap_app, <- !list_fmap_compose in Hk. exact Hk.
Qed.

(** X12. The progress of the build of a partition. Let the page ids of the
    revisions of the partition be in the range of the partition and never
    go down. Then the reports of [_build_entity_streams_partial] all carry
    the name of the archive and the length of the range as total, their
    counts begin with 0, stay between 0 and the total and never go down;
    the last report has the total as its count when the build ended without
    an exception, and when it ended with one every report after the first
    has a count below the total. *)
Theorem progress_reports (argument : _WikidatedEntityStreamsPartial) (fs : Fs.t) :
  Forall (fun r => (_page_id_range argument).1 <= page_in r
                   < (_page_id_range argument).2)
    (_pages_meta_history argument) ->
  StronglySorted Z.le ((fun r => page_in r) <$> _pages_meta_history argument) ->
  let name := Path.name (_path argument) in
  let total := range_len (_page_id_range argument) in
  let done := _build_entity_streams_partial rdf_converter json argument fs in
  head done.1.1 = Some (name, 0, total)
  /\ Forall (fun report => report.1.1 = name /\ report.2 = total
                           /\ 0 <= report.1.2 <= total) done.1.1
  /\ StronglySorted Z.le ((fun report => report.1.2) <$> done.1.1)
  /\ (done.1.2 = None -> last done.1.1 = Some (name, total, total))
  /\ (done.1.2 <> None -> Forall (fun report => report.1.2 < total) (tail done.1.1)).
Proof.
  intros Hrange Hsorted name total done.
  destruct (build_page_ids argument fs) as (b & k & Hk).
  assert (Forall (fun n => (_page_id_range argument).1 <= n
                           < (_page_id_range argument).2)
            ((fun d => page_out d)
               <$> yielded (build rdf_converter json argument fs).1)) as Hin.
  { apply Forall_forall. intros n Hn.
    assert (n ∈ (fun r => page_in r) <$> _pages_meta_history argument) as Hn'.
    { apply (elem_of_filter_fmap b). rewrite Hk. apply elem_of_app. by left. }
    apply list_elem_of_fmap in Hn' as (r & -> & Hr).
    by apply (proj1 (Forall_forall _ _) Hrange). }
  assert (StronglySorted Z.le
            ((fun d => page_out d)
               <$> yielded (build rdf_converter json argument fs).1)) as Hup.
  { apply (StronglySorted_app_1_l _ _ k). rewrite <- Hk. by apply filter_sorted. }
  clear Hk Hrange Hsorted.
  subst done. unfold _build_entity_streams_partial. fold name total.
  set (ds := yielded (build rdf_converter json argument fs).1) in *.
  set (start := (_page_id_range argument).1) in *.
  assert (forall n, n ∈ (fun d => page_out d) <$> ds -> 0 <= n - start < total)
    as Hbound.
  { intros n Hn. apply (proj1 (Forall_forall _ _) Hin) in Hn.
    unfold total, range_len. fold start. lia. }
  assert (0 <= total) as Htotal by (unfold total, range_len; lia).
  assert (Forall (fun report : string * Z * Z =>
                    report.1.1 = name /\ report.2 = total
                    /\ 0 <= report.1.2 < total)
            ((fun revision => (name, page_out revision - start, total)) <$> ds))
    as Hduring.
  { apply Forall_fmap, Forall_forall. intros d Hd. cbn [fst snd].
    split; [done|]. split; [done|]. apply Hbound.
    by apply (list_elem_of_fmap_2 (fun d => page_out d)). }
  assert (StronglySorted Z.le
            ((fun report : string * Z * Z => report.1.2)
               <$> ((fun revision => (name, page_out revision - start, total))
                      <$> ds))) as Hcounts.
  { rewrite <- list_fmap_compose.
    clear Hin Hbound Hduring. induction ds as [|d ds IH]; [constructor|].
    rewrite fmap_cons in Hup. apply StronglySorted_cons in Hup as [Hall Hup].
    rewrite fmap_cons. apply StronglySorted_cons. split; [|by apply IH].
    rewrite Forall_fmap. rewrite Forall_fmap in Hall.
    eapply Forall_impl; [exact Hall|]. intros d'. cbn. lia. }
  destruct (raised (build rdf_converter json argument fs).1) as [e|];
    cbn [fst snd head tail].
  - split; [done|]. split; [|split; [|split; [done|]]].
    + constructor; [cbn; repeat split; try done; lia|].
      eapply Forall_impl; [exact Hduring|]. cbn. intros ? (? & ? & ?).
      repeat split; try done; lia.
    + rewrite fmap_cons. apply StronglySorted_cons. split; [|done].
      apply Forall_fmap. eapply Forall_impl; [exact Hduring|]. cbn. lia.
    + intros _. eapply Forall_impl; [exact Hduring|]. cbn. lia.
  - split; [done|]. split; [|split; [|split; [|done]]].
    + constructor; [cbn; repeat split; try done; lia|]. apply Forall_app. split.
      * eapply Forall_impl; [exact Hduring|]. cbn. intros ? (? & ? & ?).
        repeat split; try done; lia.
      * constructor; [cbn; repeat split; try done; lia | constructor].
    + rewrite fmap_cons, fmap_app. apply StronglySorted_cons. split.
      * apply Forall_app. split; [|constructor; [cbn; lia | constructor]].
        apply Forall_fmap. eapply Forall_impl; [exact Hduring|]. cbn. lia.
      * apply StronglySorted_app_2; [|done|repeat constructor].
        intros x1 x2 (report & -> & Hr)%list_elem_of_fmap
          ->%list_elem_of_singleton.
        apply (proj1 (Forall_forall _ _) Hduring) in Hr. cbn. lia.
    + intros _. change (?x :: ?l ++ [?y]) with ((x :: l) ++ [y]).
      apply last_snoc.
Qed.

End Worker.

Lemma sample_pages_in_range :
  Forall (fun r => (_page_id_range Examples.partial_1_100).1
                   <= WikidataEntityMeta.page_id (WikidataRawRevision.entity r)
                   < (_page_id_range Examples.partial_1_100).2)
    (_pages_meta_history Examples.partial_1_100).
Proof.
  cbn. repeat first [apply List.Forall_nil | apply List.Forall_cons]; cbn; lia.
Defined.

Lemma sample_pages_in_order :
  StronglySorted Z.le
    ((fun r => WikidataEntityMeta.page_id (WikidataRawRevision.entity r))
       <$> _pages_meta_history Examples.partial_1_100).
Proof.
  cbn. repeat first [apply SSorted_nil | apply SSorted_cons
                     | apply List.Forall_nil | apply List.Forall_cons]; lia.
Defined.

(** The reports of the build of the sample partition: five of them, from 0
    up to the total 100. *)
Lemma sample_progress :
  (_build_entity_streams_partial Examples.converter Examples.json
     Examples.partial_1_100 Examples.empty_fs).1.1
  = [ ("wikidated-custom-20210601-entity-streams-p1-p100.7z", 0, 100);
      ("wikidated-custom-20210601-entity-streams-p1-p100.7z", 0, 100);
      ("wikidated-custom-20210601-entity-streams-p1-p100.7z", 0, 100);
      ("wikidated-custom-20210601-entity-streams-p1-p100.7z", 0, 100);
      ("wikidated-custom-20210601-entity-streams-p1-p100.7z", 100, 100) ]
  /\ StronglySorted Z.le
       ((fun report => report.1.2)
          <$> (_build_entity_streams_partial Examples.converter Examples.json
                 Examples.partial_1_100 Examples.empty_fs).1.1).
Proof.
  split; [vm_compute; reflexivity|].
  pose proof (progress_reports Examples.converter Examples.json
                Examples.partial_1_100 Examples.empty_fs
                sample_pages_in_range sample_pages_in_order) as H.
  cbv zeta in H. exact (proj1 (proj2 (proj2 H))).
Defined.

(** X13. [WikidatedDataset.build] does not come to an end without an
    exception when a stream is asked for: whatever the pool of workers does,
    the call returns only with both [entity_streams] and [global_stream]
    off, and then leaves the file system as it is. With [entity_streams] on
    and a pool that raises nothing, the call ends in the
    [NotImplementedError] of the merge, after the pool has done its work. *)
Theorem dataset_build_ends (pool : Fs.t -> option exception * Fs.t)
    (merged : _WikidataEntityStreamsMerged)
    (entity_streams global_stream : bool) (fs : Fs.t) :
  ((dataset_build pool merged entity_streams global_stream fs).1 = Ok tt
   <-> entity_streams = false /\ global_stream = false)
  /\ (entity_streams = false -> global_stream = false ->
      (dataset_build pool merged entity_streams global_stream fs).2 = fs)
  /\ (entity_streams = true -> (pool fs).1 = None ->
      dataset_build pool merged entity_streams global_stream fs
      = (Raise NotImplementedError, (pool fs).2)).
Proof.
  unfold dataset_build, merged_build.
  destruct entity_streams, global_stream, (pool fs) as [[e|] fs1]; cbn;
    repeat split; try done; try (by intros []); intros; congruence.
Qed.

End OrchestratorFacts.

(** ** The paths of the archives *)

Module PathFacts.
Import Dataset.

Abbreviation without c := (fun ch : ascii => negb (Ascii.eqb ch c)).

(** The name of the archive of a partition, as [__init__] puts it together. *)
Abbreviation partial_name N r :=
  (N +:+ "-entity-streams" +:+ "-p" +:+ Str.of_int (fst r)
   +:+ "-p" +:+ Str.of_int (snd r - 1) +:+ ".7z").

Lemma append_inv_head (s a b : string) : s +:+ a = s +:+ b -> a = b.
Proof.
  induction s as [|c s IH]; [done|]. rewrite !StrFacts.app_cons.
  intros [= E]. by apply IH.
Qed.

Lemma append_inv_last (c : ascii) (s t : string) :
  s +:+ String c "" = t +:+ String c "" -> s = t.
Proof.
  revert t. induction s as [|d s IH]; intros [|e t]; rewrite ?StrFacts.app_cons.
  - done.
  - intros [= _ E]. by destruct t.
  - intros [= _ E]. by destruct s.
  - intros [= -> E]. by rewrite (IH t E).
Qed.

(** Strings that are equal and have the character [c] after parts without
    [c] have the same parts. *)
Lemma split_at_char (c : ascii) (x y u v : string) :
  Str.all (without c) x = true -> Str.all (without c) y = true ->
  x +:+ String c u = y +:+ String c v -> x = y /\ u = v.
Proof.
  revert y. induction x as [|d x IH]; intros [|e y] Hx Hy;
    rewrite ?StrFacts.app_cons; cbn [Str.all] in Hx, Hy.
  - by intros [= ->].
  - intros [= <- _]. by rewrite Ascii.eqb_refl in Hy.
  - intros [= -> _]. by rewrite Ascii.eqb_refl in Hx.
  - apply andb_true_iff in Hx as [_ Hx], Hy as [_ Hy].
    intros [= -> E]. by destruct (IH y Hx Hy E) as [-> ->].
Qed.

(** The decimal string of an integer holds digits and [-] only. *)
Lemma of_int_without (c : ascii) (n : Z) :
  Str.is_digit c = false -> c <> "-"%char ->
  Str.all (without c) (Str.of_int n) = true.
Proof.
  intros Hc Hminus.
  assert (forall d, Str.all (without c) (NilEmpty.string_of_uint d) = true) as Hd.
  { intros d. generalize (FileNameFacts.digits_of_uint d).
    apply FileNameFacts.all_impl.
    intros e He. apply negb_true_iff, Ascii.eqb_neq. intros ->. congruence. }
  unfold Str.of_int. destruct n as [|p|p].
  - exact (Hd (Decimal.D0 Decimal.Nil)).
  - apply Hd.
  - cbn [Z.to_int NilEmpty.string_of_int Str.all]. rewrite Hd, andb_true_r.
    apply negb_true_iff, Ascii.eqb_neq. congruence.
Qed.

Lemma of_int_inj (n m : Z) : Str.of_int n = Str.of_int m -> n = m.
Proof.
  intros E. pose proof (FileNameFacts.to_int_of_int n) as Hn.
  rewrite E, FileNameFacts.to_int_of_int in Hn. congruence.
Qed.

(** The names of the archives of two partitions are the same only for the
    same range. *)
Lemma partial_name_inj (N : string) (r r' : Z * Z) :
  partial_name N r = partial_name N r' -> r = r'.
Proof.
  intros E. do 3 apply append_inv_head in E.
  change ("-p" +:+ ?R) with (String "-" (String "p" R)) in E.
  assert (forall s R, s +:+ String "-" (String "p" R)
                      = (s +:+ "-") +:+ String "p" R) as Hassoc
    by (intros s R; by rewrite StrFacts.app_assoc).
  rewrite !Hassoc in E.
  apply split_at_char in E as [E1 E2];
    [|by rewrite FileNameFacts.all_app, of_int_without..].
  apply append_inv_last, of_int_inj in E1.
  change ".7z" with (String "." "7z") in E2.
  apply split_at_char in E2 as [E2 _]; [|by rewrite of_int_without..].
  apply of_int_inj in E2. destruct r, r'; cbn [fst snd] in *. f_equal; lia.
Qed.

(** A word without [-] before a string and a tail is never the string and a
    tail that begins with [-]. *)
Lemma rotate_ne (N : string) (w A B : string) :
  w <> "" -> Str.all (without "-") w = true ->
  w +:+ N +:+ A <> N +:+ String "-" B.
Proof.
  revert w. induction N as [|c N IH]; intros [|d w] Hne Hw; try done.
  - cbn [Str.all] in Hw. rewrite !StrFacts.app_cons. intros [= -> _].
    discriminate Hw.
  - rewrite !StrFacts.app_cons. intros [= -> E].
    apply (IH (w +:+ String c "")).
    + by destruct w.
    + cbn [Str.all] in Hw. apply andb_true_iff in Hw as [Hc Hw].
      rewrite FileNameFacts.all_app, Hw. cbn [Str.all]. by rewrite Hc.
    + by rewrite StrFacts.app_assoc.
Qed.

Lemma name_snoc (dir : Path.t) (s : string) :
  s <> "/" -> Path.name (dir ++ [s]) = s.
Proof.
  intros Hs. destruct dir as [|c dir]; [by apply FileNameFacts.name_single|].
  unfold Path.name. rewrite last_last.
  replace (List.length ((c :: dir) ++ [s]) =? 1)%nat with false;
    [by rewrite andb_false_r|].
  symmetry. apply Nat.eqb_neq. rewrite List.length_app. simpl. lia.
Qed.

Lemma parent_snoc (dir : Path.t) (s : string) :
  s <> "/" -> Path.parent (dir ++ [s]) = dir.
Proof.
  intros Hs. unfold Path.parent. rewrite removelast_last.
  destruct dir as [|c dir].
  - simpl. by destruct (String.eqb_spec s "/").
  - replace (List.length ((c :: dir) ++ [s]) =? 1)%nat with false;
      [by rewrite andb_false_r|].
    symmetry. apply Nat.eqb_neq. rewrite List.length_app. simpl. lia.
Qed.

(** A component without slash under a directory. *)
Lemma truediv_single (dir : Path.t) (s : string) :
  Str.all FileNameFacts.not_slash s = true -> s <> "" -> s <> "." ->
  Path.truediv dir s = dir ++ [s] /\ s <> "/".
Proof.
  intros Hs Hne Hdot.
  assert (s <> "/") as Hslash by (intros ->; discriminate Hs).
  split; [|done]. unfold Path.truediv.
  rewrite (FileNameFacts.of_str_single s Hs Hne Hdot). simpl.
  by destruct (String.eqb_spec s "/").
Qed.

Lemma partial_path (dataset_dir : Path.t) (r : Z * Z)
    (pages_meta_history : list WikidataRawRevision.t) :
  Path.plain_name dataset_dir ->
  _path (Partial_init dataset_dir r pages_meta_history)
  = dataset_dir ++ [partial_name (Path.name dataset_dir) r]
  /\ Str.all FileNameFacts.not_slash (partial_name (Path.name dataset_dir) r) = true
  /\ partial_name (Path.name dataset_dir) r <> "/".
Proof.
  intros Hplain.
  assert (Str.all FileNameFacts.not_slash (partial_name (Path.name dataset_dir) r)
          = true) as Hall.
  { rewrite !FileNameFacts.all_app, Hplain, !FileNameFacts.of_int_no_slash. done. }
  split; [|split; [done|]]; unfold Partial_init; cbn [_path];
    apply truediv_single; try done;
    intros E; apply (f_equal String.length) in E;
    rewrite StrFacts.length_app in E; simpl in E; lia.
Qed.

Lemma merged_path_parts (dataset_dir : Path.t)
    (partials : list _WikidatedEntityStreamsPartial) :
  Path.plain_name dataset_dir ->
  merged_path (Merged_init dataset_dir partials)
  = dataset_dir ++ [Path.name dataset_dir +:+ "-entity-streams.7z"].
Proof.
  intros Hplain. unfold Merged_init. cbn [merged_path].
  apply truediv_single.
  - by rewrite FileNameFacts.all_app, Hplain.
  - intros E. apply (f_equal String.length) in E.
    rewrite StrFacts.length_app in E. simpl in E. lia.
  - intros E. apply (f_equal String.length) in E.
    rewrite StrFacts.length_app in E. simpl in E. lia.
Qed.

(** X14. Where [__init__] puts the archive of a partition. When the name of
    the directory of the dataset holds no slash, the archive is directly in
    this directory, its name is the name of the directory followed by
    [-entity-streams-p<start>-p<stop-1>.7z] and holds no slash, and the
    temporary archive of [build] is in the same directory, under this name
    after [tmp.]. *)
Theorem partial_path_layout (dataset_dir : Path.t) (r : Z * Z)
    (pages_meta_history : list WikidataRawRevision.t) :
  Path.plain_name dataset_dir ->
  let self := Partial_init dataset_dir r pages_meta_history in
  let name := partial_name (Path.name dataset_dir) r in
  _path self = dataset_dir ++ [name]
  /\ Path.name (_path self) = name
  /\ Path.parent (_path self) = dataset_dir
  /\ Path.plain_name (_path self)
  /\ tmp_path_of (_path self) = dataset_dir ++ ["tmp." +:+ name]
  /\ Path.parent (tmp_path_of (_path self)) = dataset_dir.
Proof.
  intros Hplain self name.
  destruct (partial_path dataset_dir r pages_meta_history Hplain)
    as (Hpath & Hall & Hslash).
  fold self name in Hpath, Hall, Hslash.
  assert (Path.name (_path self) = name) as Hname
    by (rewrite Hpath; by apply name_snoc).
  assert (Path.parent (_path self) = dataset_dir) as Hparent
    by (rewrite Hpath; by apply parent_snoc).
  assert (Path.plain_name (_path self)) as Hplain'
    by (unfold Path.plain_name; by rewrite Hname).
  assert (tmp_path_of (_path self) = dataset_dir ++ ["tmp." +:+ name]) as Htmp
    by (by rewrite (BuildFacts.tmp_path_parts _ Hplain'), Hparent, Hname).
  repeat split; try done.
  rewrite Htmp. apply parent_snoc. intros E.
  apply (f_equal String.length) in E. rewrite StrFacts.length_app in E.
  simpl in E. lia.
Qed.

(** X15. The archives of the partitions do not get in the way of each
    other. When the name of the directory of the dataset holds no slash,
    two partitions have the same archive, or the same temporary archive,
    only if they have the same range of page ids; the temporary archive of a
    partition is the archive of no partition; and neither the archive nor
    the temporary archive of a partition is the merged archive. *)
Theorem partial_paths_apart (dataset_dir : Path.t) (r r' : Z * Z)
    (h h' : list WikidataRawRevision.t)
    (partials : list _WikidatedEntityStreamsPartial) :
  Path.plain_name dataset_dir ->
  let a := _path (Partial_init dataset_dir r h) in
  let b := _path (Partial_init dataset_dir r' h') in
  let m := merged_path (Merged_init dataset_dir partials) in
  (a = b -> r = r')
  /\ (tmp_path_of a = tmp_path_of b -> r = r')
  /\ tmp_path_of a <> b
  /\ a <> m
  /\ tmp_path_of a <> m.
Proof.
  intros Hplain a b m.
  destruct (partial_path dataset_dir r h Hplain) as (Ha & Hall_a & Hslash_a).
  destruct (partial_path dataset_dir r' h' Hplain) as (Hb & Hall_b & Hslash_b).
  pose proof (merged_path_parts dataset_dir partials Hplain) as Hm.
  fold a in Ha. fold b in Hb. fold m in Hm.
  assert (forall p s, p = dataset_dir ++ [s] ->
                      Str.all FileNameFacts.not_slash s = true -> s <> "/" ->
                      tmp_path_of p = dataset_dir ++ ["tmp." +:+ s]) as Htmp.
  { intros p s -> Hs Hslash.
    assert (Path.name (dataset_dir ++ [s]) = s) as Hname by by apply name_snoc.
    rewrite BuildFacts.tmp_path_parts; [|unfold Path.plain_name; by rewrite Hname].
    by rewrite Hname, parent_snoc. }
  rewrite (Htmp a _ Ha Hall_a Hslash_a), (Htmp b _ Hb Hall_b Hslash_b), Ha, Hb, Hm.
  clear Htmp Ha Hb Hm a b m.
  split; [|split; [|split; [|split]]].
  - intros [= E]%app_inv_head. by apply (partial_name_inj _ _ _ E).
  - intros [= E%append_inv_head]%app_inv_head. by apply (partial_name_inj _ _ _ E).
  - intros [= E]%app_inv_head. revert E.
    change ("-entity-streams" +:+ ?R) with (String "-" ("entity-streams" +:+ R)).
    by apply (rotate_ne (Path.name dataset_dir) "tmp.").
  - intros [= E%append_inv_head]%app_inv_head. discriminate E.
  - intros [= E]%app_inv_head. revert E.
    change "-entity-streams.7z" with (String "-" "entity-streams.7z").
    by apply (rotate_ne (Path.name dataset_dir) "tmp.").
Qed.

Lemma sample_plain_directory : Path.plain_name Examples.dataset_dir.
Proof. vm_compute. reflexivity. Defined.

(** The archive of the pages 1 to 100 of the sample dataset. *)
Lemma sample_layout :
  _path Examples.partial_1_100
  = ["data"; "wikidated-custom-20210601";
     "wikidated-custom-20210601-entity-streams-p1-p100.7z"]
  /\ Path.parent (tmp_path_of (_path Examples.partial_1_100)) = Examples.dataset_dir.
Proof.
  pose proof (partial_path_layout Examples.dataset_dir (1, 101)
                (_pages_meta_history Examples.partial_1_100)
                sample_plain_directory) as H.
  cbv zeta in H. destruct H as (H1 & _ & _ & _ & _ & H6).
  split; [exact H1 | exact H6].
Defined.

(** The temporary archive of the pages 0 to 99 is not the archive of the
    pages 100 to 199. *)
Lemma sample_apart :
  tmp_path_of (_path Examples.partial_0_99) <> _path Examples.partial_100_199.
Proof.
  pose proof (partial_paths_apart Examples.dataset_dir (0, 100) (100, 200) [] [] []
                sample_plain_directory) as H.
  cbv zeta in H. exact (proj1 (proj2 (proj2 H))).
Defined.

End PathFacts.

(** ** The order of iteration of the sets *)

Module OrderFacts.
Import RdfConverter TripleSet.

Lemma difference_Permutation (a a' b b' : TripleSet.t) :
  a ≡ₚ a' -> b ≡ₚ b' -> difference a b ≡ₚ difference a' b'.
Proof.
  intros Ha Hb. unfold difference.
  assert (forall l, List.filter (fun x => negb (contains b x)) l
                    = List.filter (fun x => negb (contains b' x)) l) as ->.
  { intros l. apply List.filter_ext. intros x.
    by rewrite (TripleSetFacts.contains_Permutation b b' x Hb). }
  clear Hb. induction Ha as [|x l l' _ IH|x y l|l l' l'' _ IH1 _ IH2]; cbn [List.filter].
  - done.
  - destruct (negb (contains b' x)); [by constructor | done].
  - destruct (negb (contains b' x)), (negb (contains b' y));
      try done; by constructor.
  - by etrans.
Qed.

(** X16. The diff does not depend on the order in which the sets hand out
    their members. In whatever order the state and the set of the triples of
    the revision are gone through, the sorted differences, which are the
    additions and the deletions of the diff, are the same lists. *)
Theorem diff_order_independent (state state' triples_set triples_set' : TripleSet.t) :
  state ≡ₚ state' ->
  triples_set ≡ₚ triples_set' ->
  sorted (difference triples_set state) = sorted (difference triples_set' state')
  /\ sorted (difference state triples_set) = sorted (difference state' triples_set').
Proof.
  intros Hs Ht.
  split; by apply TripleSetFacts.sorted_order_independent, difference_Permutation.
Qed.

(** The sets of [A; B] and [C; A], gone through in both orders. *)
Lemma sample_orders :
  sorted (difference [Examples.C; Examples.A] [Examples.A; Examples.B])
  = sorted (difference [Examples.A; Examples.C] [Examples.B; Examples.A])
  /\ sorted (difference [Examples.A; Examples.B] [Examples.C; Examples.A])
     = sorted (difference [Examples.B; Examples.A] [Examples.A; Examples.C]).
Proof.
  apply (diff_order_independent [Examples.A; Examples.B] [Examples.B; Examples.A]
           [Examples.C; Examples.A] [Examples.A; Examples.C]);
    apply perm_swap.
Defined.

End OrderFacts.
